(** * OpenResponses release scripts: a shallow embedding and its properties

    The three scripts under [scripts/] are string-processing programs:
    - [sync_app_store_metadata.py] turns a markdown document into one
      text file per App Store metadata field,
    - [generate_portfolio_content.py] extracts an API coverage table,
    - [secret_scan.py] looks for credential-like literals.

    Python strings are sequences of Unicode code points; they are
    modelled as lists of [N].  Dictionaries keep insertion order, which
    [main] relies on when it looks for the release-notes section, so
    they are association lists updated in place. *)

From Stdlib Require Import List NArith ZArith Bool Arith Lia String Ascii DecimalString.
Import ListNotations.

Local Open Scope N_scope.

(** ** Python string primitives *)

Module Py.

Abbreviation char := N (only parsing).
Abbreviation str := (list N) (only parsing).

(** An ASCII literal as a Python string. *)
Definition lit (s : string) : str :=
  map N_of_ascii (list_ascii_of_string s).

Fixpoint str_eqb (a b : str) : bool :=
  match a, b with
  | [], [] => true
  | x :: a', y :: b' => (x =? y) && str_eqb a' b'
  | _, _ => false
  end.

(** [str.isspace] on one code point (also the regex class [\s] on
    [str] patterns). *)
Definition isspace (c : char) : bool :=
  ((9 <=? c) && (c <=? 13)) || ((28 <=? c) && (c <=? 32))
  || (c =? 133) || (c =? 160) || (c =? 5760)
  || ((8192 <=? c) && (c <=? 8202))
  || (c =? 8232) || (c =? 8233) || (c =? 8239) || (c =? 8287)
  || (c =? 12288).

(** The line boundaries of [str.splitlines]. *)
Definition is_linebreak (c : char) : bool :=
  ((10 <=? c) && (c <=? 13)) || ((28 <=? c) && (c <=? 30))
  || (c =? 133) || (c =? 8232) || (c =? 8233).

Definition NL : char := 10.
Definition CR : char := 13.

Fixpoint lstrip_by (p : char -> bool) (s : str) : str :=
  match s with
  | [] => []
  | c :: r => if p c then lstrip_by p r else s
  end.

Fixpoint rstrip_by (p : char -> bool) (s : str) : str :=
  match s with
  | [] => []
  | c :: r =>
      match rstrip_by p r with
      | [] => if p c then [] else [c]
      | t => c :: t
      end
  end.

Definition strip_by (p : char -> bool) (s : str) : str :=
  rstrip_by p (lstrip_by p s).

Definition lstrip := lstrip_by isspace.
Definition rstrip := rstrip_by isspace.
Definition strip := strip_by isspace.

(** [s.rstrip(chars)] *)
Definition rstrip_chars (chars : str) : str -> str :=
  rstrip_by (fun c => existsb (N.eqb c) chars).

Fixpoint startswith (s prefix : str) {struct prefix} : bool :=
  match prefix, s with
  | [], _ => true
  | p :: prefix', c :: s' => (c =? p) && startswith s' prefix'
  | _ :: _, [] => false
  end.

(** [sub in s] *)
Fixpoint contains (s sub : str) : bool :=
  startswith s sub
  || match s with
     | [] => false
     | _ :: r => contains r sub
     end.

(** [sep.join(parts)] *)
Fixpoint join (sep : str) (parts : list str) : str :=
  match parts with
  | [] => []
  | [x] => x
  | x :: rest => x ++ sep ++ join sep rest
  end.

(** [s.split(sep)] for a non-empty separator: the pieces between the
    non-overlapping occurrences of [sep], found left to right.  [skip]
    counts the characters of a separator still to be passed over. *)
Fixpoint split_go (sep : str) (skip : nat) (s : str) : list str :=
  match s with
  | [] => [[]]
  | c :: r =>
      match skip with
      | S k => split_go sep k r
      | O =>
          if startswith s sep then [] :: split_go sep (List.length sep - 1) r
          else
            match split_go sep 0 r with
            | h :: t => (c :: h) :: t
            | [] => [[c]]
            end
      end
  end.

Definition split (sep : str) (s : str) : list str := split_go sep 0 s.

(** [s.split()]: the maximal runs of non-whitespace characters. *)
Fixpoint split_ws (s : str) : list str :=
  match s with
  | [] => []
  | c :: r =>
      if isspace c then split_ws r
      else
        match r with
        | d :: _ =>
            if isspace d then [c] :: split_ws r
            else
              match split_ws r with
              | w :: ws => (c :: w) :: ws
              | [] => [[c]]
              end
        | [] => [[c]]
        end
  end.

(** [s.splitlines()]: a line ends at a line boundary, a carriage return
    followed by a line feed is one boundary, and the text after the
    last boundary is a line only when it is not empty. *)
Fixpoint splitlines (s : str) : list str :=
  match s with
  | [] => []
  | c :: r =>
      if is_linebreak c then
        if c =? CR then
          match r with
          | d :: r' => if d =? NL then [] :: splitlines r' else [] :: splitlines r
          | [] => [[]]
          end
        else [] :: splitlines r
      else
        match splitlines r with
        | h :: t => (c :: h) :: t
        | [] => [[c]]
        end
  end.

(** [text.replace(src, dst)]; [skip] as in [split_go]. *)
Fixpoint replace_go (src dst : str) (skip : nat) (text : str) : str :=
  match text with
  | [] => []
  | c :: r =>
      match skip with
      | S k => replace_go src dst k r
      | O =>
          if startswith text src then dst ++ replace_go src dst (List.length src - 1) r
          else c :: replace_go src dst 0 r
      end
  end.

Definition replace (src dst text : str) : str :=
  match src with
  | [] => dst ++ flat_map (fun c => c :: dst) text
  | _ => replace_go src dst 0 text
  end.

(** The longest prefix of characters satisfying [p], and the rest: what
    a greedy character-class repetition consumes. *)
Fixpoint span (p : char -> bool) (s : str) : str * str :=
  match s with
  | [] => ([], [])
  | c :: r =>
      if p c then let '(a, b) := span p r in (c :: a, b) else ([], s)
  end.

(** [re.search]: the first suffix of [s], scanning left to right, at
    which the matcher [m] succeeds. *)
Fixpoint search {A : Type} (m : str -> option A) (s : str) : option A :=
  match m s with
  | Some a => Some a
  | None =>
      match s with
      | [] => None
      | _ :: r => search m r
      end
  end.

(** Dictionaries in insertion order. *)
Definition dict (V : Type) := list (str * V).

Fixpoint get {V : Type} (d : dict V) (k : str) : option V :=
  match d with
  | [] => None
  | (k', v) :: r => if str_eqb k' k then Some v else get r k
  end.

(** [d[k] = v]: an existing key keeps its place. *)
Fixpoint set {V : Type} (d : dict V) (k : str) (v : V) : dict V :=
  match d with
  | [] => [(k, v)]
  | (k', v') :: r =>
      if str_eqb k' k then (k', v) :: r else (k', v') :: set r k v
  end.

(** [d.setdefault(k, v)]: an existing key keeps its value. *)
Definition setdefault {V : Type} (d : dict V) (k : str) (v : V) : dict V :=
  match get d k with
  | Some _ => d
  | None => d ++ [(k, v)]
  end.

Definition mem {V : Type} (d : dict V) (k : str) : bool :=
  match get d k with
  | Some _ => true
  | None => false
  end.

Definition keys {V : Type} (d : dict V) : list str := map fst d.

(** The exceptions the scripts meet: [KeyError(key)], which [require]
    raises and [main] catches, and the [IndexError] of taking the first
    element of an empty list. *)
Inductive exn : Type :=
| KeyError (key : str)
| IndexError.

End Py.

(** ** Regular-expression scanning

    [re.sub] and [re.finditer] walk the text from left to right and try
    the pattern at each position that no earlier match covers.  A
    matcher [m] tells, for the text that starts at a position, whether
    the pattern matches there and how many characters it takes; no
    pattern of the scripts matches the empty string. *)

Module Re.
Import Py.

(** [re.sub]: [m] gives the length of the match and its replacement. *)
Fixpoint sub_go (m : str -> option (nat * str)) (skip : nat) (s : str) : str :=
  match s with
  | [] => []
  | c :: r =>
      match skip with
      | S k => sub_go m k r
      | O =>
          match m s with
          | Some (len, repl) => repl ++ sub_go m (len - 1) r
          | None => c :: sub_go m 0 r
          end
      end
  end.

Definition sub (m : str -> option (nat * str)) (s : str) : str := sub_go m 0 s.

(** [re.finditer]: the start offset and the text of every match;
    [m] gives the length of the match. *)
Fixpoint finditer_go (m : str -> option nat) (pos skip : nat) (s : str)
  : list (nat * str) :=
  match s with
  | [] => []
  | _ :: r =>
      match skip with
      | S k => finditer_go m (S pos) k r
      | O =>
          match m s with
          | Some len => (pos, firstn len s) :: finditer_go m (S pos) (len - 1) r
          | None => finditer_go m (S pos) 0 r
          end
      end
  end.

Definition finditer (m : str -> option nat) (s : str) : list (nat * str) :=
  finditer_go m 0 0 s.

Definition nonempty {A : Type} (l : list A) : bool :=
  match l with
  | [] => false
  | _ :: _ => true
  end.

Definition is_upper (c : char) : bool := (65 <=? c) && (c <=? 90).
Definition is_lower (c : char) : bool := (97 <=? c) && (c <=? 122).
Definition is_digit (c : char) : bool := (48 <=? c) && (c <=? 57).
(** The class [A-Za-z0-9]. *)
Definition is_alnum (c : char) : bool := is_upper c || is_lower c || is_digit c.

End Re.

(** ** scripts/sync_app_store_metadata.py *)

Module Metadata.
Import Py Re.

Definition HASH : char := 35.
Definition STAR : char := 42.
Definition COLON : char := 58.

(** [ASCII_MAP], in the order of the dictionary literal: em dash, en
    dash, the two curly single quotes, the two curly double quotes,
    horizontal and midline ellipsis, no-break space. *)
Definition ASCII_MAP : list (str * str) :=
  [ ([8212], [45; 45]);
    ([8211], [45]);
    ([8217], [39]);
    ([8216], [39]);
    ([8220], [34]);
    ([8221], [34]);
    ([8230], [46; 46; 46]);
    ([8943], [46; 46; 46]);
    ([160], [32]) ].

Definition asciiize (text : str) : str :=
  fold_left (fun t sd => replace (fst sd) (snd sd) t) ASCII_MAP text.

(** Lines 37-38: the label of a heading line. *)
Definition heading_of (line : str) : str :=
  let heading := strip (skipn 3 line) in
  strip (hd [] (split (lit " (") heading)).

(** [sections[current].append(line)]; [current] is always a key. *)
Definition append_line (sections : dict (list str)) (current line : str)
  : dict (list str) :=
  match get sections current with
  | Some ls => set sections current (ls ++ [line])
  | None => sections
  end.

Definition sections_step (st : dict (list str) * option str) (line : str)
  : dict (list str) * option str :=
  let '(sections, current) := st in
  if startswith line (lit "## ") then
    let heading := heading_of line in
    (setdefault sections heading [], Some heading)
  else
    match current with
    | Some cur => (append_line sections cur line, current)
    | None => st
    end.

Definition parse_lines (lines : list str) : dict (list str) :=
  fst (fold_left sections_step lines ([], None)).

Definition parse_sections (text : str) : dict (list str) :=
  parse_lines (splitlines text).

(** The pattern [^#{1,6}\s+] at the start of the line: what is left
    after the match, if it matches.  Seven or more marks do not match,
    since the mark after the sixth is no whitespace. *)
Definition heading_marker (line : str) : option str :=
  let '(marks, r1) := span (N.eqb HASH) line in
  if (1 <=? List.length marks)%nat && (List.length marks <=? 6)%nat then
    let '(ws, r2) := span isspace r1 in
    if nonempty ws then Some r2 else None
  else None.

(** The italic pattern at the start of [s], a star, group 1 of one or
    more characters that are no star, and a star: the length of the
    match and group 1. *)
Definition italic_at (s : str) : option (nat * str) :=
  match s with
  | c :: r =>
      if c =? STAR then
        let '(body, rest) := span (fun d => negb (d =? STAR)) r in
        match body, rest with
        | _ :: _, _ :: _ => Some (S (S (List.length body)), body)
        | _, _ => None
        end
      else None
  | [] => None
  end.

Definition strip_markdown (line : str) : str :=
  let line := match heading_marker line with Some r => r | None => line end in
  let line := replace [STAR; STAR] [] line in
  let line := sub italic_at line in
  line.

Definition normalize_plain (lines : list str) : str :=
  let normalized := map (fun line => asciiize (rstrip line)) lines in
  strip (join [NL] normalized).

Definition normalize_markdown (lines : list str) : str :=
  let normalized := map (fun line => asciiize (strip_markdown (rstrip line))) lines in
  strip (join [NL] normalized).

(** The end of the bullet pattern, a greedy dot-star group and a
    dollar: the dot takes no line feed, and the dollar stands at the
    end of the text or before a line feed that is its last character.
    The result is group 2. *)
Definition dot_star_end (t : str) : option str :=
  let '(body, rest) := span (fun d => negb (d =? NL)) t in
  match rest with
  | [] => Some body
  | [_] => Some body
  | _ => None
  end.

(** [pattern.match] for the bullet pattern: a hyphen, whitespace, two
    stars, group 1 of one or more characters that are no star, two
    stars, whitespace, group 2 up to the end.  Each repetition is
    followed by a character outside its class, so only the greedy
    choice can match. *)
Definition bullet_match (s : str) : option (str * str) :=
  match s with
  | c :: r =>
      if c =? 45 then
        let '(ws1, r1) := span isspace r in
        if nonempty ws1 && startswith r1 [STAR; STAR] then
          let '(label, r3) := span (fun d => negb (d =? STAR)) (skipn 2 r1) in
          if nonempty label && startswith r3 [STAR; STAR] then
            let '(ws2, r5) := span isspace (skipn 2 r3) in
            if nonempty ws2 then
              match dot_star_end r5 with
              | Some value => Some (label, value)
              | None => None
              end
            else None
          else None
        else None
      else None
  | [] => None
  end.

Definition bullets_step (data : dict str) (line : str) : dict str :=
  match bullet_match (strip line) with
  | Some (g1, g2) =>
      let label := rstrip_chars [COLON] (strip g1) in
      set data label (strip g2)
  | None => data
  end.

Definition parse_labeled_bullets (lines : list str) : dict str :=
  fold_left bullets_step lines [].

(** The pattern [<([^>]+)>] at the start of [s]: group 1. *)
Definition bracketed_at (s : str) : option str :=
  match s with
  | c :: r =>
      if c =? 60 then
        let '(body, rest) := span (fun d => negb (d =? 62)) r in
        match body, rest with
        | _ :: _, _ :: _ => Some body
        | _, _ => None
        end
      else None
  | [] => None
  end.

(** The pattern [https?://\S+] at the start of [s]: the matched text. *)
Definition http_at (s : str) : option str :=
  if startswith s (lit "http") then
    let r := skipn 4 s in
    let '(opt_s, r') := if startswith r (lit "s") then (lit "s", skipn 1 r) else ([], r) in
    if startswith r' (lit "://") then
      let '(body, _) := span (fun d => negb (isspace d)) (skipn 3 r') in
      if nonempty body then Some (lit "http" ++ opt_s ++ lit "://" ++ body) else None
    else None
  else None.

(** [value.split()[0]]: [None] stands for the [IndexError] that the
    index raises when the value holds nothing but whitespace and the
    list is empty. *)
Definition first_word (value : str) : option str := hd_error (split_ws value).

(** [extract_url]; [None] stands for the [IndexError] of its last
    line. *)
Definition extract_url (value : str) : option str :=
  if nonempty value then
    match search bracketed_at value with
    | Some g1 => Some g1
    | None =>
        match search http_at value with
        | Some g0 => Some (rstrip_chars (lit ").,") g0)
        | None => first_word value
        end
    end
  else Some [].

(** The pattern [mailto:([^>\\s]+)] as the raw string spells it: the
    class excludes the greater-than sign, the backslash and the letter
    s. *)
Definition mailto_at (s : str) : option str :=
  if startswith s (lit "mailto:") then
    let '(body, _) :=
      span (fun d => negb ((d =? 62) || (d =? 92) || (d =? 115))) (skipn 7 s) in
    if nonempty body then Some body else None
  else None.

(** The pattern [[A-Za-z0-9._%+-]+@[A-Za-z0-9.-]+\\.[A-Za-z]{2,}] as the
    raw string spells it: after the domain come a backslash, any
    character but a line feed, and two or more letters. *)
Definition email_at (s : str) : option str :=
  let '(local, r1) :=
    span (fun d => is_alnum d || (d =? 46) || (d =? 95) || (d =? 37) || (d =? 43) || (d =? 45)) s in
  match local, r1 with
  | _ :: _, at_sign :: r2 =>
      if at_sign =? 64 then
        let '(domain, r3) := span (fun d => is_alnum d || (d =? 46) || (d =? 45)) r2 in
        match domain, r3 with
        | _ :: _, b :: x :: r4 =>
            if (b =? 92) && negb (x =? NL) then
              let '(tld, _) := span (fun d => is_upper d || is_lower d) r4 in
              if (2 <=? List.length tld)%nat
              then Some (local ++ [at_sign] ++ domain ++ [b; x] ++ tld)
              else None
            else None
        | _, _ => None
        end
      else None
  | _, _ => None
  end.

(** [extract_email]; [None] stands for the [IndexError] of its last
    line. *)
Definition extract_email (value : str) : option str :=
  if nonempty value then
    match search mailto_at value with
    | Some g1 => Some g1
    | None =>
        match search email_at value with
        | Some g0 => Some g0
        | None => first_word value
        end
    end
  else Some [].

(** The pattern [\\+?\\d[\\d\\s().-]{6,}] as the raw string spells it:
    backslashes (lazily, at least one), a backslash, the letter d, and
    six or more characters among backslash, d, s, parentheses, dot and
    hyphen.  The lazy repetition stops at the last backslash of the run,
    so the run has at least two. *)
Definition phone_at (s : str) : option str :=
  let '(slashes, r1) := span (N.eqb 92) s in
  if (2 <=? List.length slashes)%nat then
    match r1 with
    | d :: r2 =>
        if d =? 100 then
          let '(body, _) :=
            span (fun x => (x =? 92) || (x =? 100) || (x =? 115) || (x =? 40)
                           || (x =? 41) || (x =? 46) || (x =? 45)) r2 in
          if (6 <=? List.length body)%nat then Some (slashes ++ [d] ++ body) else None
        else None
    | [] => None
    end
  else None.

Definition extract_phone (value : str) : str :=
  if nonempty value then
    match search phone_at value with
    | Some g0 => strip g0
    | None => strip value
    end
  else [].

Definition split_name (full_name : str) : str * str :=
  let parts := filter (fun part => nonempty (strip part)) (split_ws full_name) in
  match parts with
  | [] => ([], [])
  | [p] => (p, [])
  | p :: rest => (p, join (lit " ") rest)
  end.

(** [require]: [inl key] stands for [KeyError(key)]. *)
Definition require (mapping : dict str) (key : str) : str + str :=
  match get mapping key with
  | Some v => if nonempty (strip v) then inr (strip v) else inl key
  | None => inl key
  end.

End Metadata.

(** ** The effects of a script

    A script creates directories, writes files and prints; a [return]
    inside [main] ends the run.  A computation yields the events in the
    order they happen, and either a value to go on with or the exit
    code. *)

Module Run.
Import Py.

Inductive target : Type :=
| OUTPUT_DIR
| REVIEW_INFO_DIR.

Inductive event : Type :=
| Mkdir (d : target)
| WriteText (d : target) (filename content : str)
| PrintErr (msg : str)
| PrintOut (msg : str).

Inductive outcome (A : Type) : Type :=
| Continue (a : A)
| Return (code : Z)
| Raise (e : exn).

Arguments Continue {A} a.
Arguments Return {A} code.
Arguments Raise {A} e.

Definition M (A : Type) : Type := list event * outcome A.

Definition ret {A : Type} (a : A) : M A := ([], Continue a).

Definition bind {A B : Type} (m : M A) (k : A -> M B) : M B :=
  match m with
  | (log, Continue a) => let '(log', o) := k a in (log ++ log', o)
  | (log, Return code) => (log, Return code)
  | (log, Raise e) => (log, Raise e)
  end.

Definition emit (e : event) : M unit := ([e], Continue tt).

Definition exit {A : Type} (code : Z) : M A := ([], Return code).

(** An exception that nothing catches. *)
Definition raise {A : Type} (e : exn) : M A := ([], Raise e).

Definition written (log : list event) : list (target * str * str) :=
  flat_map (fun e => match e with
                     | WriteText d f c => [(d, f, c)]
                     | _ => []
                     end) log.

Definition stderr (log : list event) : list str :=
  flat_map (fun e => match e with
                     | PrintErr m => [m]
                     | _ => []
                     end) log.

(** The exit status of the script; the interpreter ends with status 1
    on an exception that nothing catches. *)
Definition exit_code (m : M Z) : Z :=
  match snd m with
  | Continue c => c
  | Return c => c
  | Raise _ => 1
  end.

End Run.

Notation "x <- m ;; k" := (Run.bind m (fun x => k))
  (at level 61, m at next level, right associativity).
Notation "m ;;; k" := (Run.bind m (fun _ => k))
  (at level 61, right associativity).

(** ** [main] of sync_app_store_metadata.py *)

Module MetadataMain.
Import Py Re Metadata Run.

(** [sorted] on strings: code point order. *)
Fixpoint str_leb (a b : str) : bool :=
  match a, b with
  | [], _ => true
  | _ :: _, [] => false
  | x :: a', y :: b' => (x <? y) || ((x =? y) && str_leb a' b')
  end.

Fixpoint insert_sorted (x : str) (l : list str) : list str :=
  match l with
  | [] => [x]
  | y :: r => if str_leb x y then x :: l else y :: insert_sorted x r
  end.

Definition sorted (l : list str) : list str := fold_right insert_sorted [] l.

Definition required_sections : list str :=
  [ lit "Quick Reference";
    lit "Promotional Text";
    lit "Full Description";
    lit "Keywords";
    lit "URLs" ].

Definition missing_sections (sections : dict (list str)) : list str :=
  filter (fun section => negb (mem sections section)) required_sections.

Definition release_key (sections : dict (list str)) : option str :=
  find (fun key => startswith key (lit "What's New in ")) (keys sections).

(** [sections[k]] and [sections.get(k, [])]. *)
Definition section (sections : dict (list str)) (k : str) : list str :=
  match get sections k with
  | Some ls => ls
  | None => []
  end.

(** A [try] block of [require] calls: the first [KeyError] leaves it. *)
Definition try_bind {E A B : Type} (r : E + A) (k : A -> E + B) : E + B :=
  match r with
  | inl key => inl key
  | inr a => k a
  end.

(** The exception a failed call raises inside a [try] block. *)
Definition key_error {A : Type} (r : str + A) : exn + A :=
  match r with
  | inl key => inl (KeyError key)
  | inr a => inr a
  end.

Definition index_error {A : Type} (o : option A) : exn + A :=
  match o with
  | Some a => inr a
  | None => inl IndexError
  end.

Definition quick_ref_fields (quick_ref : dict str) : str + (str * str * str * str) :=
  try_bind (require quick_ref (lit "Name")) (fun name =>
  try_bind (require quick_ref (lit "Subtitle")) (fun subtitle =>
  try_bind (require quick_ref (lit "Primary Category")) (fun primary_category =>
  try_bind (require quick_ref (lit "Secondary Category")) (fun secondary_category =>
  inr (name, subtitle, primary_category, secondary_category))))).

(** The second [try] block: each line calls [require] and then
    [extract_url] on its result, before the next line runs. *)
Definition url_fields (urls : dict str) : exn + (str * str * str) :=
  try_bind (key_error (require urls (lit "Marketing URL"))) (fun m =>
  try_bind (index_error (extract_url m)) (fun marketing_url =>
  try_bind (key_error (require urls (lit "Support URL"))) (fun s =>
  try_bind (index_error (extract_url s)) (fun support_url =>
  try_bind (key_error (require urls (lit "Privacy Policy URL"))) (fun p =>
  try_bind (index_error (extract_url p)) (fun privacy_url =>
  inr (marketing_url, support_url, privacy_url))))))).

Definition review_fields (review_info : dict str) : str + (str * str * str) :=
  try_bind (require review_info (lit "Contact Name")) (fun n =>
  try_bind (require review_info (lit "Contact Email")) (fun e =>
  try_bind (require review_info (lit "Contact Phone")) (fun p =>
  inr (n, e, p)))).

(** The two writing loops: the content of a file is checked when its
    turn comes, after the files before it have been written. *)
Fixpoint write_files (d : target) (complaint : str) (files : list (str * str))
  : M unit :=
  match files with
  | [] => ret tt
  | (filename, content) :: rest =>
      if nonempty content then
        emit (WriteText d filename (strip content ++ [NL])) ;;;
        write_files d complaint rest
      else
        emit (PrintErr (complaint ++ filename)) ;;;
        exit 1%Z
  end.

Section WithRuntime.

(** [str.lower], which follows the Unicode case tables of the
    interpreter, and the path of the source document, which depends on
    where the repository stands. *)
Variable lower : str -> str.
Variable SOURCE : str.

Definition extract_subsection (lines : list str) (heading : str) : list str :=
  let marker := lower (strip (lit "### " ++ heading)) in
  let fix after (ls : list str) : option (list str) :=
    match ls with
    | [] => None
    | line :: r => if str_eqb (lower (strip line)) marker then Some r else after r
    end in
  match after lines with
  | None => []
  | Some tail =>
      let fix block (ls : list str) : list str :=
        match ls with
        | [] => []
        | line :: r => if startswith line (lit "### ") then [] else line :: block r
        end in
      let blank := fun line => negb (nonempty (strip line)) in
      let fix drop_front (ls : list str) : list str :=
        match ls with
        | [] => []
        | line :: r => if blank line then drop_front r else ls
        end in
      rev (drop_front (rev (drop_front (block tail))))
  end.

Definition is_note (line : str) : bool :=
  startswith (lower (strip line)) (lit "note:").

Definition extract_note_lines (lines : list str) : list str :=
  flat_map (fun line => if is_note line then [strip_markdown (strip line)] else []) lines.

Definition optional_note (prefix : str) (v : option str) : list str :=
  match v with
  | Some s => if nonempty s then [prefix ++ strip_markdown s] else []
  | None => []
  end.

Definition review_notes (review_info : dict str) (review_section : list str) : str :=
  let demo_content :=
    filter (fun line => negb (is_note line))
           (extract_subsection review_section (lit "Demo Content Provided")) in
  let walkthrough := extract_subsection review_section (lit "Reviewer Walkthrough") in
  let note_lines := extract_note_lines review_section in
  let notes_parts :=
    optional_note (lit "Demo account: ") (get review_info (lit "Demo Account"))
    ++ optional_note (lit "Availability: ") (get review_info (lit "Availability"))
    ++ (if nonempty demo_content
        then [lit "Demo content provided:" ++ [NL] ++ normalize_markdown demo_content]
        else [])
    ++ (if nonempty walkthrough
        then [lit "Reviewer walkthrough:" ++ [NL] ++ normalize_markdown walkthrough]
        else [])
    ++ (if nonempty note_lines then [join [NL] note_lines] else []) in
  strip (join [NL; NL] notes_parts).

(** The dictionary [review_files]. *)
Definition review_block (review_info : dict str) (review_section : list str)
  : M (list (str * str)) :=
  if nonempty review_info then
    match review_fields review_info with
    | inl key =>
        emit (PrintErr (lit "Missing Review Information field: " ++ key)) ;;;
        exit 1%Z
    | inr (contact_name, contact_email, contact_phone) =>
        let '(first_name, last_name) := split_name (strip_markdown contact_name) in
        match extract_email contact_email with
        | None => raise IndexError
        | Some email =>
            let phone := extract_phone (strip_markdown contact_phone) in
            let notes := review_notes review_info review_section in
            ret ([ (lit "first_name.txt", asciiize first_name);
                   (lit "last_name.txt", asciiize last_name);
                   (lit "email_address.txt", asciiize email);
                   (lit "phone_number.txt", asciiize phone) ]
                 ++ (if nonempty notes then [(lit "notes.txt", asciiize notes)] else []))
        end
    end
  else ret [].

(** [main]; [source] is the text of the source document, [None] when
    the file does not exist. *)
Definition main (source : option str) : M Z :=
  match source with
  | None =>
      emit (PrintErr (lit "Missing source file: " ++ SOURCE)) ;;;
      exit 1%Z
  | Some text =>
      let sections := parse_sections text in
      match missing_sections sections with
      | (_ :: _) as missing =>
          emit (PrintErr (lit "Missing sections: " ++ join (lit ", ") missing)) ;;;
          exit 1%Z
      | [] =>
          match release_key sections with
          | None =>
              emit (PrintErr
                (lit "Missing release notes section (expected 'What's New in X.Y.Z')")) ;;;
              exit 1%Z
          | Some release =>
              let quick_ref := parse_labeled_bullets (section sections (lit "Quick Reference")) in
              let urls := parse_labeled_bullets (section sections (lit "URLs")) in
              let review_section := section sections (lit "Review Information") in
              let review_info := parse_labeled_bullets review_section in
              match quick_ref_fields quick_ref with
              | inl key =>
                  emit (PrintErr (lit "Missing Quick Reference field: " ++ key)) ;;;
                  exit 1%Z
              | inr (name, subtitle, primary_category, secondary_category) =>
                  match url_fields urls with
                  | inl (KeyError key) =>
                      emit (PrintErr (lit "Missing URL field: " ++ key)) ;;;
                      exit 1%Z
                  | inl IndexError => raise IndexError
                  | inr (marketing_url, support_url, privacy_url) =>
                      let files :=
                        [ (lit "name.txt", asciiize name);
                          (lit "subtitle.txt", asciiize subtitle);
                          (lit "promotional_text.txt",
                            normalize_plain (section sections (lit "Promotional Text")));
                          (lit "description.txt",
                            normalize_markdown (section sections (lit "Full Description")));
                          (lit "keywords.txt",
                            normalize_plain (section sections (lit "Keywords")));
                          (lit "release_notes.txt",
                            normalize_markdown (section sections release));
                          (lit "marketing_url.txt", asciiize marketing_url);
                          (lit "support_url.txt", asciiize support_url);
                          (lit "privacy_url.txt", asciiize privacy_url);
                          (lit "primary_category.txt", asciiize primary_category);
                          (lit "secondary_category.txt", asciiize secondary_category) ] in
                      emit (Mkdir OUTPUT_DIR) ;;;
                      write_files OUTPUT_DIR (lit "Missing content for ") files ;;;
                      review_files <- review_block review_info review_section ;;
                      (if nonempty review_files then
                         emit (Mkdir REVIEW_INFO_DIR) ;;;
                         write_files REVIEW_INFO_DIR
                           (lit "Missing content for review information ") review_files
                       else ret tt) ;;;
                      let written := join (lit ", ") (sorted (map fst files)) in
                      (if nonempty review_files then
                         emit (PrintOut (lit "Wrote fastlane review information files: "
                                         ++ join (lit ", ") (sorted (map fst review_files))))
                       else ret tt) ;;;
                      emit (PrintOut (lit "Wrote fastlane metadata files: " ++ written)) ;;;
                      exit 0%Z
                  end
              end
          end
      end
  end.

End WithRuntime.

(** [str.lower] on ASCII text. *)
Definition ascii_lower (s : str) : str :=
  map (fun c => if is_upper c then c + 32 else c) s.

End MetadataMain.

(** ** scripts/generate_portfolio_content.py: the coverage table *)

Module Portfolio.
Import Py Re.

Definition PIPE : char := 124.
Definition CHECK_MARK : char := 9989.
Definition YELLOW_CIRCLE : char := 128993.

Definition HEADER_MARKER : str := lit "| API Feature Category".

(** One entry of [coverage]: the values under the keys [feature],
    [status] and [details]. *)
Record row : Type := mk_row { feature : str; status : str; details : str }.

(** [l[1:-1]] *)
Definition inner {A : Type} (l : list A) : list A := removelast (tl l).

(** The body of the first branch under [if in_table]: the rows a table
    line adds to [coverage]. *)
Definition table_row (line : str) : list row :=
  let parts := map strip (inner (split [PIPE] line)) in
  match parts with
  | p0 :: p1 :: p2 :: _ =>
      if nonempty p0 then
        let status :=
          if contains p1 [CHECK_MARK] then lit "complete"
          else if contains p1 [YELLOW_CIRCLE] then lit "partial"
          else lit "pending" in
        [ mk_row (replace (lit "**") [] p0) status (firstn 80 p2) ]
      else []
  | _ => []
  end.

(** The loop over the lines; [in_table] is the flag of the source, and
    the [break] ends the recursion. *)
Fixpoint coverage_go (in_table : bool) (lines : list str) : list row :=
  match lines with
  | [] => []
  | line :: rest =>
      if contains line HEADER_MARKER then coverage_go true rest
      else if in_table then
        if startswith line [PIPE] && negb (contains line (lit "---")) then
          table_row line ++ coverage_go true rest
        else if negb (startswith line [PIPE]) then []
        else coverage_go true rest
      else coverage_go false rest
  end.

Definition extract_api_coverage (content : str) : list row :=
  coverage_go false (split [NL] content).

End Portfolio.

(** ** scripts/secret_scan.py *)

Module SecretScan.
Import Py Re Run.

(** The pattern [sk-[A-Za-z0-9]{24,}] at the start of [s]: the length
    of the match. *)
Definition openai_at (s : str) : option nat :=
  if startswith s (lit "sk-") then
    let '(run, _) := span is_alnum (skipn 3 s) in
    if (24 <=? List.length run)%nat then Some (3 + List.length run)%nat else None
  else None.

(** A character against a lower-case letter of a pattern compiled with
    the flag [(?i)]: besides the two ASCII cases, the dotted capital I
    and the dotless i match [i], the long s matches [s] and the Kelvin
    sign matches [k]. *)
Definition ci_eq (c p : char) : bool :=
  (c =? p) || (is_upper c && (c + 32 =? p))
  || ((p =? 105) && ((c =? 304) || (c =? 305)))
  || ((p =? 115) && (c =? 383))
  || ((p =? 107) && (c =? 8490)).

(** A lower-case word of the pattern at the start of [s]: what follows. *)
Fixpoint ci_word (word : str) (s : str) : option str :=
  match word, s with
  | [], _ => Some s
  | p :: word', c :: s' => if ci_eq c p then ci_word word' s' else None
  | _ :: _, [] => None
  end.

Fixpoint first_word_of (words : list str) (s : str) : option str :=
  match words with
  | [] => None
  | w :: rest =>
      match ci_word w s with
      | Some r => Some r
      | None => first_word_of rest s
      end
  end.

(** The class [[A-Za-z0-9_\-]] under [(?i)]. *)
Definition token_char (c : char) : bool :=
  is_alnum c || (c =? 95) || (c =? 45)
  || (c =? 304) || (c =? 305) || (c =? 383) || (c =? 8490).

(** The generic-token pattern at the start of [s]: one of api, token,
    secret, bearer; an optional hyphen, underscore or space; an optional
    key or token; whitespace; a colon or an equals sign; whitespace; a
    quote; twenty or more token characters.  The result is the length
    of the match.  Giving up an optional part that matched cannot make
    the rest match, so each takes what it can. *)
Definition generic_at (s : str) : option nat :=
  match first_word_of [lit "api"; lit "token"; lit "secret"; lit "bearer"] s with
  | None => None
  | Some r1 =>
      let r2 :=
        match r1 with
        | c :: r => if (c =? 45) || (c =? 95) || (c =? 32) then r else r1
        | [] => r1
        end in
      let r3 :=
        match first_word_of [lit "key"; lit "token"] r2 with
        | Some r => r
        | None => r2
        end in
      match snd (span isspace r3) with
      | c :: r4 =>
          if (c =? 58) || (c =? 61) then
            match snd (span isspace r4) with
            | q :: r5 =>
                if (q =? 39) || (q =? 34) then
                  let '(run, r6) := span token_char r5 in
                  if (20 <=? List.length run)%nat
                  then Some (List.length s - List.length r6)%nat
                  else None
                else None
            | [] => None
            end
          else None
      | [] => None
      end
  end.

Definition SUSPICIOUS_PATTERNS : list (str * (str -> option nat)) :=
  [ (lit "openai_key", openai_at);
    (lit "generic_token", generic_at) ].

(** [contents.count(NL, 0, start) + 1] *)
Definition line_number (contents : str) (start : nat) : nat :=
  S (List.length (filter (N.eqb NL) (firstn start contents))).

(** [scan_file]; [contents] is the decoded text of the file, [None] when
    decoding fails. *)
Definition scan_file (contents : option str) : list (nat * str * str) :=
  match contents with
  | None => []
  | Some text =>
      flat_map (fun lp : str * (str -> option nat) =>
                  map (fun m : nat * str => (line_number text (fst m), fst lp, snd m))
                      (finditer (snd lp) text))
               SUSPICIOUS_PATTERNS
  end.

Definition decimal (n : nat) : str :=
  lit (DecimalString.NilZero.string_of_uint (Nat.to_uint n)).

(** The line printed for a finding: label, path, line number, an arrow
    and the matched text. *)
Definition diagnostic (relative : str) (line_no : nat) (label snippet : str) : str :=
  lit "- " ++ label ++ lit ": " ++ relative ++ lit ":"
  ++ decimal line_no ++ [32; 8594; 32] ++ snippet.

(** The first loop of [main]: the findings of every candidate file,
    each with the path of its file.  [candidates] are the files
    [iter_candidate_files] yields, each with its path relative to the
    repository root. *)
Definition findings_of (candidates : list (str * option str))
  : list (str * (nat * str * str)) :=
  flat_map (fun file : str * option str =>
              map (fun f : nat * str * str => (fst file, f)) (scan_file (snd file)))
           candidates.

(** One turn of the second loop of [main]. *)
Definition report (f : str * (nat * str * str)) (k : M unit) : M unit :=
  let '(relative, (line_no, label, snippet)) := f in
  emit (PrintOut (diagnostic relative line_no label snippet)) ;;; k.

Definition main (candidates : list (str * option str)) : M Z :=
  let findings := findings_of candidates in
  match findings with
  | [] =>
      emit (PrintOut ([9989] ++ lit " Secret scan passed: no suspicious tokens detected.")) ;;;
      exit 0%Z
  | _ :: _ =>
      emit (PrintOut ([10060] ++ lit " Potential secrets detected:" ++ [NL])) ;;;
      fold_right report (ret tt) findings ;;;
      emit (PrintOut ([NL] ++
        lit "Resolve or confirm false positives before archiving the release build.")) ;;;
      exit 1%Z
  end.

End SecretScan.

(** ** Notions the properties are stated with *)

Module Specs.
Import Py Re Metadata.

(** A part of [split]: at least one character, none of them
    whitespace. *)
Definition word (w : str) : Prop :=
  w <> [] /\ Forall (fun c => isspace c = false) w.

Definition is_heading (line : str) : bool := startswith line (lit "## ").

(** The label a line gives to [parse_labeled_bullets], if it is a
    labeled bullet. *)
Definition bullet_label (line : str) : option str :=
  match bullet_match (strip line) with
  | Some (g1, _) => Some (rstrip_chars [COLON] (strip g1))
  | None => None
  end.

Definition sets_label (label line : str) : bool :=
  match bullet_label line with
  | Some k => str_eqb k label
  | None => false
  end.

Definition has_visible (s : str) : bool := existsb (fun c => negb (isspace c)) s.

Definition free_of (c : char) (s : str) : bool := forallb (fun d => negb (d =? c)) s.

(** The required labeled fields, in the order [main] asks for them. *)
Definition QUICK_REFERENCE_FIELDS : list str :=
  [ lit "Name"; lit "Subtitle"; lit "Primary Category"; lit "Secondary Category" ].

Definition URL_FIELDS : list str :=
  [ lit "Marketing URL"; lit "Support URL"; lit "Privacy Policy URL" ].

(** A field is missing when its label is absent or its value is blank. *)
Definition field_missing (mapping : dict str) (k : str) : bool :=
  match get mapping k with
  | Some v => negb (has_visible v)
  | None => true
  end.

Definition first_missing (mapping : dict str) (labels : list str) : option str :=
  find (field_missing mapping) labels.

Definition quick_ref_of (text : str) : dict str :=
  parse_labeled_bullets (MetadataMain.section (parse_sections text) (lit "Quick Reference")).

Definition urls_of (text : str) : dict str :=
  parse_labeled_bullets (MetadataMain.section (parse_sections text) (lit "URLs")).

Definition is_none {A : Type} (o : option A) : bool :=
  match o with
  | Some _ => false
  | None => true
  end.

(** The checks of [main] that come before the first output: required
    sections, release notes, required fields. *)
Definition structure_valid (text : str) : bool :=
  negb (nonempty (MetadataMain.missing_sections (parse_sections text)))
  && negb (is_none (MetadataMain.release_key (parse_sections text)))
  && is_none (first_missing (quick_ref_of text) QUICK_REFERENCE_FIELDS)
  && is_none (first_missing (urls_of text) URL_FIELDS).

(** At offset [i] of [contents] stand the letters sk, a hyphen and
    twenty-four alphanumeric characters (more may follow). *)
Definition key_at (contents : str) (i : nat) : bool :=
  let s := skipn i contents in
  startswith s (lit "sk-")
  && forallb is_alnum (firstn 24 (skipn 3 s))
  && (List.length (firstn 24 (skipn 3 s)) =? 24)%nat.

(** The offsets of [contents] at which a key stands. *)
Definition occurrences (contents : str) : list nat :=
  filter (key_at contents) (seq 0 (List.length contents)).

Definition labeled (label : str) (finding : nat * str * str) : bool :=
  str_eqb (snd (fst finding)) label.

(** The number of the line that holds offset [i], counting from 1: the
    number of pieces the text before the offset falls into at its line
    feeds. *)
Definition line_of (contents : str) (i : nat) : nat :=
  List.length (split [NL] (firstn i contents)).

Definition clean (file : str * option str) : bool :=
  negb (nonempty (SecretScan.scan_file (snd file))).

(** The normalizers on a text: the lines they are given in [main] are
    those of [splitlines]. *)
Definition plain_text (s : str) : str := normalize_plain (splitlines s).

Definition markdown_text (s : str) : str := normalize_markdown (splitlines s).

(** The characters [ASCII_MAP] replaces. *)
Definition is_target (c : char) : bool :=
  (c =? 8212) || (c =? 8211) || (c =? 8217) || (c =? 8216) || (c =? 8220)
  || (c =? 8221) || (c =? 8230) || (c =? 8943) || (c =? 160).

(** What [asciiize] puts in the place of one character. *)
Definition ascii_subst (c : char) : str :=
  if c =? 8212 then [45; 45]
  else if c =? 8211 then [45]
  else if c =? 8217 then [39]
  else if c =? 8216 then [39]
  else if c =? 8220 then [34]
  else if c =? 8221 then [34]
  else if c =? 8230 then [46; 46; 46]
  else if c =? 8943 then [46; 46; 46]
  else if c =? 160 then [32]
  else [c].

Definition target_free (s : str) : bool := forallb (fun c => negb (is_target c)) s.

(** No line boundary but the line feed. *)
Definition only_line_feeds (s : str) : bool :=
  forallb (fun c => negb (is_linebreak c) || (c =? NL)) s.

Definition no_linebreak (s : str) : bool := forallb (fun c => negb (is_linebreak c)) s.

(** No line of the text, cut at its line feeds, ends in whitespace. *)
Definition trimmed_lines (s : str) : Prop :=
  Forall (fun seg => rstrip seg = seg) (split [NL] s).

(** The files of a writing loop that come before the first one whose
    content is empty. *)
Fixpoint nonempty_prefix (files : list (str * str)) : list (str * str) :=
  match files with
  | [] => []
  | fc :: rest => if nonempty (snd fc) then fc :: nonempty_prefix rest else []
  end.

(** The rows a line of a table block gives: none for a header row or a
    separator row. *)
Definition block_rows (line : str) : list Portfolio.row :=
  if contains line Portfolio.HEADER_MARKER || contains line (lit "---") then []
  else Portfolio.table_row line.

Definition is_header (line : str) : bool := contains line Portfolio.HEADER_MARKER.

Definition is_table_line (line : str) : bool := startswith line [Portfolio.PIPE].

End Specs.

(** ** scripts/generate_portfolio_content.py: the feature list *)

Module Features.
Import Py Re.

(** The heading the section pattern starts with, and its two line
    feeds. *)
Definition CORE_FEATURES : str := lit "## Core Features" ++ [NL; NL].

(** The lookahead of the section pattern: a line feed and three
    hyphens, or a line feed and a level-2 heading marker. *)
Definition section_end (s : str) : bool :=
  startswith s (NL :: lit "---") || startswith s (NL :: lit "## ").

(** The lazy group of the section pattern, which under [re.DOTALL]
    takes any character: the shortest text after which the lookahead
    holds. *)
Fixpoint lazy_body (s : str) : option str :=
  if section_end s then Some []
  else
    match s with
    | [] => None
    | c :: r => option_map (cons c) (lazy_body r)
    end.

(** The section pattern at the start of [s]: group 1. *)
Definition core_features_at (s : str) : option str :=
  if startswith s CORE_FEATURES then lazy_body (skipn (List.length CORE_FEATURES) s)
  else None.

(** One entry of [features]: the values under the keys [name] and
    [description]. *)
Record feature : Type := mk_feature { name : str; description : str }.

(** [re.match] with the bullet pattern: a hyphen, a space, two stars,
    one or more characters that are not stars, two stars, an optional
    colon, whitespace, and an optional rest of the line.  The result is
    group 1 and group 2, the latter [None] when it took no part. *)
Definition feature_match (line : str) : option (str * option str) :=
  if startswith line (lit "- **") then
    let '(nm, r1) := span (fun c => negb (c =? 42)) (skipn 4 line) in
    if nonempty nm && startswith r1 (lit "**") then
      let r2 := skipn 2 r1 in
      let r3 :=
        match r2 with
        | c :: r => if c =? 58 then r else r2
        | [] => r2
        end in
      let r4 := snd (span isspace r3) in
      let rest := fst (span (fun c => negb (c =? NL)) r4) in
      Some (nm, if nonempty rest then Some rest else None)
    else None
  else None.

(** The body of the loop over the lines of the section. *)
Definition feature_of_line (line : str) : list feature :=
  match feature_match line with
  | Some (nm, Some d) => [mk_feature nm d]
  | Some (nm, None) => [mk_feature nm []]
  | None => []
  end.

Definition extract_features_from_readme (content : str) : list feature :=
  match search core_features_at content with
  | Some body => flat_map feature_of_line (split [NL] body)
  | None => []
  end.

End Features.

(** ** Further notions *)

Module MoreSpecs.
Import Py Re Metadata Specs.

Definition is_ascii (c : char) : bool := c <=? 127.

(** The sections a document maps a label to exist exactly for the
    labels of its heading lines. *)
Definition has_heading (label : str) (lines : list str) : bool :=
  existsb (fun l => is_heading l && str_eqb (heading_of l) label) lines.

Definition blank (line : str) : bool := negb (has_visible line).

(** The lines of a document that stand under the headings of one
    label: [cur] tells whether the nearest heading above has it. *)
Fixpoint lines_under (label : str) (cur : bool) (lines : list str) : list str :=
  match lines with
  | [] => []
  | l :: r =>
      if is_heading l then lines_under label (str_eqb (heading_of l) label) r
      else if cur then l :: lines_under label cur r
      else lines_under label cur r
  end.

(** The lines below a heading, up to the next heading. *)
Fixpoint below (lines : list str) : list str :=
  match lines with
  | [] => []
  | l :: r => if is_heading l then [] else l :: below r
  end.

(** One list of lines for each occurrence of a heading with the label
    [label], in the order of the document. *)
Fixpoint bodies_under (label : str) (lines : list str) : list (list str) :=
  match lines with
  | [] => []
  | l :: r =>
      if is_heading l && str_eqb (heading_of l) label
      then below r :: bodies_under label r
      else bodies_under label r
  end.

Definition current_is (cur : option str) (label : str) : bool :=
  match cur with
  | Some c => str_eqb c label
  | None => false
  end.

(** A field whose value holds a visible character and is trimmed. *)
Definition field_ok (kv : str * str) : Prop :=
  has_visible (snd kv) = true /\ strip (snd kv) = snd kv.

Definition scheme (secure : bool) : str :=
  if secure then lit "https://" else lit "http://".

(** The characters [extract_url] takes off the end of a URL. *)
Definition closing (c : char) : bool := existsb (N.eqb c) (lit ").,").

Definition starts_blank (s : str) : bool :=
  match s with
  | [] => true
  | c :: _ => isspace c
  end.

(** The three loops of [extract_subsection], one by one. *)
Section AfterMarker.

Variable lower : str -> str.
Variable marker : str.

Fixpoint after_marker (ls : list str) : option (list str) :=
  match ls with
  | [] => None
  | line :: r =>
      if str_eqb (lower (strip line)) marker then Some r
      else after_marker r
  end.

End AfterMarker.

Fixpoint block_until (ls : list str) : list str :=
  match ls with
  | [] => []
  | line :: r => if startswith line (lit "### ") then [] else line :: block_until r
  end.

Fixpoint drop_blank_front (ls : list str) : list str :=
  match ls with
  | [] => []
  | line :: r => if negb (nonempty (strip line)) then drop_blank_front r else ls
  end.

Definition visible_line (line : str) : bool := nonempty (strip line).

Definition first_visible (ls : list str) : bool :=
  match ls with
  | [] => true
  | line :: _ => visible_line line
  end.

(** The names of the metadata files, in the order [main] writes them. *)
Definition METADATA_FILES : list str :=
  [ lit "name.txt"; lit "subtitle.txt"; lit "promotional_text.txt";
    lit "description.txt"; lit "keywords.txt"; lit "release_notes.txt";
    lit "marketing_url.txt"; lit "support_url.txt"; lit "privacy_url.txt";
    lit "primary_category.txt"; lit "secondary_category.txt" ].

(** The same names as [sorted] orders them. *)
Definition SORTED_METADATA_FILES : list str :=
  [ lit "description.txt"; lit "keywords.txt"; lit "marketing_url.txt";
    lit "name.txt"; lit "primary_category.txt"; lit "privacy_url.txt";
    lit "promotional_text.txt"; lit "release_notes.txt";
    lit "secondary_category.txt"; lit "subtitle.txt"; lit "support_url.txt" ].

Definition REVIEW_FIELDS : list str :=
  [ lit "Contact Name"; lit "Contact Email"; lit "Contact Phone" ].

(** The lines of the release-notes section: the first section, in the
    order of the document, whose label starts with the release-notes
    prefix. *)
Definition release_section (text : str) : list str :=
  match MetadataMain.release_key (parse_sections text) with
  | Some r => MetadataMain.section (parse_sections text) r
  | None => []
  end.

(** The four texts [main] takes from the bodies of sections. *)
Definition body_texts (text : str) : list str :=
  [ normalize_plain (MetadataMain.section (parse_sections text) (lit "Promotional Text"));
    normalize_markdown (MetadataMain.section (parse_sections text) (lit "Full Description"));
    normalize_plain (MetadataMain.section (parse_sections text) (lit "Keywords"));
    normalize_markdown (release_section text) ].

Definition review_info_of (text : str) : dict str :=
  parse_labeled_bullets (MetadataMain.section (parse_sections text) (lit "Review Information")).

Definition review_section_of (text : str) : list str :=
  MetadataMain.section (parse_sections text) (lit "Review Information").

(** The names of the review information files, in the order [main]
    writes them and as [sorted] orders them; [notes] tells whether
    there are notes. *)
Definition REVIEW_FILES (notes : bool) : list str :=
  [ lit "first_name.txt"; lit "last_name.txt"; lit "email_address.txt";
    lit "phone_number.txt" ]
  ++ (if notes then [lit "notes.txt"] else []).

Definition SORTED_REVIEW_FILES (notes : bool) : list str :=
  [ lit "email_address.txt"; lit "first_name.txt"; lit "last_name.txt" ]
  ++ (if notes then [lit "notes.txt"] else [])
  ++ [ lit "phone_number.txt" ].

(** Whether the notes [main] puts together from the review
    information are not empty. *)
Definition has_notes (lower : str -> str) (text : str) : bool :=
  nonempty (MetadataMain.review_notes lower (review_info_of text) (review_section_of text)).

Definition file_of (w : Run.target * str * str) : Run.target * str := fst w.

(** A list of numbers in non-decreasing order, none below [lo]. *)
Fixpoint sorted_from (lo : nat) (l : list nat) : bool :=
  match l with
  | [] => true
  | a :: r => (lo <=? a)%nat && sorted_from a r
  end.

(** Matches, given by start offset and text, that stand left to right
    from offset [from] on without overlapping. *)
Fixpoint apart (from : nat) (ms : list (nat * str)) : bool :=
  match ms with
  | [] => true
  | (i, t) :: r =>
      (from <=? i)%nat && apart (Nat.max (S i) (i + List.length t)) r
  end.

(** The line numbers of the findings that carry [label]. *)
Definition lines_labeled (label : str) (findings : list (nat * str * str)) : list nat :=
  map (fun f => fst (fst f)) (filter (labeled label) findings).

(** What every entry of the feature list satisfies: a name of at
    least one character without a star, and a description that does
    not start with whitespace. *)
Definition feature_ok (f : Features.feature) : bool :=
  nonempty (Features.name f)
  && free_of 42 (Features.name f)
  && match Features.description f with
     | [] => true
     | c :: _ => negb (isspace c)
     end.

(** The number of stars in a text. *)
Definition stars (s : str) : nat := List.length (filter (N.eqb 42) s).


(** What a run printed on the standard output. *)
Definition stdout (log : list Run.event) : list str :=
  flat_map (fun e => match e with
                     | Run.PrintOut m => [m]
                     | _ => []
                     end) log.

(** What every row of the coverage table satisfies: at most eighty
    characters of details, one of the three statuses, and a feature
    text without double star. *)
Definition row_ok (r : Portfolio.row) : bool :=
  (List.length (Portfolio.details r) <=? 80)%nat
  && existsb (str_eqb (Portfolio.status r)) [lit "complete"; lit "partial"; lit "pending"]
  && negb (contains (Portfolio.feature r) (lit "**")).

End MoreSpecs.

(** ** Sample documents *)

Module Samples.
Import Py.

Definition lines (ls : list str) : str := join [NL] ls.

Definition twice_A : str :=
  lines [ lit "## A"; lit "x"; lit "## A"; lit "y" ].

Definition interrupted_table : str :=
  lines [ lit "| API Feature Category | Status | Details |";
          lit "|---|---|---|";
          lit "| Streaming | yes | d |";
          lit "";
          lit "| Tools | yes | e |" ].

Definition second_header_table : str :=
  lines [ lit "| API Feature Category | Status | Details |";
          lit "| Streaming | yes | d |";
          lit "see | API Feature Category";
          lit "| Tools | yes | e |" ].

(** A metadata document that is complete but for the text of its
    Promotional Text section. *)
Definition empty_promotional_text : str :=
  lines [ lit "## Quick Reference";
          lit "- **Name** Foo";
          lit "- **Subtitle** Bar";
          lit "- **Primary Category** Utilities";
          lit "- **Secondary Category** Productivity";
          lit "## Promotional Text";
          lit "## Full Description";
          lit "A chat client.";
          lit "## Keywords";
          lit "chat";
          lit "## URLs";
          lit "- **Marketing URL** https://example.com";
          lit "- **Support URL** https://example.com/help";
          lit "- **Privacy Policy URL** https://example.com/privacy";
          lit "## What's New in 1.0";
          lit "First release." ].

Definition no_keywords_no_urls : str :=
  lines [ lit "## Quick Reference";
          lit "- **Name** Foo";
          lit "## Promotional Text";
          lit "## Full Description";
          lit "## What's New in 1.0" ].

Definition no_subtitle : str :=
  lines [ lit "## Quick Reference";
          lit "- **Name** Foo";
          lit "- **Secondary Category** Productivity";
          lit "## Promotional Text";
          lit "## Full Description";
          lit "## Keywords";
          lit "## URLs";
          lit "## What's New in 1.0" ].

Definition no_support_url : str :=
  lines [ lit "## Quick Reference";
          lit "- **Name** Foo";
          lit "- **Subtitle** Bar";
          lit "- **Primary Category** Utilities";
          lit "- **Secondary Category** Productivity";
          lit "## Promotional Text";
          lit "## Full Description";
          lit "## Keywords";
          lit "## URLs";
          lit "- **Marketing URL** https://example.com";
          lit "## What's New in 1.0" ].

Definition SOURCE_PATH : str := lit "docs/AppStoreMetadata.md".

Definition config_with_key : str :=
  lines [ lit "import os";
          lit "";
          lit "KEY = os.environ.get('K', 'sk-abcdefghijklmnopqrstuvwx12')";
          lit "print(KEY)" ].

Definition config_without_key : str :=
  lines [ lit "import os";
          lit "KEY = os.environ['K']" ].

(** A text with a curly quote, an em dash, an ellipsis, a no-break
    space, trailing blanks and empty lines around it. *)
Definition curly_text : str :=
  lines [ lit "";
          lit "  It" ++ [8217] ++ lit "s here " ++ [8212] ++ lit " now" ++ [8230] ++ lit "  ";
          [160] ++ lit "next" ++ [160];
          lit "" ].

End Samples.

(** ** Further sample documents *)

Module MoreSamples.
Import Py Samples.

Definition complete_document : str :=
  lines [ lit "# App Store metadata";
          lit "## Quick Reference";
          lit "- **Name** Foo";
          lit "- **Subtitle:** Bar";
          lit "- **Primary Category** Utilities";
          lit "- **Secondary Category** Productivity";
          lit "## Promotional Text (170 chars max)";
          lit "Chat with models.";
          lit "## Full Description";
          lit "### Overview";
          lit "A **chat** client.";
          lit "## Keywords";
          lit "chat, tools";
          lit "## URLs";
          lit "- **Marketing URL** <https://example.com>";
          lit "- **Support URL** [Help](https://example.com/help).";
          lit "- **Privacy Policy URL** https://example.com/privacy";
          lit "## What's New in 1.0";
          lit "First release." ].

Definition review_without_phone : str :=
  complete_document ++ [NL] ++
  lines [ lit "## Review Information";
          lit "- **Contact Name** Ann Lee";
          lit "- **Contact Email** ann@example.com" ].

Definition twice_A_then_B : str :=
  lines [ lit "## A"; lit "x"; lit "## A"; lit "y"; lit "## B"; lit "z" ].

Definition review_with_one_name : str :=
  complete_document ++ [NL] ++
  lines [ lit "## Review Information";
          lit "- **Contact Name** Ann";
          lit "- **Contact Email** ann@example.com";
          lit "- **Contact Phone** +1 555 010 0199" ].

Definition review_complete : str :=
  complete_document ++ [NL] ++
  lines [ lit "## Review Information";
          lit "- **Contact Name** Ann van Lee";
          lit "- **Contact Email** ann@example.com";
          lit "- **Contact Phone** +1 555 010 0199";
          lit "- **Demo Account** none needed" ].

Definition config_with_two_secrets : str :=
  lines [ lit "import os";
          lit "A = 'sk-abcdefghijklmnopqrstuvwx12'";
          lit "api_key = 'abcdefghijklmnopqrstuvwxyz'";
          lit "B = 'sk-ABCDEFGHIJKLMNOPQRSTUVWX34'" ].

Definition readme_features : str :=
  lines [ lit "- **Chat**: talk to models";
          lit "plain line";
          lit "- **Tools**" ].

Definition table_with_header : str :=
  lines [ lit "# Roadmap";
          lit "| API Feature Category | Status | Details |";
          lit "|---|---|---|";
          lit "| **Streaming** | yes | d |";
          lit "";
          lit "| Later | no | e |" ].

Definition table_without_header : str :=
  lines [ lit "| Feature | Status | Details |";
          lit "|---|---|---|";
          lit "| Streaming | yes | d |" ].

End MoreSamples.

(** * Properties *)

(** ** Facts about the string primitives *)

Module PyFacts.
Import Py Re Specs.

Lemma str_eqb_refl (a : str) : str_eqb a a = true.
Proof.
  induction a as [|x a IH]; simpl; [reflexivity|].
  now rewrite N.eqb_refl.
Qed.

Lemma str_eqb_eq (a b : str) : str_eqb a b = true <-> a = b.
Proof.
  split; [|intros ->; apply str_eqb_refl].
  revert b; induction a as [|x a IH]; intros [|y b]; simpl; try discriminate; auto.
  intros H; apply andb_true_iff in H as [Hx Hab].
  apply N.eqb_eq in Hx; subst; f_equal; auto.
Qed.

Lemma str_eqb_neq (a b : str) : str_eqb a b = false <-> a <> b.
Proof.
  split.
  - intros H E; apply str_eqb_eq in E; congruence.
  - intros H; destruct (str_eqb a b) eqn:E; [|reflexivity].
    apply str_eqb_eq in E; contradiction.
Qed.

Lemma nonempty_true {A : Type} (l : list A) : nonempty l = true <-> l <> [].
Proof. destruct l; simpl; split; congruence. Qed.

Lemma nonempty_false {A : Type} (l : list A) : nonempty l = false <-> l = [].
Proof. destruct l; simpl; split; congruence. Qed.

(** *** Stripping *)

Lemma lstrip_by_head (p : char -> bool) (c : char) (s : str) :
  p c = false -> lstrip_by p (c :: s) = c :: s.
Proof. intros H; simpl; now rewrite H. Qed.

Lemma rstrip_by_head (p : char -> bool) (c : char) (s : str) :
  p c = false -> exists t, rstrip_by p (c :: s) = c :: t.
Proof.
  intros H; simpl; destruct (rstrip_by p s); rewrite ?H; eauto.
Qed.

Lemma rstrip_by_cons (p : char -> bool) (c : char) (s : str) :
  rstrip_by p (c :: s) = [] \/ rstrip_by p (c :: s) = c :: rstrip_by p s.
Proof.
  simpl; destruct (rstrip_by p s) eqn:E; [|now right].
  destruct (p c); [now left|now right].
Qed.

Lemma rstrip_by_all (p : char -> bool) (s : str) :
  Forall (fun c => p c = true) s -> rstrip_by p s = [].
Proof.
  induction 1 as [|c s Hc _ IH]; simpl; [reflexivity|].
  now rewrite IH, Hc.
Qed.

Lemma rstrip_by_nil_inv (p : char -> bool) (s : str) :
  rstrip_by p s = [] -> Forall (fun c => p c = true) s.
Proof.
  induction s as [|c s IH]; simpl; [constructor|].
  destruct (rstrip_by p s) eqn:E; [|discriminate].
  destruct (p c) eqn:Hc; [|discriminate].
  intros _; constructor; auto.
Qed.

Lemma rstrip_by_app_keep (p : char -> bool) (s : str) (c : char) :
  p c = false -> rstrip_by p (s ++ [c]) = s ++ [c].
Proof.
  intros Hc; induction s as [|d s IH]; simpl.
  - now rewrite Hc.
  - rewrite IH. destruct (s ++ [c]) eqn:E; [|reflexivity].
    now destruct s.
Qed.

Lemma strip_by_clean (p : char -> bool) (s : str) :
  Forall (fun c => p c = false) s -> strip_by p s = s.
Proof.
  unfold strip_by; intros H.
  assert (Hl : lstrip_by p s = s) by (destruct H as [|c s Hc _]; simpl; [|rewrite Hc]; reflexivity).
  rewrite Hl; clear Hl.
  induction H as [|c s Hc Hs IH]; simpl; [reflexivity|].
  rewrite IH. destruct s; [now rewrite Hc|reflexivity].
Qed.

Lemma rstrip_by_app_all (p : char -> bool) (s t : str) :
  forallb p t = true -> rstrip_by p (s ++ t) = rstrip_by p s.
Proof.
  intros Ht; induction s as [|c s IH]; simpl.
  - apply rstrip_by_all, Forall_forall; intros c Hc.
    rewrite forallb_forall in Ht; auto.
  - now rewrite IH.
Qed.

Lemma rstrip_by_app_nonempty (p : char -> bool) (s t : str) :
  rstrip_by p t <> [] -> rstrip_by p (s ++ t) = s ++ rstrip_by p t.
Proof.
  intros Ht; induction s as [|c s IH]; simpl; [reflexivity|].
  rewrite IH. destruct (s ++ rstrip_by p t) eqn:E; [|reflexivity].
  apply app_eq_nil in E as [_ E]; contradiction.
Qed.

Lemma rstrip_by_exists (p : char -> bool) (s : str) :
  existsb (fun c => negb (p c)) s = true -> rstrip_by p s <> [].
Proof.
  intros H E; apply rstrip_by_nil_inv in E.
  apply existsb_exists in H as (c & Hin & Hc).
  rewrite Forall_forall in E; rewrite (E c Hin) in Hc; discriminate.
Qed.

Lemma rstrip_by_idem (p : char -> bool) (s : str) :
  rstrip_by p (rstrip_by p s) = rstrip_by p s.
Proof.
  induction s as [|c s IH]; simpl; [reflexivity|].
  destruct (rstrip_by p s) as [|d t] eqn:E.
  - destruct (p c) eqn:Hc; simpl; [reflexivity|now rewrite Hc].
  - change (rstrip_by p (c :: d :: t) = c :: d :: t).
    change (rstrip_by p (c :: d :: t))
      with (match rstrip_by p (d :: t) with [] => if p c then [] else [c] | u => c :: u end).
    now rewrite IH.
Qed.

Lemma lstrip_by_idem (p : char -> bool) (s : str) :
  lstrip_by p (lstrip_by p s) = lstrip_by p s.
Proof.
  induction s as [|c s IH]; simpl; [reflexivity|].
  destruct (p c) eqn:Hc; [exact IH|simpl; now rewrite Hc].
Qed.

Lemma lstrip_by_app (p : char -> bool) (s t : str) :
  existsb (fun c => negb (p c)) s = true ->
  lstrip_by p (s ++ t) = lstrip_by p s ++ t.
Proof.
  induction s as [|c s IH]; simpl; [discriminate|].
  destruct (p c); simpl; auto.
Qed.

Lemma lstrip_rstrip_comm (p : char -> bool) (s : str) :
  lstrip_by p (rstrip_by p s) = rstrip_by p (lstrip_by p s).
Proof.
  induction s as [|c s IH]; [reflexivity|].
  destruct (p c) eqn:Hc.
  - change (lstrip_by p (c :: s)) with (if p c then lstrip_by p s else c :: s).
    rewrite Hc, <- IH; simpl.
    destruct (rstrip_by p s); simpl; now rewrite Hc.
  - rewrite (lstrip_by_head p c s Hc).
    destruct (rstrip_by_head p c s Hc) as [t Ht]; rewrite Ht.
    now apply lstrip_by_head.
Qed.

Lemma strip_by_idem (p : char -> bool) (s : str) :
  strip_by p (strip_by p s) = strip_by p s.
Proof.
  unfold strip_by.
  now rewrite lstrip_rstrip_comm, lstrip_by_idem, rstrip_by_idem.
Qed.

Lemma lstrip_by_exists (p : char -> bool) (s : str) :
  existsb (fun c => negb (p c)) s = true ->
  existsb (fun c => negb (p c)) (lstrip_by p s) = true.
Proof.
  induction s as [|c s IH]; simpl; [discriminate|].
  destruct (p c) eqn:Hc; simpl; [exact IH|now rewrite Hc].
Qed.

(** *** Greedy runs *)

Lemma span_app (p : char -> bool) (a b : str) :
  forallb p a = true ->
  match b with [] => True | c :: _ => p c = false end ->
  span p (a ++ b) = (a, b).
Proof.
  intros Ha Hb; induction a as [|c a IH]; simpl in *.
  - destruct b as [|c b]; simpl; [reflexivity|now rewrite Hb].
  - apply andb_true_iff in Ha as [Hc Ha]; now rewrite Hc, IH.
Qed.

Lemma span_snd (p : char -> bool) (s : str) : snd (span p s) = lstrip_by p s.
Proof.
  induction s as [|c s IH]; simpl; [reflexivity|].
  destruct (p c); [|reflexivity].
  destruct (span p s); exact IH.
Qed.

Lemma span_all (p : char -> bool) (s : str) :
  forallb p s = true -> span p s = (s, []).
Proof.
  intros H; rewrite <- (app_nil_r s) at 1; now apply span_app.
Qed.

Lemma span_cons_true (p : char -> bool) (c : char) (s : str) :
  p c = true -> span p (c :: s) = (c :: fst (span p s), snd (span p s)).
Proof. intros H; simpl; rewrite H; now destruct (span p s). Qed.

(** *** Prefixes, occurrences, pieces *)

Lemma startswith_app (s t : str) : startswith (s ++ t) s = true.
Proof. induction s as [|c s IH]; simpl; [reflexivity|now rewrite N.eqb_refl]. Qed.

Lemma startswith_firstn (p : str) :
  forall (s : str) (n : nat),
  startswith s p = true -> (List.length p <= n)%nat ->
  startswith (firstn n s) p = true.
Proof.
  induction p as [|x p IH]; intros s n Hs Hn; [reflexivity|].
  destruct s as [|c s]; [discriminate Hs|].
  destruct n as [|n]; [cbn in Hn; lia|].
  cbn [startswith firstn] in *.
  apply andb_true_iff in Hs as [Hc Hs]. rewrite Hc.
  apply IH; [exact Hs|cbn in Hn; lia].
Qed.

Lemma skipn_app_exact {A : Type} (s t : list A) : skipn (List.length s) (s ++ t) = t.
Proof. induction s; simpl; auto. Qed.

Lemma contains_tail (c : char) (s sub : str) :
  contains (c :: s) sub = false -> contains s sub = false.
Proof. simpl; intros H; now apply orb_false_iff in H as [_ H]. Qed.

Lemma contains_head (s sub : str) :
  contains s sub = false -> startswith s sub = false.
Proof. destruct s; simpl; intros H; now apply orb_false_iff in H as [H _]. Qed.

Lemma contains_lstrip_by (p : char -> bool) (s sub : str) :
  contains s sub = false -> contains (lstrip_by p s) sub = false.
Proof.
  induction s as [|c s IH]; intros H; [exact H|].
  change (lstrip_by p (c :: s)) with (if p c then lstrip_by p s else c :: s).
  destruct (p c); [apply IH; eapply contains_tail; eauto|exact H].
Qed.

Lemma forallb_lstrip_by (p q : char -> bool) (s : str) :
  forallb q s = true -> forallb q (lstrip_by p s) = true.
Proof.
  induction s as [|c s IH]; intros H; [exact H|].
  change (lstrip_by p (c :: s)) with (if p c then lstrip_by p s else c :: s).
  destruct (p c); [|exact H].
  cbn [forallb] in H; apply andb_true_iff in H as [_ H]; auto.
Qed.

Lemma forallb_rstrip_by (p q : char -> bool) (s : str) :
  forallb q s = true -> forallb q (rstrip_by p s) = true.
Proof.
  induction s as [|c s IH]; intros H; [exact H|].
  cbn [forallb] in H; apply andb_true_iff in H as [Hc H].
  destruct (rstrip_by_cons p c s) as [E|E]; rewrite E; [reflexivity|].
  cbn [forallb]; rewrite Hc; auto.
Qed.

(** The text before the first occurrence of the separator of the
    heading annotation, a space and an opening parenthesis, is the first
    piece of [split]. *)
Lemma split_paren_first (a r : str) :
  contains a [32; 40] = false ->
  exists t, split [32; 40] (a ++ 32 :: 40 :: r) = a :: t.
Proof.
  unfold split; induction a as [|c a IH]; intros Ha.
  - eexists; reflexivity.
  - destruct (IH (contains_tail _ _ _ Ha)) as [t Ht].
    exists t. cbn [app split_go]. rewrite Ht.
    assert (Hs : startswith (c :: a ++ 32 :: 40 :: r) [32; 40] = false).
    { apply contains_head in Ha. cbn [startswith] in *.
      destruct (c =? 32); [|reflexivity].
      destruct a as [|d a]; [reflexivity|].
      cbn [app]. destruct (d =? 40); [discriminate Ha|reflexivity]. }
    now rewrite Hs.
Qed.

Lemma lstrip_by_blank (p : char -> bool) (s : str) :
  existsb (fun c => negb (p c)) s = false -> lstrip_by p s = [].
Proof.
  induction s as [|c s IH]; simpl; [reflexivity|].
  destruct (p c); simpl; [exact IH|discriminate].
Qed.

Lemma nonempty_strip (v : str) : nonempty (strip v) = has_visible v.
Proof.
  unfold has_visible, strip, strip_by.
  destruct (existsb (fun c => negb (isspace c)) v) eqn:E.
  - apply nonempty_true, rstrip_by_exists, lstrip_by_exists, E.
  - now rewrite (lstrip_by_blank _ _ E).
Qed.

(** *** Dictionaries *)

Lemma get_set_same {V : Type} (d : dict V) (k : str) (v : V) :
  get (set d k v) k = Some v.
Proof.
  induction d as [|[k' v'] d IH]; simpl.
  - now rewrite str_eqb_refl.
  - destruct (str_eqb k' k) eqn:E; simpl; now rewrite E.
Qed.

Lemma get_set_other {V : Type} (d : dict V) (k k' : str) (v : V) :
  str_eqb k k' = false -> get (set d k v) k' = get d k'.
Proof.
  intros Hk; induction d as [|[k0 v0] d IH]; simpl.
  - now rewrite Hk.
  - destruct (str_eqb k0 k) eqn:E; simpl.
    + apply str_eqb_eq in E; subst; now rewrite Hk.
    + now rewrite IH.
Qed.

Lemma get_app_l {V : Type} (d e : dict V) (k : str) (v : V) :
  get d k = Some v -> get (d ++ e) k = Some v.
Proof.
  induction d as [|[k0 v0] d IH]; simpl; [discriminate|].
  destruct (str_eqb k0 k); auto.
Qed.

Lemma get_app_r {V : Type} (d e : dict V) (k : str) :
  get d k = None -> get (d ++ e) k = get e k.
Proof.
  induction d as [|[k0 v0] d IH]; simpl; [reflexivity|].
  destruct (str_eqb k0 k); [discriminate|auto].
Qed.

Lemma get_setdefault {V : Type} (d : dict V) (k : str) (v : V) :
  get (setdefault d k v) k = Some (match get d k with Some old => old | None => v end).
Proof.
  unfold setdefault; destruct (get d k) as [old|] eqn:E; [exact E|].
  rewrite get_app_r by exact E; simpl; now rewrite str_eqb_refl.
Qed.

(** *** Splitting on whitespace *)

Lemma split_ws_words (s : str) : Forall word (split_ws s).
Proof.
  induction s as [|c r IH]; simpl; [constructor|].
  destruct (isspace c) eqn:Hc; [exact IH|].
  assert (Hone : word [c]) by (split; [discriminate|repeat constructor; exact Hc]).
  destruct r as [|d r']; [constructor; [exact Hone|constructor]|].
  destruct (isspace d) eqn:Hd; [constructor; auto|].
  destruct (split_ws (d :: r')) as [|w ws] eqn:E; [constructor; [exact Hone|constructor]|].
  inversion IH as [|? ? [Hw1 Hw2] Hws]; subst.
  constructor; [|exact Hws].
  split; [discriminate|constructor; auto].
Qed.

Lemma word_strip (w : str) : word w -> strip w = w.
Proof. intros [_ H]; now apply strip_by_clean. Qed.

Lemma filter_all {A : Type} (f : A -> bool) (l : list A) :
  Forall (fun x => f x = true) l -> filter f l = l.
Proof.
  induction 1 as [|x l Hx _ IH]; simpl; [reflexivity|].
  now rewrite Hx, IH.
Qed.

End PyFacts.

(** ** The metadata script *)

Module MetadataFacts.
Import Py Re Metadata MetadataMain Specs MoreSpecs Samples MoreSamples PyFacts.

(** The comprehension of [split_name] keeps every part: a part of
    [split] holds a character and no whitespace. *)
Lemma split_name_parts (full_name : str) :
  filter (fun part => nonempty (strip part)) (split_ws full_name)
  = split_ws full_name.
Proof.
  apply filter_all.
  eapply Forall_impl; [|apply split_ws_words].
  intros w Hw; rewrite (word_strip w Hw).
  apply nonempty_true, Hw.
Qed.

(** C10. [split_name] decomposes its argument along the parts that
    [split] finds in it: no part gives two empty names; one part gives
    that part and an empty last name; with two parts or more, the first
    name is the first part, and first and last name joined by one space
    are all the parts joined by single spaces. *)
Theorem split_name_decomposition (full_name : str) :
  match split_ws full_name with
  | [] => split_name full_name = ([], [])
  | [p] => split_name full_name = (p, [])
  | (p :: _ :: _) as parts =>
      fst (split_name full_name) = p
      /\ fst (split_name full_name) ++ lit " " ++ snd (split_name full_name)
         = join (lit " ") parts
  end.
Proof.
  unfold split_name; rewrite split_name_parts.
  destruct (split_ws full_name) as [|p [|q rest]]; [reflexivity|reflexivity|].
  split; reflexivity.
Qed.

(** *** The section splitter *)

Lemma parse_lines_app (pre post : list str) :
  parse_lines (pre ++ post)
  = fst (fold_left sections_step post (fold_left sections_step pre ([], None))).
Proof. unfold parse_lines; now rewrite fold_left_app. Qed.

Lemma sections_step_body (d : dict (list str)) (cur line : str) :
  is_heading line = false ->
  sections_step (d, Some cur) line = (append_line d cur line, Some cur).
Proof. unfold sections_step, is_heading; now intros ->. Qed.

Lemma sections_step_heading (st : dict (list str) * option str) (line : str) :
  is_heading line = true ->
  sections_step st line
  = (setdefault (fst st) (heading_of line) [], Some (heading_of line)).
Proof. unfold sections_step, is_heading; destruct st; now intros ->. Qed.

(** Under a heading, every line that is no heading goes to the end of
    the list of the current label. *)
Lemma body_appended (body : list str) :
  forall (d : dict (list str)) (cur : str) (old : list str),
  forallb (fun l => negb (is_heading l)) body = true ->
  get d cur = Some old ->
  get (fst (fold_left sections_step body (d, Some cur))) cur = Some (old ++ body).
Proof.
  induction body as [|l body IH]; intros d cur old Hb Hd.
  - now rewrite app_nil_r.
  - cbn [forallb] in Hb; apply andb_true_iff in Hb as [Hl Hb].
    apply negb_true_iff in Hl.
    cbn [fold_left]; rewrite (sections_step_body _ _ _ Hl).
    unfold append_line; rewrite Hd.
    rewrite (IH _ cur (old ++ [l]) Hb (get_set_same _ _ _)).
    now rewrite <- app_assoc.
Qed.

Lemma get_setdefault_other {V : Type} (d : dict V) (h k : str) (v : V) :
  str_eqb h k = false -> get (setdefault d h v) k = get d k.
Proof.
  intros E. unfold setdefault. destruct (get d h); [reflexivity|].
  destruct (get d k) as [x|] eqn:Ek.
  - now apply get_app_l.
  - rewrite get_app_r by exact Ek. cbn [get]. now rewrite E.
Qed.

(** What the loop of [parse_sections] gives a label, from any state in
    which the current label is a key. *)
Lemma fold_sections_get (label : str) (lines : list str) :
  forall (d : dict (list str)) (cur : option str),
  (forall c, cur = Some c -> get d c <> None) ->
  get (fst (fold_left sections_step lines (d, cur))) label
  = match get d label with
    | Some old => Some (old ++ lines_under label (current_is cur label) lines)
    | None =>
        if has_heading label lines then Some (lines_under label false lines) else None
    end.
Proof.
  induction lines as [|l lines IH]; intros d cur Hcur.
  - cbn [fold_left fst lines_under has_heading existsb].
    destruct (get d label); [now rewrite app_nil_r|reflexivity].
  - cbn [fold_left lines_under has_heading existsb].
    destruct (is_heading l) eqn:Eh.
    + rewrite sections_step_heading by exact Eh. cbn [fst andb].
      rewrite IH.
      2:{ intros c [= <-]. rewrite get_setdefault. discriminate. }
      cbn [current_is].
      destruct (str_eqb (heading_of l) label) eqn:E.
      * apply str_eqb_eq in E. rewrite <- E, get_setdefault.
        destruct (get d (heading_of l)); reflexivity.
      * rewrite (get_setdefault_other _ _ _ _ E). reflexivity.
    + cbn [andb]. destruct cur as [c|].
      * rewrite sections_step_body by exact Eh.
        unfold append_line.
        destruct (get d c) as [old_c|] eqn:Ec; [|now destruct (Hcur c eq_refl)].
        rewrite IH.
        2:{ intros c' [= <-]. rewrite get_set_same. discriminate. }
        cbn [current_is].
        destruct (str_eqb c label) eqn:E.
        -- apply str_eqb_eq in E. subst c.
           rewrite get_set_same, Ec. now rewrite <- app_assoc.
        -- rewrite (get_set_other _ _ _ _ E). reflexivity.
      * assert (Es : sections_step (d, None) l = (d, None)).
        { unfold sections_step. unfold is_heading in Eh. now rewrite Eh. }
        rewrite Es, IH by discriminate. reflexivity.
Qed.

Lemma below_app_heading (pre rest : list str) (h : str) :
  is_heading h = true -> below (pre ++ h :: rest) = below pre.
Proof.
  intros Hh. induction pre as [|l pre IH]; cbn [app below]; [now rewrite Hh|].
  destruct (is_heading l); [reflexivity|now rewrite IH].
Qed.

Lemma bodies_under_app (label : str) (pre rest : list str) (h : str) :
  is_heading h = true ->
  bodies_under label (pre ++ h :: rest)
  = bodies_under label pre ++ bodies_under label (h :: rest).
Proof.
  intros Hh. induction pre as [|l pre IH]; [reflexivity|].
  cbn [app bodies_under]. rewrite IH, (below_app_heading _ _ _ Hh).
  now destruct (is_heading l && str_eqb (heading_of l) label).
Qed.

Lemma bodies_under_none (label : str) (lines : list str) :
  has_heading label lines = false -> bodies_under label lines = [].
Proof.
  induction lines as [|l lines IH]; [reflexivity|].
  cbn [has_heading existsb bodies_under]. intros H.
  apply orb_false_iff in H as [Hl H]. rewrite Hl. now apply IH.
Qed.

(** The lines under the headings of a label, occurrence by occurrence. *)
Lemma lines_under_bodies (label : str) (lines : list str) :
  forall cur,
  lines_under label cur lines
  = (if cur then below lines else []) ++ List.concat (bodies_under label lines).
Proof.
  induction lines as [|l lines IH]; intros cur; [now destruct cur|].
  cbn [lines_under below bodies_under]. destruct (is_heading l) eqn:Eh.
  - rewrite IH. cbn [andb].
    destruct (str_eqb (heading_of l) label); destruct cur; reflexivity.
  - cbn [andb]. rewrite IH. destruct cur; reflexivity.
Qed.

Lemma section_bodies (label : str) (lines : list str) :
  get (parse_lines lines) label
  = if has_heading label lines
    then Some (List.concat (bodies_under label lines))
    else None.
Proof.
  unfold parse_lines. rewrite fold_sections_get by discriminate. cbn [get].
  now rewrite lines_under_bodies.
Qed.

(** C2, as the code has it.  Whatever the document and the label: when
    headings of the document have the label, the label maps to the
    lines below each of these headings, up to the next heading, one
    occurrence after the other in the order of the document, and a
    label that no heading has maps to nothing.  So at every heading
    line, wherever it stands, the lines below it come after the lines
    its label has from the part of the document above it, and before
    the lines of the occurrences that follow: nothing is replaced. *)
Theorem later_section_appends (text label : str) :
  get (parse_sections text) label
  = (if has_heading label (splitlines text)
     then Some (List.concat (bodies_under label (splitlines text)))
     else None)
  /\ (forall (pre rest : list str) (h : str),
        splitlines text = pre ++ h :: rest ->
        is_heading h = true ->
        heading_of h = label ->
        get (parse_sections text) label
        = Some (section (parse_lines pre) label
                ++ below rest ++ List.concat (bodies_under label rest))).
Proof.
  split; [apply section_bodies|].
  intros pre rest h Htext Hh Hl.
  unfold parse_sections. rewrite Htext, section_bodies.
  assert (Hhas : has_heading label (pre ++ h :: rest) = true).
  { unfold has_heading. rewrite existsb_app. cbn [existsb].
    rewrite Hh, Hl, str_eqb_refl. cbn [andb orb]. apply orb_true_r. }
  rewrite Hhas, bodies_under_app by exact Hh.
  cbn [bodies_under]. rewrite Hh, Hl, str_eqb_refl. cbn [andb].
  rewrite concat_app. cbn [List.concat]. f_equal. f_equal.
  unfold section. rewrite section_bodies.
  destruct (has_heading label pre) eqn:Ep; [reflexivity|].
  now rewrite bodies_under_none.
Qed.

Lemma later_section_appends_witness :
  get (parse_sections twice_A_then_B) (lit "A") = Some [lit "x"; lit "y"]
  /\ get (parse_sections twice_A_then_B) (lit "A")
     = Some (section (parse_lines [lit "## A"; lit "x"]) (lit "A")
             ++ below [lit "y"; lit "## B"; lit "z"]
             ++ List.concat (bodies_under (lit "A") [lit "y"; lit "## B"; lit "z"])).
Proof.
  split.
  - exact (proj1 (later_section_appends twice_A_then_B (lit "A"))).
  - apply (proj2 (later_section_appends twice_A_then_B (lit "A"))
             [lit "## A"; lit "x"] [lit "y"; lit "## B"; lit "z"] (lit "## A"));
      reflexivity.
Defined.

(** C2, as the specification has it, fails: with the label A on two
    headings, the first over the line x and the second over the line y,
    the label maps to both lines and not to the later one alone. *)
Lemma later_section_replaces_counterexample :
  get (parse_sections twice_A) (lit "A") <> Some [lit "y"]
  /\ get (parse_sections twice_A) (lit "A") = Some [lit "x"; lit "y"].
Proof. split; [discriminate|reflexivity]. Qed.

(** *** Heading labels *)

Lemma strip_before_paren (T rest : str) :
  has_visible T = true ->
  exists t, strip (T ++ 32 :: 40 :: rest) = lstrip T ++ 32 :: 40 :: t.
Proof.
  intros HT. unfold strip, strip_by, lstrip.
  rewrite (lstrip_by_app isspace T _ HT).
  destruct (rstrip_by_head isspace 40 rest eq_refl) as [t Ht].
  exists t. rewrite rstrip_by_app_nonempty.
  - f_equal. change (rstrip_by isspace (32 :: 40 :: rest))
      with (match rstrip_by isspace (40 :: rest) with
            | [] => if isspace 32 then [] else [32]
            | u => 32 :: u
            end).
    now rewrite Ht.
  - apply rstrip_by_exists. cbn [existsb]. now rewrite orb_true_r.
Qed.

(** C7, as the code has it.  A heading text [T] followed by a space and
    an opening parenthesis (the first such place of the line) gives the
    label [T] with its surrounding whitespace removed, whatever follows
    the parenthesis. *)
Theorem heading_annotation_dropped (T rest : str) :
  has_visible T = true ->
  contains T (lit " (") = false ->
  heading_of (lit "## " ++ T ++ lit " (" ++ rest) = strip T
  /\ parse_lines [lit "## " ++ T ++ lit " (" ++ rest] = [(strip T, [])].
Proof.
  intros HT Hp.
  assert (H : heading_of (lit "## " ++ T ++ lit " (" ++ rest) = strip T).
  { unfold heading_of.
    change (skipn 3 (lit "## " ++ T ++ lit " (" ++ rest)) with (T ++ 32 :: 40 :: rest).
    destruct (strip_before_paren T rest HT) as [t Ht]; rewrite Ht.
    change (lit " (") with [32; 40] in *.
    destruct (split_paren_first (lstrip T) t (contains_lstrip_by _ _ _ Hp)) as [u Hu].
    rewrite Hu. cbn [hd].
    unfold strip, strip_by, lstrip. now rewrite lstrip_by_idem. }
  split; [exact H|].
  unfold parse_lines. cbn [fold_left].
  rewrite sections_step_heading by reflexivity.
  now rewrite H.
Qed.

Lemma heading_annotation_dropped_witness :
  heading_of (lit "## Full Description (4000 chars max)") = lit "Full Description"
  /\ parse_lines [lit "## Full Description (4000 chars max)"]
     = [(lit "Full Description", [])].
Proof.
  apply (heading_annotation_dropped (lit "Full Description") (lit "4000 chars max)"));
    reflexivity.
Defined.

(** C7, as the specification has it, fails when no space stands before
    the parenthesis: the annotation stays in the label. *)
Lemma heading_annotation_counterexample :
  keys (parse_sections (lit "## Keywords(100 chars max)")) <> [lit "Keywords"]
  /\ keys (parse_sections (lit "## Keywords(100 chars max)"))
     = [lit "Keywords(100 chars max)"].
Proof. split; [discriminate|reflexivity]. Qed.

(** *** Labeled bullets *)

(** The bullet pattern on a text of its shape: a hyphen, whitespace,
    two stars, a label without star, two stars, and the rest. *)
Lemma bullet_match_shape (ws1 label rest : str) :
  forallb isspace ws1 = true ->
  free_of STAR label = true ->
  bullet_match (45 :: ws1 ++ 42 :: 42 :: label ++ 42 :: 42 :: rest)
  = if nonempty ws1 && nonempty label && nonempty (fst (span isspace rest)) then
      match dot_star_end (snd (span isspace rest)) with
      | Some value => Some (label, value)
      | None => None
      end
    else None.
Proof.
  intros Hws Hlabel. unfold bullet_match.
  rewrite N.eqb_refl.
  rewrite (span_app isspace ws1 (42 :: 42 :: label ++ 42 :: 42 :: rest) Hws eq_refl).
  destruct (nonempty ws1); [|reflexivity].
  change (startswith (42 :: 42 :: label ++ 42 :: 42 :: rest) [STAR; STAR]) with true.
  change (skipn 2 (42 :: 42 :: label ++ 42 :: 42 :: rest)) with (label ++ 42 :: 42 :: rest).
  rewrite (span_app (fun d => negb (d =? STAR)) label (42 :: 42 :: rest) Hlabel eq_refl).
  destruct (nonempty label); [|reflexivity].
  change (startswith (42 :: 42 :: rest) [STAR; STAR]) with true.
  change (skipn 2 (42 :: 42 :: rest)) with rest.
  cbn [andb]. destruct (span isspace rest) as [ws2 r5]. cbn [fst snd].
  destruct (nonempty ws2); reflexivity.
Qed.

Lemma strip_bare_bullet (label trail : str) :
  forallb isspace trail = true ->
  strip (lit "- **" ++ label ++ lit "**" ++ trail)
  = 45 :: [32] ++ 42 :: 42 :: label ++ 42 :: 42 :: [].
Proof.
  intros Ht. unfold strip, strip_by.
  change (lstrip_by isspace (lit "- **" ++ label ++ lit "**" ++ trail))
    with (lit "- **" ++ label ++ lit "**" ++ trail).
  rewrite !app_assoc, rstrip_by_app_all by exact Ht.
  change (lit "**") with ([42] ++ [42]).
  rewrite app_assoc, rstrip_by_app_keep by reflexivity.
  rewrite <- !app_assoc. reflexivity.
Qed.

Lemma bare_bullet_ignored (data : dict str) (label trail : str) :
  free_of STAR label = true ->
  forallb isspace trail = true ->
  bullets_step data (lit "- **" ++ label ++ lit "**" ++ trail) = data.
Proof.
  intros Hl Ht. unfold bullets_step.
  rewrite (strip_bare_bullet label trail Ht).
  rewrite (bullet_match_shape [32] label [] eq_refl Hl).
  cbn [span fst nonempty]. now rewrite andb_false_r.
Qed.

(** C4, as the code has it.  A line that ends after the closing stars of
    its label (whitespace apart) is no labeled bullet: the pattern asks
    for whitespace after the stars, and the line has been stripped.  The
    line adds no field, with an empty value or otherwise. *)
Theorem bare_label_adds_no_field (before after : list str) (label trail : str) :
  free_of STAR label = true ->
  forallb isspace trail = true ->
  parse_labeled_bullets (before ++ (lit "- **" ++ label ++ lit "**" ++ trail) :: after)
  = parse_labeled_bullets (before ++ after).
Proof.
  intros Hl Ht. unfold parse_labeled_bullets.
  rewrite !fold_left_app. cbn [fold_left].
  now rewrite (bare_bullet_ignored _ label trail Hl Ht).
Qed.

Lemma bare_label_adds_no_field_witness :
  parse_labeled_bullets [lit "- **Label**"] = [].
Proof.
  apply (bare_label_adds_no_field [] [] (lit "Label") []); reflexivity.
Defined.

(** C4, as the specification has it, fails: the label of such a line is
    absent from the mapping instead of mapped to the empty string. *)
Lemma bare_label_counterexample :
  get (parse_labeled_bullets [lit "- **Label**"]) (lit "Label") <> Some []
  /\ get (parse_labeled_bullets [lit "- **Label**"]) (lit "Label") = None.
Proof. split; [discriminate|reflexivity]. Qed.

Lemma strip_labeled_bullet (X Y : str) :
  has_visible Y = true ->
  strip (lit "- **" ++ X ++ lit "** " ++ Y)
  = 45 :: [32] ++ 42 :: 42 :: X ++ 42 :: 42 :: 32 :: rstrip Y.
Proof.
  intros HY. unfold strip, strip_by.
  change (lstrip_by isspace (lit "- **" ++ X ++ lit "** " ++ Y))
    with (lit "- **" ++ X ++ lit "** " ++ Y).
  rewrite !app_assoc, rstrip_by_app_nonempty by (apply rstrip_by_exists; exact HY).
  rewrite <- !app_assoc. reflexivity.
Qed.

Lemma strip_of_trimmed (Y : str) : strip (lstrip (rstrip Y)) = strip Y.
Proof.
  unfold strip, strip_by, lstrip, rstrip.
  now rewrite lstrip_by_idem, lstrip_rstrip_comm, rstrip_by_idem.
Qed.

Lemma labeled_bullet_step (data : dict str) (X Y : str) :
  nonempty X = true ->
  free_of STAR X = true ->
  has_visible Y = true ->
  free_of NL Y = true ->
  bullets_step data (lit "- **" ++ X ++ lit "** " ++ Y)
  = set data (rstrip_chars [COLON] (strip X)) (strip Y).
Proof.
  intros HX HXs HY HYn. unfold bullets_step.
  rewrite (strip_labeled_bullet X Y HY).
  rewrite (bullet_match_shape [32] X (32 :: rstrip Y) eq_refl HXs).
  rewrite (span_cons_true isspace 32 (rstrip Y) eq_refl). cbn [fst snd].
  rewrite HX, span_snd. cbn [nonempty andb].
  unfold dot_star_end.
  rewrite span_all.
  - fold (lstrip (rstrip Y)). now rewrite strip_of_trimmed.
  - apply forallb_lstrip_by, forallb_rstrip_by. exact HYn.
Qed.

Lemma other_bullets_keep (label : str) (after : list str) :
  forall data : dict str,
  forallb (fun l => negb (sets_label label l)) after = true ->
  get (fold_left bullets_step after data) label = get data label.
Proof.
  induction after as [|l after IH]; intros data H; [reflexivity|].
  cbn [forallb] in H. apply andb_true_iff in H as [Hl H].
  cbn [fold_left]. rewrite (IH _ H).
  unfold sets_label, bullet_label in Hl. unfold bullets_step.
  destruct (bullet_match (strip l)) as [[g1 g2]|]; [|reflexivity].
  apply negb_true_iff in Hl. now apply get_set_other.
Qed.

(** C8, as the code has it.  A line made of a hyphen, a space, a label
    [X] between double stars, a space and a value [Y] gives the field
    whose label is [X] without surrounding whitespace and then without
    trailing colons, and whose value is [Y] without surrounding
    whitespace; it replaces what earlier lines gave the label, and it
    stands as long as no later line gives the label again.  [X] has a
    character and no star; [Y] has a visible character and no line
    feed. *)
Theorem labeled_bullet_field (before after : list str) (X Y : str) :
  nonempty X = true ->
  free_of STAR X = true ->
  has_visible Y = true ->
  free_of NL Y = true ->
  forallb (fun l => negb (sets_label (rstrip_chars [COLON] (strip X)) l)) after = true ->
  get (parse_labeled_bullets (before ++ (lit "- **" ++ X ++ lit "** " ++ Y) :: after))
      (rstrip_chars [COLON] (strip X))
  = Some (strip Y).
Proof.
  intros HX HXs HY HYn Hafter. unfold parse_labeled_bullets.
  rewrite fold_left_app. cbn [fold_left].
  rewrite (other_bullets_keep _ _ _ Hafter).
  rewrite (labeled_bullet_step _ X Y HX HXs HY HYn).
  apply get_set_same.
Qed.

Lemma labeled_bullet_field_witness :
  get (parse_labeled_bullets
         [lit "- **Name** Old"; lit "- **Name:**   Foo Bar  "; lit "- **Subtitle** Baz"])
      (lit "Name")
  = Some (lit "Foo Bar").
Proof.
  apply (labeled_bullet_field [lit "- **Name** Old"] [lit "- **Subtitle** Baz"]
           (lit "Name:") (lit "  Foo Bar  "));
    reflexivity.
Defined.

(** C8, as the specification has it, fails for a label written with a
    colon inside the stars: the colon is taken off after the whitespace,
    so the field is filed neither under the label as written nor under
    its trimmed text, but under the text before the colon, with the
    whitespace that stands there. *)
Lemma labeled_bullet_counterexample :
  parse_labeled_bullets [lit "- **Name :** Foo"] = [(lit "Name ", lit "Foo")]
  /\ get (parse_labeled_bullets [lit "- **Name :** Foo"]) (lit "Name :")
     <> Some (lit "Foo")
  /\ get (parse_labeled_bullets [lit "- **Name :** Foo"]) (lit "Name")
     <> Some (lit "Foo").
Proof. split; [reflexivity|split; discriminate]. Qed.

End MetadataFacts.

(** ** The coverage table of the portfolio script *)

Module PortfolioFacts.
Import Py Re Portfolio Specs Samples PyFacts.

Lemma coverage_before_header (pre rest : list str) :
  forallb (fun l => negb (is_header l)) pre = true ->
  coverage_go false (pre ++ rest) = coverage_go false rest.
Proof.
  induction pre as [|l pre IH]; intros H; [reflexivity|].
  cbn [forallb] in H. apply andb_true_iff in H as [Hl H].
  apply negb_true_iff in Hl. unfold is_header in Hl.
  cbn [app coverage_go]. rewrite Hl. auto.
Qed.

Lemma coverage_block (block post : list str) (stop : str) :
  forallb (fun l => is_table_line l || is_header l) block = true ->
  is_table_line stop = false ->
  is_header stop = false ->
  coverage_go true (block ++ stop :: post) = flat_map block_rows block.
Proof.
  unfold is_table_line, is_header. intros Hb Hs Hh.
  induction block as [|l block IH].
  - cbn [app coverage_go flat_map]. now rewrite Hh, Hs.
  - cbn [forallb] in Hb. apply andb_true_iff in Hb as [Hl Hb].
    cbn [app coverage_go flat_map]. unfold block_rows at 1.
    destruct (contains l HEADER_MARKER) eqn:Em; [exact (IH Hb)|].
    rewrite orb_false_r in Hl. rewrite Hl. cbn [orb negb andb].
    destruct (contains l (lit "---")); cbn [negb]; rewrite (IH Hb); reflexivity.
Qed.

(** C6, as the code has it.  After the first header row, the lines that
    start with a bar, and the lines that hold the header marker again,
    make the table block; the loop ends at the first line that neither
    starts with a bar nor holds the header marker (an empty line is
    one), and no line after it gives a row. *)
Theorem table_ends_at_interruption
  (content : str) (pre block post : list str) (hdr stop : str) :
  split [NL] content = pre ++ hdr :: block ++ stop :: post ->
  forallb (fun l => negb (is_header l)) pre = true ->
  is_header hdr = true ->
  forallb (fun l => is_table_line l || is_header l) block = true ->
  is_table_line stop = false ->
  is_header stop = false ->
  extract_api_coverage content = flat_map block_rows block.
Proof.
  intros Hc Hpre Hh Hb Hs Hsh. unfold extract_api_coverage. rewrite Hc.
  rewrite (coverage_before_header _ _ Hpre).
  unfold is_header in Hh. cbn [coverage_go]. rewrite Hh.
  now apply coverage_block.
Qed.

Lemma table_ends_at_interruption_witness :
  extract_api_coverage interrupted_table
  = [ mk_row (lit "Streaming") (lit "pending") (lit "d") ].
Proof.
  apply (table_ends_at_interruption interrupted_table []
           [lit "|---|---|---|"; lit "| Streaming | yes | d |"]
           [lit "| Tools | yes | e |"]
           (lit "| API Feature Category | Status | Details |") []);
    reflexivity.
Defined.

(** C6, as the specification has it, fails for a line that does not
    start with a bar and holds the header marker: it is taken for a
    header row, the loop goes on, and the row after it is extracted. *)
Lemma table_interruption_counterexample :
  is_table_line (lit "see | API Feature Category") = false
  /\ extract_api_coverage second_header_table
     = [ mk_row (lit "Streaming") (lit "pending") (lit "d");
         mk_row (lit "Tools") (lit "pending") (lit "e") ].
Proof. split; reflexivity. Qed.

End PortfolioFacts.

(** ** Values with a visible character *)

Module FirstWordFacts.
Import Py Re Metadata Specs PyFacts.

Lemma search_some {A : Type} (m : str -> option A) (s : str) (a : A) :
  search m s = Some a -> exists pre suf, s = pre ++ suf /\ m suf = Some a.
Proof.
  induction s as [|c s IH]; cbn [search].
  - destruct (m []) eqn:E; [|discriminate]. intros [= <-]. now exists [], [].
  - destruct (m (c :: s)) eqn:E.
    + intros [= <-]. now exists [], (c :: s).
    + intros H. destruct (IH H) as (pre & suf & -> & Hm).
      now exists (c :: pre), suf.
Qed.

Lemma split_ws_visible (s : str) : has_visible s = true -> split_ws s <> [].
Proof.
  unfold has_visible. induction s as [|c r IH]; [discriminate|].
  cbn [existsb split_ws]. destruct (isspace c); [exact IH|]. intros _.
  destruct r as [|d r']; [discriminate|].
  destruct (isspace d); [discriminate|].
  destruct (split_ws (d :: r')); discriminate.
Qed.

Lemma split_ws_blank (s : str) : has_visible s = false -> split_ws s = [].
Proof.
  unfold has_visible. induction s as [|c r IH]; [reflexivity|].
  cbn [existsb split_ws]. intros H. apply orb_false_iff in H as [Hc H].
  apply negb_false_iff in Hc. rewrite Hc. now apply IH.
Qed.

(** The index of [value.split()[0]] is in range exactly when the value
    has a visible character, and the first word is not empty. *)
Lemma first_word_visible (s : str) :
  has_visible s = true -> exists w, first_word s = Some w /\ w <> [].
Proof.
  intros H. unfold first_word. pose proof (split_ws_words s) as W.
  destruct (split_ws s) as [|w ws] eqn:E; [now apply split_ws_visible in H|].
  inversion W as [|? ? [Hw _] _]; subst. exists w. now split.
Qed.

Lemma first_word_blank (s : str) : has_visible s = false -> first_word s = None.
Proof. intros H. unfold first_word. now rewrite split_ws_blank. Qed.

Lemma visible_strip (v : str) : has_visible v = true -> has_visible (strip v) = true.
Proof.
  intros H. rewrite <- nonempty_strip. unfold strip. rewrite strip_by_idem.
  fold (strip v). now rewrite nonempty_strip.
Qed.

Lemma extract_url_visible (value : str) :
  has_visible value = true -> exists u, extract_url value = Some u /\ u <> [].
Proof.
  intros H. unfold extract_url.
  destruct value as [|c0 v0]; [discriminate H|]. cbn [nonempty].
  destruct (search bracketed_at (c0 :: v0)) as [g1|] eqn:E1.
  { exists g1. split; [reflexivity|].
    destruct (search_some _ _ _ E1) as (pre & suf & _ & Hm).
    unfold bracketed_at in Hm. destruct suf as [|c r]; [discriminate|].
    destruct (c =? 60); [|discriminate].
    destruct (span (fun d => negb (d =? 62)) r) as [body rest].
    destruct body; [discriminate|]. destruct rest; [discriminate|].
    injection Hm as <-. discriminate. }
  destruct (search http_at (c0 :: v0)) as [g0|] eqn:E2.
  { eexists. split; [reflexivity|].
    destruct (search_some _ _ _ E2) as (pre & suf & _ & Hm).
    unfold http_at in Hm.
    destruct (startswith suf (lit "http")); [|discriminate].
    destruct (if startswith (skipn 4 suf) (lit "s")
              then (lit "s", skipn 1 (skipn 4 suf)) else ([], skipn 4 suf)) as [opt_s r'].
    destruct (startswith r' (lit "://")); [|discriminate].
    destruct (span (fun d => negb (isspace d)) (skipn 3 r')) as [body rest].
    destruct (nonempty body); [|discriminate].
    injection Hm as <-. unfold rstrip_chars. intros E.
    apply rstrip_by_nil_inv in E. rewrite Forall_forall in E.
    specialize (E 104 (or_introl eq_refl)). discriminate E. }
  now apply first_word_visible.
Qed.

Lemma extract_email_visible (value : str) :
  has_visible value = true -> exists e, extract_email value = Some e /\ e <> [].
Proof.
  intros H. unfold extract_email.
  destruct value as [|c0 v0]; [discriminate H|]. cbn [nonempty].
  destruct (search mailto_at (c0 :: v0)) as [g1|] eqn:E1.
  { exists g1. split; [reflexivity|].
    destruct (search_some _ _ _ E1) as (pre & suf & _ & Hm).
    unfold mailto_at in Hm. destruct (startswith suf (lit "mailto:")); [|discriminate].
    destruct (span _ (skipn 7 suf)) as [body rest].
    destruct body; [discriminate|]. injection Hm as <-. discriminate. }
  destruct (search email_at (c0 :: v0)) as [g0|] eqn:E2.
  { exists g0. split; [reflexivity|].
    destruct (search_some _ _ _ E2) as (pre & suf & _ & Hm).
    unfold email_at in Hm. destruct (span _ suf) as [loc r1].
    destruct loc as [|l0 loc]; [discriminate|].
    destruct r1 as [|a r2]; [discriminate|].
    destruct (a =? 64); [|discriminate].
    destruct (span _ r2) as [domain r3].
    destruct domain as [|d0 domain]; [discriminate|].
    destruct r3 as [|b [|x r4]]; try discriminate.
    destruct ((b =? 92) && negb (x =? NL)); [|discriminate].
    destruct (span _ r4) as [tld r5].
    destruct (2 <=? List.length tld)%nat; [|discriminate].
    injection Hm as <-. discriminate. }
  now apply first_word_visible.
Qed.

(** A value that [require] gives back has a visible character. *)
Lemma require_visible (mapping : dict str) (k v : str) :
  require mapping k = inr v -> has_visible v = true.
Proof.
  unfold require. destruct (get mapping k) as [v0|]; [|discriminate].
  destruct (nonempty (strip v0)) eqn:E; [|discriminate].
  intros [= <-]. apply visible_strip. now rewrite <- nonempty_strip.
Qed.

End FirstWordFacts.

(** ** [main] of the metadata script *)

Module MainFacts.
Import Py Re Metadata Run MetadataMain Specs Samples PyFacts FirstWordFacts.

Lemma require_field (mapping : dict str) (k : str) :
  require mapping k
  = if field_missing mapping k then inl k
    else inr (strip (match get mapping k with Some v => v | None => [] end)).
Proof.
  unfold require, field_missing.
  destruct (get mapping k) as [v|]; [|reflexivity].
  rewrite nonempty_strip. now destruct (has_visible v).
Qed.

Lemma quick_ref_first_missing (quick_ref : dict str) :
  match first_missing quick_ref QUICK_REFERENCE_FIELDS with
  | Some k => quick_ref_fields quick_ref = inl k
  | None => exists v, quick_ref_fields quick_ref = inr v
  end.
Proof.
  unfold first_missing, QUICK_REFERENCE_FIELDS, quick_ref_fields.
  cbn [find]. rewrite !require_field.
  repeat match goal with
         | |- context [field_missing ?m ?k] => destruct (field_missing m k); cbn [try_bind]
         end; eauto.
Qed.

(** [extract_url] on a field that [require] has checked: the index of
    its last line is in range. *)
Lemma required_url (urls : dict str) (k : str) :
  match require urls k with
  | inl key => True
  | inr v => exists u, extract_url v = Some u /\ u <> []
  end.
Proof.
  destruct (require urls k) as [key|v] eqn:E; [exact I|].
  apply extract_url_visible. exact (require_visible _ _ _ E).
Qed.

Lemma url_first_missing (urls : dict str) :
  match first_missing urls URL_FIELDS with
  | Some k => url_fields urls = inl (KeyError k)
  | None => exists v, url_fields urls = inr v
  end.
Proof.
  pose proof (required_url urls (lit "Marketing URL")) as H1.
  pose proof (required_url urls (lit "Support URL")) as H2.
  pose proof (required_url urls (lit "Privacy Policy URL")) as H3.
  revert H1 H2 H3.
  unfold first_missing, URL_FIELDS, url_fields.
  cbn [find]. rewrite !require_field.
  destruct (field_missing urls (lit "Marketing URL")); [reflexivity|].
  cbn [key_error index_error try_bind].
  intros (u1 & -> & _). cbn [key_error index_error try_bind].
  destruct (field_missing urls (lit "Support URL")); [reflexivity|].
  cbn [key_error index_error try_bind].
  intros (u2 & -> & _). cbn [key_error index_error try_bind].
  destruct (field_missing urls (lit "Privacy Policy URL")); [reflexivity|].
  cbn [key_error index_error try_bind].
  intros (u3 & -> & _). cbn [key_error index_error try_bind]. eauto.
Qed.

Ltac one_message :=
  split; [reflexivity|split; [reflexivity|eexists; reflexivity]].

Section WithRuntime.

Variable lower : str -> str.
Variable SOURCE : str.

Lemma main_missing_sections (text : str) :
  missing_sections (parse_sections text) <> [] ->
  main lower SOURCE (Some text)
  = ([PrintErr (lit "Missing sections: "
                ++ join (lit ", ") (missing_sections (parse_sections text)))],
     Return 1%Z).
Proof.
  intros H. unfold main.
  destruct (missing_sections (parse_sections text)); [contradiction|reflexivity].
Qed.

Lemma main_missing_release (text : str) :
  missing_sections (parse_sections text) = [] ->
  release_key (parse_sections text) = None ->
  main lower SOURCE (Some text)
  = ([PrintErr (lit "Missing release notes section (expected 'What's New in X.Y.Z')")],
     Return 1%Z).
Proof. intros H1 H2. unfold main. now rewrite H1, H2. Qed.

Lemma main_missing_quick_ref (text k : str) :
  missing_sections (parse_sections text) = [] ->
  release_key (parse_sections text) <> None ->
  first_missing (quick_ref_of text) QUICK_REFERENCE_FIELDS = Some k ->
  main lower SOURCE (Some text) = ([PrintErr (lit "Missing Quick Reference field: " ++ k)], Return 1%Z).
Proof.
  intros H1 H2 H3. unfold main. rewrite H1.
  destruct (release_key (parse_sections text)); [|contradiction].
  pose proof (quick_ref_first_missing (quick_ref_of text)) as Hq.
  rewrite H3 in Hq. unfold quick_ref_of in Hq. now rewrite Hq.
Qed.

Lemma main_missing_url (text k : str) :
  missing_sections (parse_sections text) = [] ->
  release_key (parse_sections text) <> None ->
  first_missing (quick_ref_of text) QUICK_REFERENCE_FIELDS = None ->
  first_missing (urls_of text) URL_FIELDS = Some k ->
  main lower SOURCE (Some text) = ([PrintErr (lit "Missing URL field: " ++ k)], Return 1%Z).
Proof.
  intros H1 H2 H3 H4. unfold main. rewrite H1.
  destruct (release_key (parse_sections text)); [|contradiction].
  pose proof (quick_ref_first_missing (quick_ref_of text)) as Hq.
  rewrite H3 in Hq. destruct Hq as [[[[n s] p] c] Hq].
  unfold quick_ref_of in Hq. rewrite Hq.
  pose proof (url_first_missing (urls_of text)) as Hu.
  rewrite H4 in Hu. unfold urls_of in Hu. now rewrite Hu.
Qed.

(** C5.  When required sections are missing, the run ends with exit
    code 1 after one message that names all of them, in the order of
    the list of required sections.  When the sections and the release
    notes are there and a required field is missing (absent or blank),
    the run ends with exit code 1 after one message that names the
    first missing field, in the order Quick Reference fields, then URL
    fields. *)
Theorem validation_messages (text : str) :
  (missing_sections (parse_sections text) <> [] ->
   main lower SOURCE (Some text)
   = ([PrintErr (lit "Missing sections: "
                 ++ join (lit ", ") (missing_sections (parse_sections text)))],
      Return 1%Z))
  /\ (forall s, In s (missing_sections (parse_sections text))
                <-> In s required_sections /\ mem (parse_sections text) s = false)
  /\ (forall k,
        missing_sections (parse_sections text) = [] ->
        release_key (parse_sections text) <> None ->
        first_missing (quick_ref_of text) QUICK_REFERENCE_FIELDS = Some k ->
        main lower SOURCE (Some text) = ([PrintErr (lit "Missing Quick Reference field: " ++ k)], Return 1%Z))
  /\ (forall k,
        missing_sections (parse_sections text) = [] ->
        release_key (parse_sections text) <> None ->
        first_missing (quick_ref_of text) QUICK_REFERENCE_FIELDS = None ->
        first_missing (urls_of text) URL_FIELDS = Some k ->
        main lower SOURCE (Some text) = ([PrintErr (lit "Missing URL field: " ++ k)], Return 1%Z)).
Proof.
  split; [apply main_missing_sections|].
  split.
  - intros s. unfold missing_sections. rewrite filter_In, negb_true_iff. reflexivity.
  - split; intros k; [apply main_missing_quick_ref|apply main_missing_url].
Qed.

Lemma structure_invalid_run (text : str) :
  structure_valid text = false ->
  exit_code (main lower SOURCE (Some text)) = 1%Z
  /\ written (fst (main lower SOURCE (Some text))) = []
  /\ exists msg, fst (main lower SOURCE (Some text)) = [PrintErr msg].
Proof.
  unfold structure_valid. intros H.
  destruct (missing_sections (parse_sections text)) as [|m ms] eqn:H1.
  2:{ rewrite main_missing_sections by (rewrite H1; discriminate).
      one_message. }
  destruct (release_key (parse_sections text)) as [r|] eqn:H2.
  2:{ rewrite main_missing_release by assumption. one_message. }
  assert (H2' : release_key (parse_sections text) <> None) by (rewrite H2; discriminate).
  destruct (first_missing (quick_ref_of text) QUICK_REFERENCE_FIELDS) as [k|] eqn:H3.
  { rewrite (main_missing_quick_ref text k) by assumption. one_message. }
  destruct (first_missing (urls_of text) URL_FIELDS) as [k|] eqn:H4.
  { rewrite (main_missing_url text k) by assumption. one_message. }
  discriminate H.
Qed.

(** C1, as the code has it.  A run that fails one of the checks on the
    structure of the document (required sections, release notes,
    required fields) ends with exit code 1, one message, and no file
    written or directory made.  The content of a file is checked in the
    writing loop: the loop writes the files that come before the first
    empty content, and ends the run with exit code 1 when there is
    one. *)
Theorem no_output_unless_structure_valid (text : str) :
  (structure_valid text = false ->
   exit_code (main lower SOURCE (Some text)) = 1%Z
   /\ written (fst (main lower SOURCE (Some text))) = []
   /\ exists msg, fst (main lower SOURCE (Some text)) = [PrintErr msg])
  /\ (forall d complaint files,
        written (fst (write_files d complaint files))
        = map (fun fc => (d, fst fc, strip (snd fc) ++ [NL])) (nonempty_prefix files)
        /\ snd (write_files d complaint files)
           = if forallb (fun fc => nonempty (snd fc)) files
             then Continue tt else Return 1%Z).
Proof.
  split; [apply structure_invalid_run|].
  intros d complaint files. induction files as [|[f c] files [IHw IHo]].
  - split; reflexivity.
  - cbn [write_files nonempty_prefix forallb snd fst].
    destruct (nonempty c); [|split; reflexivity].
    destruct (write_files d complaint files) as [log o].
    cbn [bind emit fst snd app written flat_map map andb] in *.
    split; [now rewrite <- IHw|exact IHo].
Qed.

End WithRuntime.

Lemma validation_messages_witness :
  main ascii_lower SOURCE_PATH (Some no_keywords_no_urls)
  = ([PrintErr (lit "Missing sections: Keywords, URLs")], Return 1%Z)
  /\ main ascii_lower SOURCE_PATH (Some no_subtitle)
     = ([PrintErr (lit "Missing Quick Reference field: Subtitle")], Return 1%Z)
  /\ main ascii_lower SOURCE_PATH (Some no_support_url)
     = ([PrintErr (lit "Missing URL field: Support URL")], Return 1%Z).
Proof.
  split; [|split].
  - apply (proj1 (validation_messages ascii_lower SOURCE_PATH no_keywords_no_urls)).
    discriminate.
  - apply (proj1 (proj2 (proj2
             (validation_messages ascii_lower SOURCE_PATH no_subtitle))) (lit "Subtitle"));
      [reflexivity|discriminate|reflexivity].
  - apply (proj2 (proj2 (proj2
             (validation_messages ascii_lower SOURCE_PATH no_support_url)))
             (lit "Support URL"));
      [reflexivity|discriminate|reflexivity|reflexivity].
Defined.

Lemma no_output_unless_structure_valid_witness :
  exit_code (main ascii_lower SOURCE_PATH (Some no_subtitle)) = 1%Z
  /\ written (fst (main ascii_lower SOURCE_PATH (Some no_subtitle))) = []
  /\ exists msg, fst (main ascii_lower SOURCE_PATH (Some no_subtitle)) = [PrintErr msg].
Proof.
  apply (proj1 (no_output_unless_structure_valid ascii_lower SOURCE_PATH no_subtitle)).
  reflexivity.
Defined.

(** C1, as the specification has it, fails: the content of each file is
    checked in the writing loop.  With an empty Promotional Text section
    the run ends with exit code 1 after it has written two files. *)
Lemma partial_output_counterexample :
  exit_code (main ascii_lower SOURCE_PATH (Some empty_promotional_text)) = 1%Z
  /\ written (fst (main ascii_lower SOURCE_PATH (Some empty_promotional_text)))
     = [ (OUTPUT_DIR, lit "name.txt", lit "Foo" ++ [NL]);
         (OUTPUT_DIR, lit "subtitle.txt", lit "Bar" ++ [NL]) ]
  /\ stderr (fst (main ascii_lower SOURCE_PATH (Some empty_promotional_text)))
     = [ lit "Missing content for promotional_text.txt" ].
Proof. repeat split. Qed.

End MainFacts.

(** ** The secret scanner *)

Module SecretScanFacts.
Import Py Re Run SecretScan Specs Samples PyFacts.

(** *** Scanning with a pattern that matches at one offset only *)

Lemma finditer_go_none (m : str -> option nat) (s : str) :
  forall pos k,
  (forall j, m (skipn j s) = None) ->
  finditer_go m pos k s = [].
Proof.
  induction s as [|c r IH]; intros pos k H; [reflexivity|].
  assert (Hr : forall j, m (skipn j r) = None) by (intros j; exact (H (S j))).
  cbn [finditer_go]. destruct k as [|k]; [|now apply IH].
  pose proof (H 0%nat) as H0. cbn [skipn] in H0. rewrite H0. now apply IH.
Qed.

Lemma finditer_go_prefix (m : str -> option nat) (a b : str) :
  forall pos,
  (forall j, (j < List.length a)%nat -> m (skipn j (a ++ b)) = None) ->
  finditer_go m pos 0 (a ++ b) = finditer_go m (pos + List.length a) 0 b.
Proof.
  induction a as [|c a IH]; intros pos H.
  - cbn [app List.length]. now rewrite Nat.add_0_r.
  - cbn [app finditer_go List.length].
    pose proof (H 0%nat ltac:(cbn; lia)) as H0. cbn [skipn app] in H0. rewrite H0.
    rewrite IH; [f_equal; lia|].
    intros j Hj. apply (H (S j)). cbn; lia.
Qed.

Lemma finditer_single (m : str -> option nat) (s : str) (i len : nat) :
  (i < List.length s)%nat ->
  m (skipn i s) = Some len ->
  (forall j, j <> i -> m (skipn j s) = None) ->
  finditer m s = [(i, firstn len (skipn i s))].
Proof.
  intros Hi Hm Hother. unfold finditer.
  rewrite <- (firstn_skipn i s) at 1.
  rewrite finditer_go_prefix.
  - rewrite firstn_length_le by lia. cbn [Nat.add].
    destruct (skipn i s) as [|c r] eqn:E.
    { apply (f_equal (@List.length _)) in E. rewrite length_skipn in E. cbn in E. lia. }
    cbn [finditer_go]. rewrite Hm. f_equal.
    apply finditer_go_none. intros j.
    assert (Hr : r = skipn (S i) s).
    { change (S i) with (1 + i)%nat. rewrite <- skipn_skipn, E. reflexivity. }
    rewrite Hr, skipn_skipn. apply Hother. lia.
  - intros j Hj. rewrite firstn_skipn. apply Hother.
    rewrite firstn_length_le in Hj by lia. lia.
Qed.

(** *** The key pattern *)

Lemma span_length_ge (p : char -> bool) (n : nat) :
  forall s,
  (n <=? List.length (fst (span p s)))%nat
  = forallb p (firstn n s) && (List.length (firstn n s) =? n)%nat.
Proof.
  induction n as [|n IH]; intros s; [reflexivity|].
  destruct s as [|c r]; [reflexivity|].
  cbn [span firstn forallb]. destruct (p c) eqn:Hc.
  - destruct (span p r) as [a b] eqn:E. cbn [fst List.length andb].
    specialize (IH r). rewrite E in IH. exact IH.
  - reflexivity.
Qed.

Lemma openai_at_key (contents : str) (i : nat) :
  openai_at (skipn i contents)
  = if key_at contents i
    then Some (3 + List.length (fst (span is_alnum (skipn 3 (skipn i contents)))))%nat
    else None.
Proof.
  unfold openai_at, key_at. cbv zeta.
  destruct (startswith (skipn i contents) (lit "sk-")); [|reflexivity].
  rewrite <- andb_assoc, <- span_length_ge. cbn [andb].
  now destruct (span is_alnum (skipn 3 (skipn i contents))).
Qed.

Lemma key_at_beyond (contents : str) (j : nat) :
  (List.length contents <= j)%nat -> key_at contents j = false.
Proof.
  intros H. unfold key_at. now rewrite skipn_all2 by exact H.
Qed.

Lemma single_occurrence (contents : str) (i : nat) :
  occurrences contents = [i] ->
  (i < List.length contents)%nat
  /\ key_at contents i = true
  /\ forall j, j <> i -> key_at contents j = false.
Proof.
  unfold occurrences. intros H.
  assert (Hi : In i (filter (key_at contents) (seq 0 (List.length contents))))
    by (rewrite H; now left).
  apply filter_In in Hi as [Hi Hk]. apply in_seq in Hi.
  split; [lia|]. split; [exact Hk|].
  intros j Hj. destruct (Nat.lt_ge_cases j (List.length contents)) as [Hlt|Hge].
  - destruct (key_at contents j) eqn:Ej; [|reflexivity].
    assert (Hin : In j (filter (key_at contents) (seq 0 (List.length contents)))).
    { apply filter_In. split; [apply in_seq; lia|exact Ej]. }
    rewrite H in Hin. destruct Hin as [Hin|[]]. congruence.
  - now apply key_at_beyond.
Qed.

Lemma key_matches (contents : str) (i : nat) :
  occurrences contents = [i] ->
  exists snippet,
    finditer openai_at contents = [(i, snippet)]
    /\ startswith snippet (lit "sk-") = true.
Proof.
  intros H. destruct (single_occurrence contents i H) as (Hi & Hk & Hother).
  eexists. split.
  - apply finditer_single; [exact Hi| |].
    + rewrite openai_at_key, Hk. reflexivity.
    + intros j Hj. rewrite openai_at_key, (Hother j Hj). reflexivity.
  - unfold key_at in Hk. cbv zeta in Hk.
    apply andb_true_iff in Hk as [Hk _]. apply andb_true_iff in Hk as [Hk _].
    apply startswith_firstn; [exact Hk|cbn; lia].
Qed.

(** *** Line numbers *)

Lemma split_char_length (c : char) (s : str) :
  List.length (split [c] s) = S (List.length (filter (N.eqb c) s)).
Proof.
  unfold split. induction s as [|x r IH]; [reflexivity|].
  cbn [split_go startswith filter List.length Nat.sub].
  rewrite andb_true_r, (N.eqb_sym c x).
  destruct (x =? c); cbn [List.length]; [now rewrite IH|].
  destruct (split_go [c] 0 r); [discriminate IH|exact IH].
Qed.

Lemma line_number_line_of (contents : str) (i : nat) :
  line_number contents i = line_of contents i.
Proof. unfold line_number, line_of. now rewrite split_char_length. Qed.

(** *** Findings *)

Lemma filter_labeled_map (label l : str) (text : str) (ms : list (nat * str)) :
  filter (labeled label) (map (fun m => (line_number text (fst m), l, snd m)) ms)
  = if str_eqb l label
    then map (fun m => (line_number text (fst m), l, snd m)) ms
    else [].
Proof.
  induction ms as [|m ms IH]; [now destruct (str_eqb l label)|].
  cbn [map filter]. unfold labeled at 1. cbn [fst snd]. rewrite IH.
  now destruct (str_eqb l label).
Qed.

Lemma key_findings (contents : str) :
  filter (labeled (lit "openai_key")) (scan_file (Some contents))
  = map (fun m => (line_number contents (fst m), lit "openai_key", snd m))
        (finditer openai_at contents).
Proof.
  unfold scan_file, SUSPICIOUS_PATTERNS. cbn [flat_map fst snd].
  rewrite app_nil_r, filter_app, !filter_labeled_map.
  change (str_eqb (lit "openai_key") (lit "openai_key")) with true.
  change (str_eqb (lit "generic_token") (lit "openai_key")) with false.
  apply app_nil_r.
Qed.

(** *** The run *)

Lemma report_all (findings : list (str * (nat * str * str))) :
  exists log,
    fold_right report (ret tt) findings = (log, Continue tt)
    /\ forall relative line_no label snippet,
         In (relative, (line_no, label, snippet)) findings ->
         In (PrintOut (diagnostic relative line_no label snippet)) log.
Proof.
  induction findings as [|[relative [[line_no label] snippet]] fs (log & Hlog & Hin)].
  - exists []. split; [reflexivity|intros ? ? ? ? []].
  - exists (PrintOut (diagnostic relative line_no label snippet) :: log).
    split.
    + cbn [fold_right report]. rewrite Hlog. reflexivity.
    + intros r n l sn [E|H]; [injection E as <- <- <- <-; now left|right; auto].
Qed.

Lemma main_with_findings (candidates : list (str * option str)) :
  findings_of candidates <> [] ->
  exit_code (main candidates) = 1%Z
  /\ forall relative line_no label snippet,
       In (relative, (line_no, label, snippet)) (findings_of candidates) ->
       In (PrintOut (diagnostic relative line_no label snippet)) (fst (main candidates)).
Proof.
  intros H. unfold main. cbv zeta.
  destruct (findings_of candidates) as [|f fs] eqn:E; [contradiction|].
  destruct (report_all (f :: fs)) as (log & Hlog & Hin).
  rewrite Hlog. split; [reflexivity|].
  intros r n l sn Hf. cbn [bind emit exit fst app].
  right. apply in_or_app. left. now apply Hin.
Qed.

Lemma main_without_findings (candidates : list (str * option str)) :
  findings_of candidates = [] ->
  main candidates
  = ([PrintOut ([9989] ++ lit " Secret scan passed: no suspicious tokens detected.")],
     Return 0%Z).
Proof. intros H. unfold main. now rewrite H. Qed.

Lemma clean_candidates (candidates : list (str * option str)) :
  forallb clean candidates = true -> findings_of candidates = [].
Proof.
  unfold findings_of. induction candidates as [|file cs IH]; [reflexivity|].
  cbn [forallb flat_map]. intros H. apply andb_true_iff in H as [Hc H].
  unfold clean in Hc. apply negb_true_iff, nonempty_false in Hc.
  rewrite Hc, (IH H). reflexivity.
Qed.

(** C9.  A scanned file in which a key (the letters sk, a hyphen and
    twenty-four or more alphanumeric characters) stands at one offset
    and no other has exactly one finding with the label openai_key; its
    line number is that of the line holding the offset, counting from
    1; the finding is printed, as a line made of a hyphen, the label
    openai_key, the path of the file, the line number in decimal, an
    arrow and the matched text, and the exit status is 1.  When no
    scanned file has a finding, the exit status is 0. *)
Theorem scan_verdict (candidates : list (str * option str)) :
  (forall path contents i,
     In (path, Some contents) candidates ->
     occurrences contents = [i] ->
     exists snippet,
       filter (labeled (lit "openai_key")) (scan_file (Some contents))
       = [(line_of contents i, lit "openai_key", snippet)]
       /\ startswith snippet (lit "sk-") = true
       /\ In (PrintOut
               (lit "- openai_key: " ++ path ++ lit ":"
                ++ lit (NilZero.string_of_uint (Nat.to_uint (line_of contents i)))
                ++ [32; 8594; 32] ++ snippet))
             (fst (main candidates))
       /\ exit_code (main candidates) = 1%Z)
  /\ (forallb clean candidates = true ->
      exit_code (main candidates) = 0%Z
      /\ fst (main candidates)
         = [PrintOut ([9989] ++ lit " Secret scan passed: no suspicious tokens detected.")]).
Proof.
  split.
  - intros path contents i Hin Hocc.
    destruct (key_matches contents i Hocc) as (snippet & Hm & Hs).
    pose proof (key_findings contents) as Hk. rewrite Hm in Hk.
    cbn [map fst snd] in Hk. rewrite line_number_line_of in Hk.
    assert (Hf : In (path, (line_of contents i, lit "openai_key", snippet))
                    (findings_of candidates)).
    { unfold findings_of. apply in_flat_map. exists (path, Some contents).
      split; [exact Hin|]. cbn [fst snd]. apply in_map.
      assert (Hx : In (line_of contents i, lit "openai_key", snippet)
                      (filter (labeled (lit "openai_key")) (scan_file (Some contents))))
        by (rewrite Hk; now left).
      now apply filter_In in Hx as [Hx _]. }
    destruct (main_with_findings candidates) as [Hexit Hprint].
    { intros E. rewrite E in Hf. exact Hf. }
    exists snippet. split; [exact Hk|]. split; [exact Hs|].
    split; [exact (Hprint _ _ _ _ Hf)|exact Hexit].
  - intros H. rewrite (main_without_findings _ (clean_candidates _ H)).
    split; reflexivity.
Qed.

Lemma scan_verdict_witness :
  (exists snippet,
     filter (labeled (lit "openai_key")) (scan_file (Some config_with_key))
     = [(3%nat, lit "openai_key", snippet)]
     /\ startswith snippet (lit "sk-") = true
     /\ In (PrintOut (lit "- openai_key: app/config.py:3" ++ [32; 8594; 32] ++ snippet))
           (fst (main [(lit "app/setup.py", Some config_without_key);
                       (lit "app/config.py", Some config_with_key)]))
     /\ exit_code (main [(lit "app/setup.py", Some config_without_key);
                         (lit "app/config.py", Some config_with_key)]) = 1%Z)
  /\ exit_code (main [(lit "app/setup.py", Some config_without_key);
                      (lit "app/blob.json", None)]) = 0%Z.
Proof.
  split.
  - apply (proj1 (scan_verdict [(lit "app/setup.py", Some config_without_key);
                                (lit "app/config.py", Some config_with_key)])
             (lit "app/config.py") config_with_key 38%nat);
      [right; left; reflexivity|vm_compute; reflexivity].
  - apply (proj2 (scan_verdict [(lit "app/setup.py", Some config_without_key);
                                (lit "app/blob.json", None)])).
    vm_compute. reflexivity.
Defined.

End SecretScanFacts.

(** ** The normalizers *)

Module NormalizeFacts.
Import Py Re Metadata Specs Samples PyFacts.

(** *** [asciiize], character by character *)

Lemma replace_char (x : char) (dst t : str) :
  replace [x] dst t = flat_map (fun c => if c =? x then dst else [c]) t.
Proof.
  unfold replace. induction t as [|c r IH]; [reflexivity|].
  cbn [replace_go startswith List.length Nat.sub flat_map].
  rewrite andb_true_r. destruct (c =? x); now rewrite IH.
Qed.

Lemma asciiize_app (a b : str) : asciiize (a ++ b) = asciiize a ++ asciiize b.
Proof.
  unfold asciiize, ASCII_MAP. cbn [fold_left fst snd].
  now rewrite !replace_char, !flat_map_app.
Qed.

Lemma asciiize_char (c : char) : asciiize [c] = ascii_subst c.
Proof.
  unfold asciiize, ASCII_MAP, ascii_subst. cbn [fold_left fst snd].
  rewrite !replace_char.
  repeat (cbn [flat_map app];
          match goal with
          | |- context [if c =? ?k then _ else _] =>
              let E := fresh "E" in
              destruct (c =? k) eqn:E;
              [apply N.eqb_eq in E; subst c; reflexivity|]
          end).
  reflexivity.
Qed.

Lemma asciiize_flat_map (t : str) : asciiize t = flat_map ascii_subst t.
Proof.
  induction t as [|c t IH]; [reflexivity|].
  change (c :: t) with ([c] ++ t).
  now rewrite asciiize_app, asciiize_char, IH.
Qed.

Lemma ascii_subst_cases (c : char) :
  (is_target c = false /\ ascii_subst c = [c])
  \/ (is_target c = true
      /\ In (ascii_subst c) [[45; 45]; [45]; [39]; [34]; [46; 46; 46]; [32]]).
Proof.
  unfold is_target, ascii_subst.
  repeat match goal with
         | |- context [c =? ?k] => destruct (c =? k)
         end; cbn; auto 10.
Qed.

(** A property of characters that the replacement texts have is kept by
    [asciiize]. *)
Lemma asciiize_forallb (q : char -> bool) (t : str) :
  forallb (forallb q) [[45; 45]; [45]; [39]; [34]; [46; 46; 46]; [32]] = true ->
  forallb q t = true ->
  forallb q (asciiize t) = true.
Proof.
  intros Hq. rewrite asciiize_flat_map.
  induction t as [|c t IH]; [reflexivity|].
  cbn [forallb flat_map]. intros H. apply andb_true_iff in H as [Hc H].
  rewrite forallb_app, (IH H), andb_true_r.
  destruct (ascii_subst_cases c) as [[_ E]|[_ E]].
  - rewrite E. cbn [forallb]. now rewrite Hc.
  - rewrite forallb_forall in Hq. auto.
Qed.

Lemma asciiize_target_free (t : str) : target_free (asciiize t) = true.
Proof.
  unfold target_free. rewrite asciiize_flat_map.
  induction t as [|c t IH]; [reflexivity|].
  cbn [flat_map]. rewrite forallb_app, IH, andb_true_r.
  destruct (ascii_subst_cases c) as [[Hc E]|[_ E]].
  - rewrite E. cbn [forallb]. now rewrite Hc.
  - cbn [In] in E.
    repeat (destruct E as [E|E]; [rewrite <- E; reflexivity|]). destruct E.
Qed.

Lemma asciiize_fixed (t : str) : target_free t = true -> asciiize t = t.
Proof.
  unfold target_free. rewrite asciiize_flat_map.
  induction t as [|c t IH]; [reflexivity|].
  cbn [forallb flat_map]. intros H. apply andb_true_iff in H as [Hc H].
  apply negb_true_iff in Hc.
  destruct (ascii_subst_cases c) as [[_ E]|[E _]]; [|congruence].
  now rewrite E, (IH H).
Qed.

Lemma ascii_subst_visible_end (c : char) :
  isspace c = false ->
  exists u d, ascii_subst c = u ++ [d] /\ isspace d = false.
Proof.
  intros Hc. unfold ascii_subst.
  repeat match goal with
         | |- context [c =? ?k] =>
             let E := fresh "E" in
             destruct (c =? k) eqn:E;
             [try (apply N.eqb_eq in E; subst c; discriminate Hc);
              first [now exists [], 45 | now exists [45], 45 | now exists [], 39
                    | now exists [], 34 | now exists [46; 46], 46]|]
         end.
  now exists [], c.
Qed.

(** *** Lines *)

Lemma str_ind2 (P : str -> Prop) :
  P [] ->
  (forall c, P [c]) ->
  (forall c d r, P r -> P (d :: r) -> P (c :: d :: r)) ->
  forall s, P s.
Proof.
  intros H0 H1 H2 s.
  assert (H : P s /\ forall c, P (c :: s)).
  { induction s as [|d r [IHr IHc]]; [split; auto|].
    split; [apply IHc|]. intros c. apply H2; auto. }
  apply H.
Qed.

Lemma splitlines_cons_plain (c : char) (r : str) :
  is_linebreak c = false ->
  splitlines (c :: r)
  = match splitlines r with
    | h :: t => (c :: h) :: t
    | [] => [[c]]
    end.
Proof. intros H. cbn [splitlines]. now rewrite H. Qed.

(** The lines of [splitlines] are made of characters of the text, and
    none is a line boundary. *)
Lemma splitlines_forallb (q : char -> bool) (s : str) :
  forallb q s = true -> Forall (fun l => forallb q l = true) (splitlines s).
Proof.
  induction s as [| c | c d r IHr IHdr] using str_ind2; intros H.
  - constructor.
  - cbn [forallb] in H. cbn [splitlines].
    destruct (is_linebreak c); [destruct (c =? CR)|]; repeat constructor; exact H.
  - cbn [forallb] in H. apply andb_true_iff in H as [Hc H].
    assert (Hr : forallb q r = true)
      by (cbn [forallb] in H; now apply andb_true_iff in H as [_ H]).
    specialize (IHr Hr). specialize (IHdr H).
    destruct (is_linebreak c) eqn:Ec.
    + cbn [splitlines]. rewrite Ec.
      destruct (c =? CR); [destruct (d =? NL)|]; constructor; auto.
    + rewrite (splitlines_cons_plain c _ Ec).
      destruct (splitlines (d :: r)) as [|h t].
      * repeat constructor. cbn [forallb]. now rewrite Hc.
      * inversion IHdr; subst. constructor; [|assumption].
        cbn [forallb]. now rewrite Hc.
Qed.

Lemma splitlines_no_linebreak (s : str) :
  Forall (fun l => no_linebreak l = true) (splitlines s).
Proof.
  unfold no_linebreak.
  induction s as [| c | c d r IHr IHdr] using str_ind2.
  - constructor.
  - cbn [splitlines]. destruct (is_linebreak c) eqn:Ec.
    + destruct (c =? CR); repeat constructor.
    + repeat constructor. cbn [forallb]. now rewrite Ec.
  - destruct (is_linebreak c) eqn:Ec.
    + cbn [splitlines]. rewrite Ec.
      destruct (c =? CR); [destruct (d =? NL)|]; constructor; auto.
    + rewrite (splitlines_cons_plain c _ Ec).
      destruct (splitlines (d :: r)) as [|h t].
      * repeat constructor. cbn [forallb]. now rewrite Ec.
      * inversion IHdr; subst. constructor; [|assumption].
        cbn [forallb]. now rewrite Ec.
Qed.

Lemma split_nl_cons (x : char) (r : str) :
  split [NL] (x :: r)
  = if x =? NL then [] :: split [NL] r
    else match split [NL] r with
         | h :: t => (x :: h) :: t
         | [] => [[x]]
         end.
Proof.
  unfold split. cbn [split_go startswith List.length Nat.sub].
  now rewrite andb_true_r.
Qed.

Lemma split_nl_nonempty (s : str) : exists h t, split [NL] s = h :: t.
Proof.
  destruct s as [|x r]; [now exists [], []|].
  rewrite split_nl_cons. destruct (x =? NL); [eauto|].
  destruct (split [NL] r); eauto.
Qed.

Lemma join_cons2 (sep x y : str) (r : list str) :
  join sep (x :: y :: r) = x ++ sep ++ join sep (y :: r).
Proof. reflexivity. Qed.

Lemma join_split_nl (s : str) : join [NL] (split [NL] s) = s.
Proof.
  induction s as [|x r IH]; [reflexivity|].
  rewrite split_nl_cons.
  destruct (split_nl_nonempty r) as (h & t & Hr). rewrite Hr in *.
  destruct (x =? NL) eqn:E.
  - apply N.eqb_eq in E. subst x. rewrite join_cons2, IH. reflexivity.
  - destruct t as [|y t].
    + cbn [join] in *. now rewrite IH.
    + rewrite join_cons2 in *. rewrite <- IH. reflexivity.
Qed.

Lemma split_nl_forallb (q : char -> bool) (s : str) :
  forallb q s = true -> Forall (fun l => forallb q l = true) (split [NL] s).
Proof.
  induction s as [|x r IH]; intros H; [repeat constructor|].
  cbn [forallb] in H. apply andb_true_iff in H as [Hx H]. specialize (IH H).
  rewrite split_nl_cons. destruct (x =? NL); [constructor; auto|].
  destruct (split [NL] r) as [|h t].
  - repeat constructor. cbn [forallb]. now rewrite Hx.
  - inversion IH; subst. constructor; [|assumption].
    cbn [forallb]. now rewrite Hx.
Qed.

Lemma split_nl_free (x : str) :
  free_of NL x = true -> split [NL] x = [x].
Proof.
  unfold free_of. induction x as [|c x IH]; intros H; [reflexivity|].
  cbn [forallb] in H. apply andb_true_iff in H as [Hc H].
  apply negb_true_iff in Hc.
  now rewrite split_nl_cons, Hc, (IH H).
Qed.

Lemma split_nl_app (x s : str) :
  free_of NL x = true -> split [NL] (x ++ NL :: s) = x :: split [NL] s.
Proof.
  unfold free_of. induction x as [|c x IH]; intros H.
  - cbn [app]. now rewrite split_nl_cons.
  - cbn [forallb] in H. apply andb_true_iff in H as [Hc H].
    apply negb_true_iff in Hc.
    cbn [app]. now rewrite split_nl_cons, Hc, (IH H).
Qed.

Lemma split_join_nl (ls : list str) :
  ls <> [] ->
  Forall (fun l => free_of NL l = true) ls ->
  split [NL] (join [NL] ls) = ls.
Proof.
  induction ls as [|x ls IH]; intros Hne H; [contradiction|].
  inversion H as [|? ? Hx Hls]; subst.
  destruct ls as [|y ls].
  - cbn [join]. now apply split_nl_free.
  - change (join [NL] (x :: y :: ls)) with (x ++ NL :: join [NL] (y :: ls)).
    rewrite (split_nl_app _ _ Hx). f_equal. apply IH; [discriminate|assumption].
Qed.

Lemma join_forallb (q : char -> bool) (ls : list str) :
  q NL = true ->
  Forall (fun l => forallb q l = true) ls ->
  forallb q (join [NL] ls) = true.
Proof.
  intros Hq. induction 1 as [|x ls Hx Hls IH]; [reflexivity|].
  destruct ls as [|y ls]; [exact Hx|].
  change (join [NL] (x :: y :: ls)) with (x ++ NL :: join [NL] (y :: ls)).
  rewrite forallb_app, Hx. cbn [forallb andb]. now rewrite Hq, IH.
Qed.

(** With the line feed as only line boundary, and a last character that
    is none, [splitlines] cuts at the line feeds. *)
Lemma splitlines_split_nl (u : str) (d : char) :
  only_line_feeds (u ++ [d]) = true ->
  (d =? NL) = false ->
  splitlines (u ++ [d]) = split [NL] (u ++ [d]).
Proof.
  unfold only_line_feeds. intros H Hd.
  induction u as [|c u IH].
  - cbn [app forallb] in *. rewrite Hd, orb_false_r, andb_true_r in H.
    apply negb_true_iff in H.
    now rewrite (splitlines_cons_plain d [] H), split_nl_cons, Hd.
  - cbn [app forallb] in H. apply andb_true_iff in H as [Hc H].
    specialize (IH H). cbn [app]. rewrite split_nl_cons.
    destruct (c =? NL) eqn:Ec.
    + apply N.eqb_eq in Ec. subst c.
      cbn [splitlines]. change (is_linebreak NL) with true.
      change (NL =? CR) with false. cbn iota. now rewrite IH.
    + rewrite orb_false_r in Hc. apply negb_true_iff in Hc.
      now rewrite (splitlines_cons_plain c _ Hc), IH.
Qed.

(** *** Lines without trailing whitespace *)

Lemma rstrip_by_ends (p : char -> bool) (s : str) :
  rstrip_by p s = []
  \/ exists u d, rstrip_by p s = u ++ [d] /\ p d = false.
Proof.
  induction s as [|c s IH]; [now left|].
  cbn [rstrip_by]. destruct IH as [E|(u & d & E & Hd)]; rewrite E.
  - destruct (p c) eqn:Hc; [now left|right]. now exists [], c.
  - right. exists (c :: u), d. split; [|exact Hd].
    destruct u; reflexivity.
Qed.

Lemma rstrip_by_first (p : char -> bool) (s t : str) (y : char) :
  rstrip_by p s = y :: t -> exists s', s = y :: s'.
Proof.
  destruct s as [|c s]; [discriminate|].
  destruct (rstrip_by_cons p c s) as [E|E]; rewrite E; [discriminate|].
  intros [= -> _]. eauto.
Qed.

Lemma rstrip_fixed_tail (c : char) (h : str) :
  rstrip (c :: h) = c :: h -> rstrip h = h.
Proof.
  unfold rstrip. destruct (rstrip_by_cons isspace c h) as [E|E]; rewrite E;
    [discriminate|now intros [= ->]].
Qed.

Lemma rstrip_fixed_cons (c : char) (h : str) :
  h <> [] -> rstrip h = h -> rstrip (c :: h) = c :: h.
Proof.
  unfold rstrip. intros Hne E. cbn [rstrip_by]. rewrite E.
  destruct h; [contradiction|reflexivity].
Qed.

Lemma trimmed_tail (c : char) (s : str) :
  trimmed_lines (c :: s) -> trimmed_lines s.
Proof.
  unfold trimmed_lines. rewrite split_nl_cons.
  destruct (split_nl_nonempty s) as (h & t & Hs). rewrite Hs.
  destruct (c =? NL); intros H; inversion H; subst; [assumption|].
  constructor; [|assumption]. eapply rstrip_fixed_tail; eauto.
Qed.

Lemma trimmed_lstrip (s : str) : trimmed_lines s -> trimmed_lines (lstrip s).
Proof.
  unfold lstrip. induction s as [|c s IH]; intros H; [exact H|].
  cbn [lstrip_by]. destruct (isspace c); [|exact H].
  apply IH. eapply trimmed_tail; eauto.
Qed.

Lemma trimmed_rstrip (s : str) : trimmed_lines s -> trimmed_lines (rstrip s).
Proof.
  unfold rstrip. induction s as [|c s IH]; intros H; [exact H|].
  pose proof (IH (trimmed_tail _ _ H)) as IH'.
  destruct (rstrip_by_cons isspace c s) as [E|E]; rewrite E.
  { repeat constructor. }
  unfold trimmed_lines in *. rewrite split_nl_cons.
  destruct (c =? NL) eqn:Ec; [constructor; [reflexivity|exact IH']|].
  destruct (split_nl_nonempty (rstrip_by isspace s)) as (h' & t' & Hs').
  rewrite Hs' in *. inversion IH' as [|? ? Hh' Ht']; subst.
  constructor; [|exact Ht'].
  destruct h' as [|x h'']; [|apply rstrip_fixed_cons; [discriminate|exact Hh']].
  (* the line of [c] ends at [c]: either the rest is stripped away, or
     a line feed follows in the text itself *)
  destruct (rstrip_by isspace s) as [|y t] eqn:Es.
  - cbn [rstrip_by] in E. rewrite Es in E.
    unfold rstrip. cbn [rstrip_by].
    destruct (isspace c); [discriminate E|reflexivity].
  - assert (Hy : y = NL).
    { rewrite split_nl_cons in Hs'. destruct (y =? NL) eqn:Ey;
        [now apply N.eqb_eq in Ey|].
      destruct (split [NL] t); discriminate Hs'. }
    subst y. destruct (rstrip_by_first _ _ _ _ Es) as [s' ->].
    rewrite split_nl_cons, Ec in H.
    rewrite split_nl_cons in H. change (NL =? NL) with true in H.
    now inversion H.
Qed.

Lemma trimmed_strip (s : str) : trimmed_lines s -> trimmed_lines (strip s).
Proof. intros H. apply trimmed_rstrip, trimmed_lstrip, H. Qed.

Lemma trimmed_join (ls : list str) :
  Forall (fun l => free_of NL l = true) ls ->
  Forall (fun l => rstrip l = l) ls ->
  trimmed_lines (join [NL] ls).
Proof.
  intros Hfree Hfixed. unfold trimmed_lines.
  destruct ls as [|x ls]; [repeat constructor|].
  now rewrite split_join_nl by (discriminate || assumption).
Qed.

(** *** One line of the plain normalizer *)

Lemma plain_line_trimmed (l : str) : rstrip (asciiize (rstrip l)) = asciiize (rstrip l).
Proof.
  unfold rstrip at 2 3.
  destruct (rstrip_by_ends isspace l) as [E|(u & d & E & Hd)]; rewrite E; [reflexivity|].
  rewrite asciiize_app, asciiize_char.
  destruct (ascii_subst_visible_end d Hd) as (u' & d' & E' & Hd').
  rewrite E', app_assoc. now apply rstrip_by_app_keep.
Qed.

Lemma no_linebreak_free (l : str) : no_linebreak l = true -> free_of NL l = true.
Proof.
  unfold no_linebreak, free_of. induction l as [|c l IH]; [reflexivity|].
  cbn [forallb]. intros H. apply andb_true_iff in H as [Hc H].
  rewrite (IH H), andb_true_r.
  destruct (c =? NL) eqn:E; [|reflexivity].
  apply N.eqb_eq in E. subst c. discriminate Hc.
Qed.

Lemma plain_line_no_linebreak (l : str) :
  no_linebreak l = true -> no_linebreak (asciiize (rstrip l)) = true.
Proof.
  unfold no_linebreak. intros H.
  apply asciiize_forallb; [reflexivity|]. now apply forallb_rstrip_by.
Qed.

(** *** The plain normalizer is idempotent *)

Lemma forallb_strip (q : char -> bool) (s : str) :
  forallb q s = true -> forallb q (strip s) = true.
Proof. intros H. apply forallb_rstrip_by, forallb_lstrip_by, H. Qed.

(** A property that the line feed and the replacement texts have, and
    the characters of [s] have, holds for the characters of
    [plain_text s]. *)
Lemma plain_text_forallb (q : char -> bool) (s : str) :
  q NL = true ->
  forallb (forallb q) [[45; 45]; [45]; [39]; [34]; [46; 46; 46]; [32]] = true ->
  forallb q s = true ->
  forallb q (plain_text s) = true.
Proof.
  intros Hnl Hdst Hs. unfold plain_text, normalize_plain.
  apply forallb_strip, join_forallb; [exact Hnl|].
  apply Forall_map. eapply Forall_impl; [|apply (splitlines_forallb q s Hs)].
  intros l Hl. apply asciiize_forallb; [exact Hdst|]. now apply forallb_rstrip_by.
Qed.

Lemma plain_lines (s : str) :
  Forall (fun l => no_linebreak l = true /\ target_free l = true /\ rstrip l = l)
         (map (fun line => asciiize (rstrip line)) (splitlines s)).
Proof.
  apply Forall_map. eapply Forall_impl; [|apply splitlines_no_linebreak].
  intros l Hl. split; [now apply plain_line_no_linebreak|].
  split; [apply asciiize_target_free|apply plain_line_trimmed].
Qed.

Lemma plain_text_shape (s : str) :
  target_free (plain_text s) = true
  /\ only_line_feeds (plain_text s) = true
  /\ trimmed_lines (plain_text s)
  /\ strip (plain_text s) = plain_text s.
Proof.
  pose proof (plain_lines s) as H.
  unfold plain_text, normalize_plain.
  split; [|split; [|split]].
  - apply forallb_strip, join_forallb; [reflexivity|].
    eapply Forall_impl; [|exact H]. now intros l (_ & Hl & _).
  - apply forallb_strip, join_forallb; [reflexivity|].
    eapply Forall_impl; [|exact H]. intros l (Hl & _ & _).
    unfold no_linebreak in Hl. rewrite forallb_forall in *.
    intros c Hc. now rewrite (Hl c Hc).
  - apply trimmed_strip, trimmed_join.
    + eapply Forall_impl; [|exact H]. intros l (Hl & _ & _).
      now apply no_linebreak_free.
    + eapply Forall_impl; [|exact H]. now intros l (_ & _ & Hl).
  - apply strip_by_idem.
Qed.

Lemma plain_text_fixed (R : str) :
  target_free R = true ->
  only_line_feeds R = true ->
  trimmed_lines R ->
  strip R = R ->
  plain_text R = R.
Proof.
  intros Ht Ho Hl Hs. unfold plain_text.
  assert (Hlines : splitlines R = [] /\ R = [] \/ splitlines R = split [NL] R).
  { destruct (rstrip_by_ends isspace (lstrip R)) as [E|(u & d & E & Hd)];
      change (rstrip_by isspace (lstrip R)) with (strip R) in E; rewrite Hs in E.
    - left. now subst R.
    - right. subst R. apply splitlines_split_nl; [exact Ho|].
      destruct (d =? NL) eqn:Ed; [|reflexivity].
      apply N.eqb_eq in Ed. subst d. discriminate Hd. }
  destruct Hlines as [[E ->]|E]; [reflexivity|].
  rewrite E. unfold normalize_plain.
  assert (Hmap : map (fun line => asciiize (rstrip line)) (split [NL] R) = split [NL] R).
  { rewrite <- (map_id (split [NL] R)) at 2. apply map_ext_Forall.
    pose proof (split_nl_forallb _ R Ht) as Hfree.
    unfold trimmed_lines in Hl. rewrite Forall_forall in *.
    intros l Hin. rewrite (Hl l Hin). apply asciiize_fixed, Hfree, Hin. }
  now rewrite Hmap, join_split_nl.
Qed.

Lemma plain_text_idempotent (s : str) : plain_text (plain_text s) = plain_text s.
Proof.
  destruct (plain_text_shape s) as (Ht & Ho & Hl & Hs).
  now apply plain_text_fixed.
Qed.

(** The same on the list of lines itself: the result of the plain
    normalizer, given back to it as one line, comes out unchanged,
    whatever the lines hold. *)
Lemma normalize_plain_again (ls : list str) :
  normalize_plain [normalize_plain ls] = normalize_plain ls.
Proof.
  unfold normalize_plain at 1. cbn [map join].
  assert (Hr : rstrip (normalize_plain ls) = normalize_plain ls)
    by (unfold normalize_plain, strip, strip_by, rstrip; apply rstrip_by_idem).
  assert (Ht : target_free (normalize_plain ls) = true).
  { unfold normalize_plain. apply forallb_strip, join_forallb; [reflexivity|].
    apply Forall_map, Forall_forall. intros l _. apply asciiize_target_free. }
  rewrite Hr, (asciiize_fixed _ Ht).
  unfold normalize_plain. apply strip_by_idem.
Qed.

(** *** Markdown that has nothing to strip *)

Lemma heading_marker_none (l : str) : free_of HASH l = true -> heading_marker l = None.
Proof.
  unfold heading_marker, free_of. intros H.
  assert (E : span (N.eqb HASH) l = ([], l)).
  { destruct l as [|c l]; [reflexivity|]. cbn [forallb] in H.
    apply andb_true_iff in H as [Hc _]. apply negb_true_iff in Hc.
    cbn [span]. now rewrite N.eqb_sym, Hc. }
  now rewrite E.
Qed.

Lemma replace_stars_none (l : str) :
  free_of STAR l = true -> replace [STAR; STAR] [] l = l.
Proof.
  unfold replace, free_of. induction l as [|c l IH]; intros H; [reflexivity|].
  cbn [forallb] in H. apply andb_true_iff in H as [Hc H].
  apply negb_true_iff in Hc.
  cbn [replace_go startswith]. now rewrite Hc, (IH H).
Qed.

Lemma italic_none (l : str) : free_of STAR l = true -> sub italic_at l = l.
Proof.
  unfold sub, free_of. induction l as [|c l IH]; intros H; [reflexivity|].
  cbn [forallb] in H. apply andb_true_iff in H as [Hc H].
  apply negb_true_iff in Hc.
  cbn [sub_go italic_at]. now rewrite Hc, (IH H).
Qed.

Lemma strip_markdown_plain (l : str) :
  free_of HASH l = true -> free_of STAR l = true -> strip_markdown l = l.
Proof.
  intros Hh Hs. unfold strip_markdown.
  now rewrite (heading_marker_none l Hh), (replace_stars_none l Hs), (italic_none l Hs).
Qed.

Lemma markdown_text_plain (s : str) :
  free_of HASH s = true -> free_of STAR s = true -> markdown_text s = plain_text s.
Proof.
  intros Hh Hs. unfold markdown_text, plain_text, normalize_markdown, normalize_plain.
  do 2 f_equal. apply map_ext_Forall.
  pose proof (splitlines_forallb _ s Hh) as Lh.
  pose proof (splitlines_forallb _ s Hs) as Ls.
  rewrite Forall_forall in *. intros l Hin. f_equal.
  apply strip_markdown_plain; apply forallb_rstrip_by; [apply Lh|apply Ls]; exact Hin.
Qed.

(** C3, as the code has it.  The plain normalizer, applied to its own
    result, gives that result again: for every text, read as the lines
    of [splitlines], and for every list of lines, with the result given
    back as one line.  The markdown-stripping normalizer does so for the
    texts that hold no hash mark and no star, where it agrees with the
    plain one. *)
Theorem normalize_idempotent (s : str) (ls : list str) :
  plain_text (plain_text s) = plain_text s
  /\ normalize_plain [normalize_plain ls] = normalize_plain ls
  /\ (free_of HASH s = true ->
      free_of STAR s = true ->
      markdown_text s = plain_text s
      /\ markdown_text (markdown_text s) = markdown_text s).
Proof.
  split; [apply plain_text_idempotent|].
  split; [apply normalize_plain_again|].
  intros Hh Hs.
  pose proof (markdown_text_plain s Hh Hs) as E.
  split; [exact E|]. rewrite E.
  rewrite markdown_text_plain.
  - apply plain_text_idempotent.
  - now apply plain_text_forallb.
  - now apply plain_text_forallb.
Qed.

Lemma normalize_idempotent_witness :
  plain_text (plain_text curly_text) = plain_text curly_text
  /\ markdown_text (markdown_text curly_text) = markdown_text curly_text.
Proof.
  split.
  - apply (proj1 (normalize_idempotent curly_text [])).
  - apply (proj2 (proj2 (normalize_idempotent curly_text []))); reflexivity.
Defined.

(** C3, as the specification has it, fails for the markdown-stripping
    normalizer: of two heading markers at the start of a line, each
    pass removes one. *)
Lemma markdown_idempotent_counterexample :
  markdown_text (markdown_text (lit "# # a")) <> markdown_text (lit "# # a")
  /\ normalize_markdown [normalize_markdown [lit "# # a"]]
     <> normalize_markdown [lit "# # a"]
  /\ markdown_text (lit "# # a") = lit "# a"
  /\ markdown_text (lit "# a") = lit "a".
Proof. repeat split; discriminate. Qed.

End NormalizeFacts.

(** * Further properties of the scripts *)

(** ** [asciiize] *)

Module AsciiizeFacts.
Import Py Re Metadata Specs MoreSpecs Samples PyFacts NormalizeFacts.

Lemma ascii_subst_nonempty (c : char) : ascii_subst c <> [].
Proof.
  destruct (ascii_subst_cases c) as [[_ E]|[_ E]]; [rewrite E; discriminate|].
  cbn [In] in E.
  repeat (destruct E as [E|E]; [rewrite <- E; discriminate|]). destruct E.
Qed.

Lemma asciiize_length (t : str) : (List.length t <= List.length (asciiize t))%nat.
Proof.
  rewrite asciiize_flat_map. induction t as [|c t IH]; [apply Nat.le_refl|].
  cbn [flat_map List.length]. rewrite length_app.
  pose proof (ascii_subst_nonempty c) as H.
  destruct (ascii_subst c); [contradiction|cbn [List.length]; lia].
Qed.

(** X1.  Whatever the text, the result of [asciiize] holds none of the
    nine characters of [ASCII_MAP], a second pass changes nothing, and
    no character is lost: the result is at least as long as the text. *)
Theorem asciiize_removes_every_target (t : str) :
  target_free (asciiize t) = true
  /\ asciiize (asciiize t) = asciiize t
  /\ (List.length t <= List.length (asciiize t))%nat.
Proof.
  split; [apply asciiize_target_free|].
  split; [apply asciiize_fixed, asciiize_target_free|apply asciiize_length].
Qed.

(** X2.  A text of ASCII characters and characters of [ASCII_MAP] comes
    out as ASCII only, and a text without characters of [ASCII_MAP]
    comes out unchanged. *)
Theorem asciiize_gives_ascii (t : str) :
  forallb (fun c => is_ascii c || is_target c) t = true ->
  forallb is_ascii (asciiize t) = true
  /\ (target_free t = true -> asciiize t = t).
Proof.
  intros H. split; [|apply asciiize_fixed].
  rewrite asciiize_flat_map. induction t as [|c t IH]; [reflexivity|].
  cbn [forallb flat_map] in *. apply andb_true_iff in H as [Hc H].
  rewrite forallb_app, (IH H), andb_true_r.
  destruct (ascii_subst_cases c) as [[Ht E]|[_ E]].
  - rewrite E. cbn [forallb]. rewrite Ht, orb_false_r in Hc. now rewrite Hc.
  - cbn [In] in E.
    repeat (destruct E as [E|E]; [rewrite <- E; reflexivity|]). destruct E.
Qed.

Lemma asciiize_gives_ascii_witness :
  forallb is_ascii (asciiize ([8220] ++ lit "a" ++ [8212] ++ lit "b" ++ [8230; 8221])) = true.
Proof.
  apply (proj1 (asciiize_gives_ascii
                  ([8220] ++ lit "a" ++ [8212] ++ lit "b" ++ [8230; 8221]) eq_refl)).
Defined.

End AsciiizeFacts.

(** ** The section splitter, label by label *)

Module SectionFacts.
Import Py Re Metadata Specs MoreSpecs Samples PyFacts MetadataFacts.

Lemma get_none_keys {V : Type} (d : dict V) (k : str) :
  get d k = None <-> ~ In k (keys d).
Proof.
  induction d as [|[k0 v0] d IH]; cbn [get keys map fst In]; [tauto|].
  destruct (str_eqb k0 k) eqn:E.
  - apply str_eqb_eq in E. split; [discriminate|tauto].
  - apply str_eqb_neq in E. unfold keys in IH. tauto.
Qed.

Lemma keys_set {V : Type} (d : dict V) (k : str) (v : V) :
  get d k <> None -> keys (set d k v) = keys d.
Proof.
  induction d as [|[k0 v0] d IH]; cbn [get set]; [congruence|].
  destruct (str_eqb k0 k); intros H; [reflexivity|].
  unfold keys in *. cbn [map fst]. now rewrite IH.
Qed.

Lemma keys_setdefault_nodup {V : Type} (d : dict V) (h : str) (v : V) :
  NoDup (keys d) -> NoDup (keys (setdefault d h v)).
Proof.
  intros H. unfold setdefault. destruct (get d h) eqn:E; [exact H|].
  unfold keys. rewrite map_app. cbn [map fst].
  apply get_none_keys in E.
  apply NoDup_rev in H. rewrite <- (rev_involutive (map fst d ++ [h])).
  apply NoDup_rev. rewrite rev_app_distr. cbn [rev app].
  constructor; [|exact H]. now rewrite <- in_rev.
Qed.

Lemma sections_step_nodup (st : dict (list str) * option str) (l : str) :
  NoDup (keys (fst st)) -> NoDup (keys (fst (sections_step st l))).
Proof.
  destruct st as [d cur]. cbn [fst]. intros H.
  destruct (is_heading l) eqn:Eh.
  - rewrite sections_step_heading by exact Eh. now apply keys_setdefault_nodup.
  - destruct cur as [c|].
    + rewrite sections_step_body by exact Eh. cbn [fst]. unfold append_line.
      destruct (get d c) eqn:Ec; [|exact H].
      rewrite keys_set; [exact H|congruence].
    + unfold sections_step. unfold is_heading in Eh. now rewrite Eh.
Qed.

Lemma fold_sections_nodup (lines : list str) :
  forall st, NoDup (keys (fst st)) ->
  NoDup (keys (fst (fold_left sections_step lines st))).
Proof.
  induction lines as [|l lines IH]; intros st H; [exact H|].
  cbn [fold_left]. apply IH. now apply sections_step_nodup.
Qed.

(** X3.  The lines before the first heading of a document are dropped:
    they change nothing in the result, and a document without heading
    has no section. *)
Theorem lines_before_first_heading_dropped (pre rest : list str) :
  forallb (fun l => negb (is_heading l)) pre = true ->
  parse_lines (pre ++ rest) = parse_lines rest
  /\ parse_lines pre = [].
Proof.
  intros H.
  assert (E : fold_left sections_step pre ([], None) = ([], None)).
  { induction pre as [|l pre IH]; [reflexivity|].
    cbn [forallb] in H. apply andb_true_iff in H as [Hl H].
    apply negb_true_iff in Hl. cbn [fold_left].
    unfold sections_step at 2. unfold is_heading in Hl. rewrite Hl. now apply IH. }
  split; [|unfold parse_lines; now rewrite E].
  rewrite parse_lines_app, E. reflexivity.
Qed.

Lemma lines_before_first_heading_dropped_witness :
  parse_lines ([lit "# Title"; lit "intro"] ++ [lit "## A"; lit "x"])
  = parse_lines [lit "## A"; lit "x"]
  /\ parse_lines [lit "# Title"; lit "intro"] = [].
Proof.
  apply (lines_before_first_heading_dropped
           [lit "# Title"; lit "intro"] [lit "## A"; lit "x"]).
  reflexivity.
Defined.

(** X4.  The labels of the result are pairwise distinct, and a label
    has a section exactly when a heading line of the document has that
    label. *)
Theorem section_labels_distinct (text label : str) :
  NoDup (keys (parse_sections text))
  /\ mem (parse_sections text) label = has_heading label (splitlines text).
Proof.
  unfold parse_sections, parse_lines. split.
  - apply fold_sections_nodup. constructor.
  - unfold mem. rewrite fold_sections_get by discriminate. cbn [get].
    now destruct (has_heading label (splitlines text)).
Qed.

(** X5.  The section of a label holds, in the order of the document,
    the lines that are no heading and whose nearest heading above has
    that label; no heading line is ever stored. *)
Theorem section_holds_lines_under_label (text label : str) :
  get (parse_sections text) label
  = (if has_heading label (splitlines text)
     then Some (lines_under label false (splitlines text))
     else None)
  /\ forallb (fun l => negb (is_heading l))
             (lines_under label false (splitlines text)) = true.
Proof.
  split.
  - unfold parse_sections, parse_lines.
    now rewrite fold_sections_get by discriminate.
  - generalize false. induction (splitlines text) as [|l lines IH]; intros cur;
      [reflexivity|].
    cbn [lines_under]. destruct (is_heading l) eqn:Eh; [apply IH|].
    destruct cur; [|apply IH].
    cbn [forallb]. now rewrite Eh, IH.
Qed.

End SectionFacts.

(** ** Labeled bullets and [require] *)

Module BulletFacts.
Import Py Re Metadata Specs MoreSpecs Samples PyFacts MetadataFacts.

Lemma span_eq (p : char -> bool) (s : str) :
  fst (span p s) ++ snd (span p s) = s.
Proof.
  induction s as [|c s IH]; [reflexivity|].
  cbn [span]. destruct (p c); [|reflexivity].
  destruct (span p s). cbn [fst snd app] in *. now rewrite IH.
Qed.

Lemma span_fst_all (p : char -> bool) (s : str) :
  forallb p (fst (span p s)) = true.
Proof.
  induction s as [|c s IH]; [reflexivity|].
  cbn [span]. destruct (p c) eqn:E; [|reflexivity].
  destruct (span p s). cbn [fst forallb] in *. now rewrite E.
Qed.

Lemma span_snd_head (p : char -> bool) (s : str) :
  match snd (span p s) with
  | [] => True
  | c :: _ => p c = false
  end.
Proof.
  induction s as [|c s IH]; [exact I|].
  cbn [span]. destruct (p c) eqn:E; [|exact E].
  now destruct (span p s).
Qed.

Lemma rstrip_by_length (p : char -> bool) (s : str) :
  (List.length (rstrip_by p s) <= List.length s)%nat.
Proof.
  induction s as [|c s IH]; [apply Nat.le_refl|].
  destruct (rstrip_by_cons p c s) as [E|E]; rewrite E; cbn [List.length]; lia.
Qed.

(** A stripped text does not end in a run of whitespace. *)
Lemma stripped_end (x ws : str) :
  forallb isspace ws = true ->
  rstrip (x ++ ws) = x ++ ws ->
  ws = [].
Proof.
  unfold rstrip. intros Hws H. rewrite rstrip_by_app_all in H by exact Hws.
  pose proof (rstrip_by_length isspace x) as L. rewrite H, length_app in L.
  destruct ws; [reflexivity|cbn [List.length] in L; lia].
Qed.

Lemma startswith_two (s : str) (a b : char) :
  startswith s [a; b] = true -> exists r, s = a :: b :: r.
Proof.
  destruct s as [|x [|y r]]; cbn [startswith]; try discriminate.
  - now rewrite andb_false_r.
  - intros H. apply andb_true_iff in H as [Hx H].
    apply andb_true_iff in H as [Hy _].
    apply N.eqb_eq in Hx, Hy. subst. eauto.
Qed.

(** Group 2 of the bullet pattern on a stripped line holds a visible
    character. *)
Lemma bullet_value_visible (s g1 g2 : str) :
  rstrip s = s ->
  bullet_match s = Some (g1, g2) ->
  has_visible g2 = true.
Proof.
  intros Hs. unfold bullet_match.
  destruct s as [|c r]; [discriminate|].
  destruct (c =? 45); [|discriminate].
  pose proof (span_eq isspace r) as E1.
  destruct (span isspace r) as [ws1 r1]. cbn [fst snd] in E1.
  destruct (nonempty ws1 && startswith r1 [STAR; STAR]) eqn:C1; [|discriminate].
  apply andb_true_iff in C1 as [_ C1].
  destruct (startswith_two _ _ _ C1) as [r1' ->].
  change (skipn 2 (STAR :: STAR :: r1')) with r1'.
  pose proof (span_eq (fun d => negb (d =? STAR)) r1') as E2.
  destruct (span (fun d => negb (d =? STAR)) r1') as [label r3]. cbn [fst snd] in E2.
  destruct (nonempty label && startswith r3 [STAR; STAR]) eqn:C2; [|discriminate].
  apply andb_true_iff in C2 as [_ C2].
  destruct (startswith_two _ _ _ C2) as [r3' ->].
  change (skipn 2 (STAR :: STAR :: r3')) with r3'.
  pose proof (span_eq isspace r3') as E3.
  pose proof (span_fst_all isspace r3') as A3.
  pose proof (span_snd_head isspace r3') as H3.
  destruct (span isspace r3') as [ws2 r5]. cbn [fst snd] in E3, A3, H3.
  destruct (nonempty ws2) eqn:C3; [|discriminate].
  destruct r5 as [|d r5'].
  { exfalso. rewrite app_nil_r in E3. subst r3' r1' r.
    assert (Eq : c :: ws1 ++ STAR :: STAR :: label ++ STAR :: STAR :: ws2
                 = (c :: ws1 ++ STAR :: STAR :: label ++ [STAR; STAR]) ++ ws2).
    { cbn [app]. f_equal. rewrite <- app_assoc. cbn [app]. f_equal. f_equal.
      now rewrite <- app_assoc. }
    rewrite Eq in Hs. apply (stripped_end _ _ A3) in Hs.
    subst ws2. discriminate C3. }
  unfold dot_star_end. cbn [span].
  assert (Hd : negb (d =? NL) = true).
  { destruct (d =? NL) eqn:Ed; [|reflexivity].
    apply N.eqb_eq in Ed. subst d. discriminate H3. }
  rewrite Hd. destruct (span (fun d0 => negb (d0 =? NL)) r5') as [body rest].
  assert (Hv : has_visible (d :: body) = true)
    by (unfold has_visible; cbn [existsb]; now rewrite H3).
  destruct rest as [|x [|y rest]]; intros [= _ <-]; exact Hv.
Qed.

Lemma strip_visible (v : str) : has_visible v = true -> has_visible (strip v) = true.
Proof.
  intros H. rewrite <- nonempty_strip. unfold strip. rewrite strip_by_idem.
  fold (strip v). now rewrite nonempty_strip.
Qed.

Lemma set_field_ok (d : dict str) (k v : str) :
  Forall field_ok d -> field_ok (k, v) -> Forall field_ok (set d k v).
Proof.
  intros Hd Hv. induction Hd as [|[k0 v0] d H0 Hd IH]; cbn [set];
    [constructor; [exact Hv|constructor]|].
  destruct (str_eqb k0 k); constructor; auto.
Qed.

Lemma bullets_step_ok (d : dict str) (line : str) :
  Forall field_ok d -> Forall field_ok (bullets_step d line).
Proof.
  intros Hd. unfold bullets_step.
  destruct (bullet_match (strip line)) as [[g1 g2]|] eqn:E; [|exact Hd].
  apply set_field_ok; [exact Hd|].
  assert (Hs : rstrip (strip line) = strip line)
    by (unfold rstrip, strip, strip_by; apply rstrip_by_idem).
  pose proof (bullet_value_visible _ _ _ Hs E) as Hv.
  split; cbn [snd]; [now apply strip_visible|apply strip_by_idem].
Qed.

Lemma parse_labeled_bullets_ok (lines : list str) :
  Forall field_ok (parse_labeled_bullets lines).
Proof.
  unfold parse_labeled_bullets.
  assert (H : forall d, Forall field_ok d -> Forall field_ok (fold_left bullets_step lines d)).
  { induction lines as [|l lines IH]; intros d Hd; [exact Hd|].
    cbn [fold_left]. apply IH. now apply bullets_step_ok. }
  apply H. constructor.
Qed.

Lemma get_In {V : Type} (d : dict V) (k : str) (v : V) :
  get d k = Some v -> exists k', In (k', v) d.
Proof.
  induction d as [|[k0 v0] d IH]; cbn [get]; [discriminate|].
  destruct (str_eqb k0 k).
  - intros [= ->]. exists k0. now left.
  - intros H. destruct (IH H) as [k' Hin]. exists k'. now right.
Qed.

(** X6.  No field that [parse_labeled_bullets] extracts is blank, and
    every value is trimmed.  So [require] on its result gives back the
    stored value as it is, and raises [KeyError] exactly for the labels
    that no bullet line carries. *)
Theorem extracted_fields_never_blank (lines : list str) (label : str) :
  match get (parse_labeled_bullets lines) label with
  | Some v =>
      has_visible v = true /\ strip v = v
      /\ require (parse_labeled_bullets lines) label = inr v
  | None => require (parse_labeled_bullets lines) label = inl label
  end.
Proof.
  unfold require.
  destruct (get (parse_labeled_bullets lines) label) as [v|] eqn:E; [|reflexivity].
  destruct (get_In _ _ _ E) as [k' Hin].
  pose proof (parse_labeled_bullets_ok lines) as H.
  rewrite Forall_forall in H. destruct (H _ Hin) as [Hv Hs]. cbn [snd] in Hv, Hs.
  split; [exact Hv|]. split; [exact Hs|].
  now rewrite Hs, (proj2 (nonempty_true v)) by (intros ->; discriminate Hv).
Qed.

End BulletFacts.

(** ** What the normalizers give back *)

Module NormalizeOutputFacts.
Import Py Re Metadata Specs MoreSpecs Samples PyFacts NormalizeFacts AsciiizeFacts.

Lemma blank_all_space (s : str) : blank s = true <-> forallb isspace s = true.
Proof.
  unfold blank, has_visible. induction s as [|c s IH]; cbn [existsb forallb]; [tauto|].
  rewrite negb_orb, negb_involutive, !andb_true_iff. tauto.
Qed.

Lemma strip_blank (s : str) : blank s = true -> strip s = [].
Proof.
  unfold blank. intros H. apply negb_true_iff in H.
  apply nonempty_false. now rewrite nonempty_strip.
Qed.

Lemma strip_nil_blank (s : str) : strip s = [] -> blank s = true.
Proof.
  intros H. unfold blank. rewrite <- nonempty_strip, H. reflexivity.
Qed.

Lemma join_forallb_inv (q : char -> bool) (ls : list str) :
  forallb q (join [NL] ls) = true -> Forall (fun l => forallb q l = true) ls.
Proof.
  induction ls as [|x ls IH]; intros H; [constructor|].
  destruct ls as [|y ls]; [repeat constructor; exact H|].
  rewrite join_cons2, forallb_app in H. apply andb_true_iff in H as [Hx H].
  cbn [app forallb] in H. apply andb_true_iff in H as [_ H].
  constructor; auto.
Qed.

Lemma plain_line_blank (l : str) :
  forallb isspace (asciiize (rstrip l)) = true -> blank l = true.
Proof.
  intros H. apply blank_all_space.
  assert (E : asciiize (rstrip l) = []).
  { rewrite <- plain_line_trimmed. apply rstrip_by_all, Forall_forall.
    rewrite forallb_forall in H. exact H. }
  pose proof (asciiize_length (rstrip l)) as L. rewrite E in L.
  assert (Er : rstrip l = []) by (destruct (rstrip l); [reflexivity|cbn in L; lia]).
  apply rstrip_by_nil_inv in Er. now apply forallb_forall, Forall_forall.
Qed.

Lemma rstrip_blank (l : str) : blank l = true -> rstrip l = [].
Proof.
  intros H. apply blank_all_space in H.
  apply rstrip_by_all, Forall_forall. now apply forallb_forall.
Qed.

(** X7.  The plain normalizer gives the empty text exactly when every
    line it is given is blank, and on such lines the markdown-stripping
    normalizer gives the empty text too: these are the sections for
    which [main] reports missing content. *)
Theorem normalized_empty_iff_blank (ls : list str) :
  (normalize_plain ls = [] <-> forallb blank ls = true)
  /\ (forallb blank ls = true -> normalize_markdown ls = []).
Proof.
  assert (Hjoin : forall f : str -> str,
            (forall l, blank l = true -> f l = []) ->
            forallb blank ls = true ->
            strip (join [NL] (map f ls)) = []).
  { intros f Hf H. apply strip_blank, blank_all_space, join_forallb; [reflexivity|].
    apply Forall_map, Forall_forall. intros l Hl.
    rewrite forallb_forall in H. now rewrite (Hf l (H l Hl)). }
  split; [split|].
  - intros H. unfold normalize_plain in H.
    apply strip_nil_blank, blank_all_space, join_forallb_inv in H.
    apply forallb_forall. intros l Hl.
    rewrite Forall_map, Forall_forall in H. now apply plain_line_blank, H.
  - apply Hjoin. intros l Hl. now rewrite rstrip_blank.
  - apply Hjoin. intros l Hl. now rewrite rstrip_blank.
Qed.

(** X8.  The result of either normalizer has no whitespace at its ends
    and none of the characters of [ASCII_MAP]. *)
Theorem normalized_is_trimmed_ascii_mapped (ls : list str) :
  strip (normalize_plain ls) = normalize_plain ls
  /\ target_free (normalize_plain ls) = true
  /\ strip (normalize_markdown ls) = normalize_markdown ls
  /\ target_free (normalize_markdown ls) = true.
Proof.
  assert (H : forall f : str -> str,
            target_free (strip (join [NL] (map (fun l => asciiize (f l)) ls))) = true).
  { intros f. apply forallb_strip, join_forallb; [reflexivity|].
    apply Forall_map, Forall_forall. intros l _. apply asciiize_target_free. }
  unfold normalize_plain, normalize_markdown.
  repeat split; try apply strip_by_idem.
  - apply (H rstrip).
  - apply (H (fun l => strip_markdown (rstrip l))).
Qed.

End NormalizeOutputFacts.

(** ** The extractors of URLs, e-mail addresses and phone numbers *)

Module ExtractFacts.
Import Py Re Metadata Specs MoreSpecs Samples PyFacts BulletFacts FirstWordFacts.

(** *** Searching *)

Lemma search_here {A : Type} (m : str -> option A) (s : str) (a : A) :
  m s = Some a -> search m s = Some a.
Proof. intros H. destruct s; cbn [search]; now rewrite H. Qed.

(** A pattern that cannot start at the characters of [pre] is found
    after them, if at all. *)
Lemma search_skip {A : Type} (m : str -> option A) (ok : char -> bool) (pre suf : str) :
  (forall c r, ok c = true -> m (c :: r) = None) ->
  forallb ok pre = true ->
  search m (pre ++ suf) = search m suf.
Proof.
  intros Hm. induction pre as [|c pre IH]; intros H; [reflexivity|].
  cbn [forallb] in H. apply andb_true_iff in H as [Hc H].
  cbn [app search]. now rewrite (Hm c _ Hc), IH.
Qed.

Lemma search_never {A : Type} (m : str -> option A) (ok : char -> bool) (s : str) :
  (forall c r, ok c = true -> m (c :: r) = None) ->
  m [] = None ->
  forallb ok s = true ->
  search m s = None.
Proof.
  intros Hm H0 H. rewrite <- (app_nil_r s), (search_skip m ok s [] Hm H).
  cbn [search]. now rewrite H0.
Qed.

Lemma bracketed_at_other (c : char) (r : str) :
  negb (c =? 60) = true -> bracketed_at (c :: r) = None.
Proof. intros H. apply negb_true_iff in H. unfold bracketed_at. now rewrite H. Qed.

Lemma http_at_other (c : char) (r : str) :
  negb (c =? 104) = true -> http_at (c :: r) = None.
Proof.
  intros H. apply negb_true_iff in H. unfold http_at.
  change (startswith (c :: r) (lit "http"))
    with ((c =? 104) && startswith r (lit "ttp")).
  now rewrite H.
Qed.

Lemma all_space (s : str) : has_visible s = false -> forallb isspace s = true.
Proof.
  unfold has_visible. induction s as [|c s IH]; [reflexivity|].
  cbn [existsb forallb]. intros H. apply orb_false_iff in H as [Hc H].
  apply negb_false_iff in Hc. now rewrite Hc, IH.
Qed.

Lemma bracketed_at_space (c : char) (r : str) :
  isspace c = true -> bracketed_at (c :: r) = None.
Proof.
  intros H. apply bracketed_at_other. destruct (c =? 60) eqn:E; [|reflexivity].
  apply N.eqb_eq in E. subst c. discriminate H.
Qed.

Lemma http_at_space (c : char) (r : str) :
  isspace c = true -> http_at (c :: r) = None.
Proof.
  intros H. apply http_at_other. destruct (c =? 104) eqn:E; [|reflexivity].
  apply N.eqb_eq in E. subst c. discriminate H.
Qed.

(** X9.  [extract_url] gives the empty text for the empty value and a
    text that is not empty for every value with a visible character:
    the file of a required URL is never left without content.  On a
    value that is not empty and holds nothing but whitespace its last
    line raises [IndexError]. *)
Theorem extract_url_not_empty (value : str) :
  extract_url [] = Some []
  /\ (has_visible value = true -> exists u, extract_url value = Some u /\ u <> [])
  /\ (nonempty value = true -> has_visible value = false -> extract_url value = None).
Proof.
  split; [reflexivity|]. split; [apply extract_url_visible|].
  intros Hne Hblank. unfold extract_url. rewrite Hne.
  rewrite (search_never bracketed_at isspace value bracketed_at_space eq_refl
             (all_space _ Hblank)).
  rewrite (search_never http_at isspace value http_at_space eq_refl
             (all_space _ Hblank)).
  now apply first_word_blank.
Qed.

Lemma extract_url_not_empty_witness :
  exists u, extract_url (lit "see https://example.com/a).") = Some u /\ u <> [].
Proof.
  apply (proj1 (proj2 (extract_url_not_empty (lit "see https://example.com/a).")))
           eq_refl).
Defined.

(** X10.  A value whose first less-than sign opens a bracketed text
    gives that text: the angle brackets of a markdown autolink win over
    everything around them. *)
Theorem extract_url_bracketed (pre u post : str) :
  free_of 60 pre = true ->
  nonempty u = true ->
  free_of 62 u = true ->
  extract_url (pre ++ [60] ++ u ++ [62] ++ post) = Some u.
Proof.
  intros Hpre Hu Hfree. unfold extract_url.
  assert (Hne : nonempty (pre ++ [60] ++ u ++ [62] ++ post) = true)
    by (destruct pre; reflexivity).
  rewrite Hne.
  rewrite (search_skip bracketed_at (fun c => negb (c =? 60)) pre _
             bracketed_at_other Hpre).
  cbn [app search bracketed_at]. rewrite N.eqb_refl.
  rewrite (span_app (fun d => negb (d =? 62)) u (62 :: post) Hfree eq_refl).
  destruct u; [discriminate Hu|reflexivity].
Qed.

Lemma extract_url_bracketed_witness :
  extract_url (lit "Site: <https://example.com/a b> (main)")
  = Some (lit "https://example.com/a b").
Proof.
  apply (extract_url_bracketed (lit "Site: ") (lit "https://example.com/a b") (lit " (main)"));
    reflexivity.
Defined.

Lemma closing_visible (c : char) : closing c = true -> negb (isspace c) = true.
Proof.
  unfold closing. cbn [lit map list_ascii_of_string existsb].
  intros H. repeat (apply orb_true_iff in H as [H|H];
                    [apply N.eqb_eq in H; subst c; reflexivity|]).
  discriminate H.
Qed.

Lemma http_at_url (secure : bool) (url_rest rest : str) :
  nonempty url_rest = true ->
  forallb (fun c => negb (isspace c)) url_rest = true ->
  starts_blank rest = true ->
  http_at (scheme secure ++ url_rest ++ rest) = Some (scheme secure ++ url_rest).
Proof.
  intros Hne Hvis Hrest.
  assert (Hspan : span (fun c => negb (isspace c)) (url_rest ++ rest) = (url_rest, rest)).
  { apply span_app; [exact Hvis|]. destruct rest as [|c rest]; [exact I|].
    cbn [starts_blank] in Hrest. now rewrite Hrest. }
  unfold http_at. destruct secure.
  - change (startswith (scheme true ++ url_rest ++ rest) (lit "http")) with true.
    change (skipn 4 (scheme true ++ url_rest ++ rest))
      with (lit "s://" ++ url_rest ++ rest).
    change (startswith (lit "s://" ++ url_rest ++ rest) (lit "s")) with true.
    cbv iota.
    change (skipn 1 (lit "s://" ++ url_rest ++ rest)) with (lit "://" ++ url_rest ++ rest).
    change (startswith (lit "://" ++ url_rest ++ rest) (lit "://")) with true.
    change (skipn 3 (lit "://" ++ url_rest ++ rest)) with (url_rest ++ rest).
    cbv iota. now rewrite Hspan, Hne.
  - change (startswith (scheme false ++ url_rest ++ rest) (lit "http")) with true.
    change (skipn 4 (scheme false ++ url_rest ++ rest))
      with (lit "://" ++ url_rest ++ rest).
    change (startswith (lit "://" ++ url_rest ++ rest) (lit "s")) with false.
    cbv iota.
    change (startswith (lit "://" ++ url_rest ++ rest) (lit "://")) with true.
    change (skipn 3 (lit "://" ++ url_rest ++ rest)) with (url_rest ++ rest).
    cbv iota. now rewrite Hspan, Hne.
Qed.

(** X11.  A URL that stands in the value without any angle bracket,
    followed by closing parentheses, dots or commas and then by
    whitespace or the end, is given back without that punctuation: the
    target of a markdown link comes out clean. *)
Theorem extract_url_drops_closing_punctuation
  (secure : bool) (pre body trail rest : str) (d : char) :
  forallb (fun c => negb (c =? 60) && negb (c =? 104)) pre = true ->
  free_of 60 (body ++ [d] ++ trail ++ rest) = true ->
  forallb (fun c => negb (isspace c)) (body ++ [d]) = true ->
  closing d = false ->
  forallb closing trail = true ->
  starts_blank rest = true ->
  extract_url (pre ++ scheme secure ++ (body ++ [d] ++ trail) ++ rest)
  = Some (scheme secure ++ body ++ [d]).
Proof.
  intros Hpre Hfree Hvis Hd Htrail Hrest. unfold extract_url.
  assert (Hne : nonempty (pre ++ scheme secure ++ (body ++ [d] ++ trail) ++ rest) = true)
    by (destruct pre; [destruct secure|]; reflexivity).
  rewrite Hne.
  assert (Hpre60 : forallb (fun c => negb (c =? 60)) pre = true).
  { rewrite forallb_forall in *. intros c Hc.
    now destruct (proj1 (andb_true_iff _ _) (Hpre c Hc)). }
  assert (Hpre104 : forallb (fun c => negb (c =? 104)) pre = true).
  { rewrite forallb_forall in *. intros c Hc.
    now destruct (proj1 (andb_true_iff _ _) (Hpre c Hc)). }
  rewrite (search_never bracketed_at (fun c => negb (c =? 60)) _
             bracketed_at_other eq_refl).
  2:{ rewrite forallb_app, Hpre60. cbn [andb]. rewrite forallb_app.
      replace (forallb (fun c => negb (c =? 60)) (scheme secure)) with true
        by now destruct secure.
      cbn [andb]. rewrite <- !app_assoc. exact Hfree. }
  rewrite (search_skip http_at (fun c => negb (c =? 104)) pre _ http_at_other Hpre104).
  assert (Hat : http_at (scheme secure ++ (body ++ [d] ++ trail) ++ rest)
                = Some (scheme secure ++ body ++ [d] ++ trail)).
  { apply http_at_url; [now destruct body| |exact Hrest].
    rewrite app_assoc, forallb_app, Hvis. cbn [andb].
    apply forallb_forall. intros c Hc. apply closing_visible.
    rewrite forallb_forall in Htrail. auto. }
  assert (Hs : search http_at (scheme secure ++ (body ++ [d] ++ trail) ++ rest)
               = Some (scheme secure ++ body ++ [d] ++ trail)).
  { now apply search_here. }
  rewrite Hs. unfold rstrip_chars. fold closing.
  change (fun c : N => existsb (N.eqb c) (lit ").,")) with closing.
  rewrite !app_assoc, rstrip_by_app_all by exact Htrail.
  now rewrite rstrip_by_app_keep.
Qed.

Lemma extract_url_drops_closing_punctuation_witness :
  extract_url (lit "[Support](https://example.com/help). More")
  = Some (lit "https://example.com/help").
Proof.
  apply (extract_url_drops_closing_punctuation true (lit "[Support](")
           (lit "example.com/hel") (lit ").") (lit " More") 112);
    reflexivity.
Defined.

(** *** Patterns written with doubled backslashes *)

Lemma phone_at_other (c : char) (r : str) :
  negb (c =? 92) = true -> phone_at (c :: r) = None.
Proof.
  intros H. apply negb_true_iff in H. unfold phone_at. cbn [span].
  now rewrite N.eqb_sym, H.
Qed.

(** X12.  The phone pattern asks for backslashes before the letter d,
    so on a value without backslash it never matches: [extract_phone]
    gives the value as it is, without the whitespace around it. *)
Theorem extract_phone_without_backslash (value : str) :
  free_of 92 value = true ->
  extract_phone value = strip value.
Proof.
  intros H. unfold extract_phone.
  rewrite (search_never phone_at (fun c => negb (c =? 92)) value
             phone_at_other eq_refl H).
  now destruct value.
Qed.

Lemma extract_phone_without_backslash_witness :
  extract_phone (lit " +1 (555) 010-9999 ") = lit "+1 (555) 010-9999".
Proof.
  apply (extract_phone_without_backslash (lit " +1 (555) 010-9999 ")). reflexivity.
Defined.

Lemma search_not_contained {A : Type} (m : str -> option A) (sub s : str) :
  (forall t, startswith t sub = false -> m t = None) ->
  contains s sub = false ->
  search m s = None.
Proof.
  intros Hm. induction s as [|c s IH]; intros H.
  - cbn [search]. now rewrite (Hm [] (contains_head _ _ H)).
  - cbn [search]. rewrite (Hm _ (contains_head _ _ H)).
    apply IH. eapply contains_tail; eauto.
Qed.

Lemma search_none_closed {A : Type} (m : str -> option A) (q : char -> bool) (s : str) :
  (forall t, forallb q t = true -> m t = None) ->
  forallb q s = true ->
  search m s = None.
Proof.
  intros Hm. induction s as [|c s IH]; intros H.
  - cbn [search]. now rewrite (Hm [] H).
  - cbn [search]. rewrite (Hm _ H). apply IH.
    cbn [forallb] in H. now apply andb_true_iff in H as [_ H].
Qed.

Lemma mailto_at_other (t : str) :
  startswith t (lit "mailto:") = false -> mailto_at t = None.
Proof. intros H. unfold mailto_at. now rewrite H. Qed.

Lemma email_at_no_backslash (t : str) :
  free_of 92 t = true -> email_at t = None.
Proof.
  unfold free_of, email_at. intros H.
  pose proof (span_eq (fun d => is_alnum d || (d =? 46) || (d =? 95) || (d =? 37)
                                || (d =? 43) || (d =? 45)) t) as E1.
  destruct (span _ t) as [local r1]. cbn [fst snd] in E1.
  destruct local as [|l0 local]; [reflexivity|].
  destruct r1 as [|at_sign r2]; [reflexivity|].
  destruct (at_sign =? 64); [|reflexivity].
  pose proof (span_eq (fun d => is_alnum d || (d =? 46) || (d =? 45)) r2) as E2.
  destruct (span _ r2) as [domain r3]. cbn [fst snd] in E2.
  destruct domain as [|d0 domain]; [reflexivity|].
  destruct r3 as [|b [|x r4]]; [reflexivity|reflexivity|].
  subst t r2. rewrite forallb_app in H. apply andb_true_iff in H as [_ H].
  cbn [forallb] in H. apply andb_true_iff in H as [_ H].
  rewrite forallb_app in H. apply andb_true_iff in H as [_ H].
  cbn [forallb] in H. apply andb_true_iff in H as [Hb _].
  apply negb_true_iff in Hb. now rewrite Hb.
Qed.

(** X13.  The e-mail pattern asks for a backslash after the domain, so
    on a value without backslash it never matches: unless the value is
    empty or holds a mailto link, [extract_email] ends in
    [value.split()[0]].  With a visible character in the value that is
    its first word, whatever that word is; with nothing but whitespace
    the index is out of range and [IndexError] is raised. *)
Theorem extract_email_without_backslash (value : str) :
  free_of 92 value = true ->
  contains value (lit "mailto:") = false ->
  nonempty value = true ->
  extract_email value = first_word value
  /\ (has_visible value = true ->
      exists w rest, split_ws value = w :: rest /\ extract_email value = Some w)
  /\ (has_visible value = false -> extract_email value = None).
Proof.
  intros Hb Hm Hne.
  assert (E : extract_email value = first_word value).
  { unfold extract_email.
    rewrite (search_not_contained mailto_at _ _ mailto_at_other Hm).
    rewrite (search_none_closed email_at _ _ email_at_no_backslash Hb).
    now rewrite Hne. }
  split; [exact E|]. rewrite E. split.
  - intros Hv. unfold first_word.
    destruct (split_ws value) as [|w rest] eqn:Es; [now apply split_ws_visible in Hv|].
    now exists w, rest.
  - apply first_word_blank.
Qed.

Lemma extract_email_without_backslash_witness :
  extract_email (lit "Write to help@example.com please") = Some (lit "Write")
  /\ extract_email (lit " ") = None.
Proof.
  split.
  - apply (proj1 (extract_email_without_backslash (lit "Write to help@example.com please")
                    eq_refl eq_refl eq_refl)).
  - apply (proj2 (proj2 (extract_email_without_backslash (lit " ")
                           eq_refl eq_refl eq_refl)) eq_refl).
Defined.

End ExtractFacts.

(** ** [split_name] and the words of a name *)

Module NameFacts.
Import Py Re Metadata Specs MoreSpecs Samples PyFacts MetadataFacts.

Lemma split_ws_word_app (w s : str) :
  word w -> starts_blank s = true -> split_ws (w ++ s) = w :: split_ws s.
Proof.
  intros [Hne Hw] Hs. induction Hw as [|c w Hc Hw IH]; [contradiction|].
  cbn [app split_ws]. rewrite Hc.
  destruct w as [|d w].
  - cbn [app]. destruct s as [|x s]; [reflexivity|].
    cbn [starts_blank] in Hs. now rewrite Hs.
  - cbn [app]. inversion Hw as [|? ? Hd _]; subst. rewrite Hd.
    change (d :: w ++ s) with ((d :: w) ++ s).
    now rewrite IH by discriminate.
Qed.

Lemma join_cons2_space (x y : str) (r : list str) :
  join (lit " ") (x :: y :: r) = x ++ 32 :: join (lit " ") (y :: r).
Proof. reflexivity. Qed.

Lemma split_ws_join (ws : list str) :
  Forall word ws -> split_ws (join (lit " ") ws) = ws.
Proof.
  induction 1 as [|w ws Hw Hws IH]; [reflexivity|].
  destruct ws as [|y ws].
  - cbn [join]. rewrite <- (app_nil_r w) at 1.
    now rewrite split_ws_word_app.
  - rewrite join_cons2_space.
    rewrite split_ws_word_app by (exact Hw || reflexivity).
    f_equal. exact IH.
Qed.

(** X14.  The first name [split_name] gives holds no whitespace, and
    the result depends on the words of the name only: a name rewritten
    with single spaces between its words gives the same two names. *)
Theorem split_name_sees_words_only (full_name : str) :
  forallb (fun c => negb (isspace c)) (fst (split_name full_name)) = true
  /\ split_name (join (lit " ") (split_ws full_name)) = split_name full_name.
Proof.
  pose proof (split_ws_words full_name) as W.
  split.
  - unfold split_name. rewrite split_name_parts.
    destruct (split_ws full_name) as [|p [|q rest]]; [reflexivity| |];
      inversion W as [|? ? [_ Hp] _]; subst; cbn [fst];
      apply forallb_forall; intros c Hc; rewrite Forall_forall in Hp;
      now rewrite (Hp c Hc).
  - unfold split_name. rewrite !split_name_parts. now rewrite split_ws_join.
Qed.

End NameFacts.

(** ** [extract_subsection] *)

Module SubsectionFacts.
Import Py Re Metadata MetadataMain Specs MoreSpecs Samples PyFacts.

Lemma extract_subsection_loops (lower : str -> str) (lines : list str) (heading : str) :
  extract_subsection lower lines heading
  = match after_marker lower (lower (strip (lit "### " ++ heading))) lines with
    | None => []
    | Some tail => rev (drop_blank_front (rev (drop_blank_front (block_until tail))))
    end.
Proof. reflexivity. Qed.

Lemma after_marker_suffix (lower : str -> str) (marker : str) (ls tail : list str) :
  after_marker lower marker ls = Some tail -> forall l, In l tail -> In l ls.
Proof.
  induction ls as [|x ls IH]; cbn [after_marker]; [discriminate|].
  destruct (str_eqb (lower (strip x)) marker).
  - intros [= ->] l Hl. now right.
  - intros H l Hl. right. eapply IH; eauto.
Qed.

Lemma block_until_spec (ls : list str) :
  forallb (fun l => negb (startswith l (lit "### "))) (block_until ls) = true
  /\ forall l, In l (block_until ls) -> In l ls.
Proof.
  induction ls as [|x ls [IH1 IH2]]; [split; [reflexivity|auto]|].
  cbn [block_until]. destruct (startswith x (lit "### ")) eqn:E.
  - split; [reflexivity|intros l []].
  - split; [cbn [forallb]; now rewrite E|].
    intros l [->|H]; [now left|right; auto].
Qed.

Lemma drop_blank_front_spec (ls : list str) :
  first_visible (drop_blank_front ls) = true
  /\ exists gone, ls = gone ++ drop_blank_front ls.
Proof.
  induction ls as [|x ls [IH1 [gone IH2]]]; [split; [reflexivity|now exists []]|].
  cbn [drop_blank_front]. destruct (nonempty (strip x)) eqn:E; cbn [negb].
  - split; [exact E|now exists []].
  - split; [exact IH1|]. exists (x :: gone). cbn [app]. now f_equal.
Qed.

Lemma drop_blank_front_keeps_last (ls : list str) (h : str) :
  visible_line h = true ->
  drop_blank_front (ls ++ [h]) = drop_blank_front ls ++ [h].
Proof.
  intros Hh. induction ls as [|x ls IH]; cbn [app drop_blank_front].
  - unfold visible_line in Hh. now rewrite Hh.
  - destruct (nonempty (strip x)); cbn [negb]; [reflexivity|exact IH].
Qed.

(** Dropping the blank lines at the end leaves the first line in
    place when it is visible. *)
Lemma trim_back_first (ls : list str) :
  first_visible ls = true ->
  first_visible (rev (drop_blank_front (rev ls))) = true.
Proof.
  destruct ls as [|h t]; [reflexivity|]. cbn [first_visible rev]. intros Hh.
  rewrite (drop_blank_front_keeps_last _ h Hh), rev_app_distr. exact Hh.
Qed.

(** X15.  What [extract_subsection] gives holds no line that starts a
    subsection, begins and ends with a line that is not blank (when it
    is not empty), and is made of lines of the section; without the
    sub-heading in the section, it is empty. *)
Theorem subsection_is_trimmed_block
  (lower : str -> str) (lines : list str) (heading : str) :
  forallb (fun l => negb (startswith l (lit "### ")))
          (extract_subsection lower lines heading) = true
  /\ first_visible (extract_subsection lower lines heading) = true
  /\ first_visible (rev (extract_subsection lower lines heading)) = true
  /\ (forall l, In l (extract_subsection lower lines heading) -> In l lines)
  /\ (after_marker lower (lower (strip (lit "### " ++ heading))) lines = None ->
      extract_subsection lower lines heading = []).
Proof.
  rewrite extract_subsection_loops.
  destruct (after_marker lower (lower (strip (lit "### " ++ heading))) lines)
    as [tail|] eqn:E.
  2:{ repeat split; auto. intros l []. }
  destruct (block_until_spec tail) as [B1 B2].
  destruct (drop_blank_front_spec (block_until tail)) as [F1 [g1 F2]].
  destruct (drop_blank_front_spec (rev (drop_blank_front (block_until tail))))
    as [R1 [g2 R2]].
  assert (Hsub : forall l,
             In l (rev (drop_blank_front (rev (drop_blank_front (block_until tail))))) ->
             In l (block_until tail)).
  { intros l Hl. rewrite F2. apply in_or_app. right.
    apply in_rev. rewrite R2. apply in_or_app. right. now apply in_rev. }
  split; [|split; [|split; [|split]]].
  - apply forallb_forall. intros l Hl. rewrite forallb_forall in B1. auto.
  - now apply trim_back_first.
  - now rewrite rev_involutive.
  - intros l Hl. eapply after_marker_suffix; eauto.
  - discriminate.
Qed.

End SubsectionFacts.

(** ** Runs of the metadata script that reach the writing loops *)

Module MainRunFacts.
Import Py Re Metadata Run MetadataMain Specs MoreSpecs Samples MoreSamples PyFacts.
Import NormalizeFacts AsciiizeFacts BulletFacts ExtractFacts MainFacts MetadataFacts.
Import FirstWordFacts.

Lemma asciiize_nonempty (v : str) : nonempty v = true -> nonempty (asciiize v) = true.
Proof.
  intros H. pose proof (asciiize_length v) as L.
  destruct v; [discriminate H|]. destruct (asciiize (n :: v)); [cbn in L; lia|reflexivity].
Qed.

Lemma require_inr (mapping : dict str) (k v : str) :
  require mapping k = inr v ->
  nonempty v = true /\ has_visible v = true
  /\ exists v0, get mapping k = Some v0 /\ v = strip v0.
Proof.
  unfold require. destruct (get mapping k) as [v0|]; [|discriminate].
  destruct (nonempty (strip v0)) eqn:E; [|discriminate].
  intros [= <-]. split; [exact E|]. split; [|eauto].
  apply strip_visible. now rewrite <- nonempty_strip.
Qed.

Lemma write_files_all (d : target) (complaint : str) (files : list (str * str)) :
  forallb (fun fc => nonempty (snd fc)) files = true ->
  write_files d complaint files
  = (map (fun fc => WriteText d (fst fc) (strip (snd fc) ++ [NL])) files, Continue tt).
Proof.
  induction files as [|[f c] files IH]; intros H; [reflexivity|].
  cbn [forallb snd] in H. apply andb_true_iff in H as [Hc H].
  cbn [write_files]. rewrite Hc, (IH H). reflexivity.
Qed.

Lemma review_first_missing (review_info : dict str) :
  match first_missing review_info REVIEW_FIELDS with
  | Some k => review_fields review_info = inl k
  | None => exists v, review_fields review_info = inr v
  end.
Proof.
  unfold first_missing, REVIEW_FIELDS, review_fields.
  cbn [find]. rewrite !require_field.
  repeat match goal with
         | |- context [field_missing ?m ?k] => destruct (field_missing m k); cbn [try_bind]
         end; eauto.
Qed.

Section WithRuntime.

Variable lower : str -> str.
Variable SOURCE : str.

(** What the checks before the first output give when they all pass. *)
Lemma structure_valid_fields (text : str) :
  structure_valid text = true ->
  missing_sections (parse_sections text) = []
  /\ (exists r, release_key (parse_sections text) = Some r)
  /\ (exists v, quick_ref_fields (quick_ref_of text) = inr v)
  /\ (exists v, url_fields (urls_of text) = inr v).
Proof.
  unfold structure_valid. intros H.
  repeat (apply andb_true_iff in H as [H ?]).
  split; [now destruct (missing_sections (parse_sections text))|].
  split; [destruct (release_key (parse_sections text)); [eauto|discriminate]|].
  pose proof (quick_ref_first_missing (quick_ref_of text)) as Hq.
  pose proof (url_first_missing (urls_of text)) as Hu.
  destruct (first_missing (quick_ref_of text) QUICK_REFERENCE_FIELDS); [discriminate|].
  destruct (first_missing (urls_of text) URL_FIELDS); [discriminate|].
  split; assumption.
Qed.

Lemma quick_ref_values (quick_ref : dict str) (n s p c : str) :
  quick_ref_fields quick_ref = inr (n, s, p, c) ->
  nonempty n = true /\ nonempty s = true /\ nonempty p = true /\ nonempty c = true
  /\ require quick_ref (lit "Name") = inr n.
Proof.
  unfold quick_ref_fields, try_bind.
  destruct (require quick_ref (lit "Name")) as [|n'] eqn:E1; [discriminate|].
  destruct (require quick_ref (lit "Subtitle")) as [|s'] eqn:E2; [discriminate|].
  destruct (require quick_ref (lit "Primary Category")) as [|p'] eqn:E3; [discriminate|].
  destruct (require quick_ref (lit "Secondary Category")) as [|c'] eqn:E4; [discriminate|].
  intros [= <- <- <- <-].
  repeat split; try reflexivity;
    [apply (require_inr _ _ _ E1)|apply (require_inr _ _ _ E2)
    |apply (require_inr _ _ _ E3)|apply (require_inr _ _ _ E4)].
Qed.

Lemma url_values (urls : dict str) (m s p : str) :
  url_fields urls = inr (m, s, p) ->
  nonempty m = true /\ nonempty s = true /\ nonempty p = true.
Proof.
  unfold url_fields, try_bind, key_error, index_error.
  destruct (require urls (lit "Marketing URL")) as [|m'] eqn:E1; [discriminate|].
  destruct (extract_url_visible m' (require_visible _ _ _ E1)) as (u1 & -> & H1).
  destruct (require urls (lit "Support URL")) as [|s'] eqn:E2; [discriminate|].
  destruct (extract_url_visible s' (require_visible _ _ _ E2)) as (u2 & -> & H2).
  destruct (require urls (lit "Privacy Policy URL")) as [|p'] eqn:E3; [discriminate|].
  destruct (extract_url_visible p' (require_visible _ _ _ E3)) as (u3 & -> & H3).
  intros [= <- <- <-].
  repeat split; now apply nonempty_true.
Qed.

(** The run up to the end of the first writing loop; [rest] stands for
    what [main] does after it. *)
Lemma first_loop_writes_all (d : target) (complaint : str) (files : list (str * str))
  (rest : M Z) :
  forallb (fun fc => nonempty (snd fc)) files = true ->
  (emit (Mkdir d) ;;; write_files d complaint files ;;; rest)
  = (Mkdir d :: map (fun fc => WriteText d (fst fc) (strip (snd fc) ++ [NL])) files
       ++ fst rest,
     snd rest).
Proof.
  intros H. rewrite (write_files_all d complaint files H).
  destruct rest as [log o]. reflexivity.
Qed.

Lemma written_writes (d : target) (files : list (str * str)) (log : list event) :
  written (map (fun fc => WriteText d (fst fc) (strip (snd fc) ++ [NL])) files ++ log)
  = map (fun fc => (d, fst fc, strip (snd fc) ++ [NL])) files ++ written log.
Proof.
  unfold written. rewrite flat_map_app. f_equal.
  induction files as [|fc files IH]; [reflexivity|].
  cbn [map flat_map app]. now rewrite IH.
Qed.

Lemma stderr_writes (d : target) (files : list (str * str)) (log : list event) :
  stderr (map (fun fc => WriteText d (fst fc) (strip (snd fc) ++ [NL])) files ++ log)
  = stderr log.
Proof.
  unfold stderr. rewrite flat_map_app.
  induction files as [|fc files IH]; [reflexivity|].
  cbn [map flat_map app]. exact IH.
Qed.

Ltac enter_first_loop text H Hbody :=
  destruct (structure_valid_fields text H)
    as (H1 & [r H2] & [[[[n s] p] c] Hq] & [[[m su] pr] Hu]);
  destruct (quick_ref_values _ _ _ _ _ Hq) as (Hn & Hs & Hp & Hc & Hname);
  destruct (url_values _ _ _ _ Hu) as (Hm & Hsu & Hpr);
  unfold body_texts, release_section in Hbody; rewrite H2 in Hbody;
  cbn [forallb] in Hbody;
  apply andb_true_iff in Hbody as [Hb1 Hbody];
  apply andb_true_iff in Hbody as [Hb2 Hbody];
  apply andb_true_iff in Hbody as [Hb3 Hbody];
  apply andb_true_iff in Hbody as [Hb4 _];
  unfold main; rewrite H1, H2;
  unfold quick_ref_of in Hq; rewrite Hq;
  unfold urls_of in Hu; rewrite Hu;
  rewrite first_loop_writes_all
    by (cbn [forallb snd];
        rewrite ?asciiize_nonempty by assumption;
        rewrite Hb1, Hb2, Hb3, Hb4; reflexivity).

(** X16.  A document that passes the checks on its structure, whose
    four body texts are not empty and which has no review information
    ends with exit code 0 and no message on the error stream; the
    eleven metadata files are written, in the fixed order, and nothing
    else; the one line on the standard output lists their names in
    sorted order; the file of the name holds the value of the Name
    field, made ASCII, and a line feed. *)
Theorem complete_document_written (text : str) :
  structure_valid text = true ->
  forallb nonempty (body_texts text) = true ->
  review_info_of text = [] ->
  exit_code (main lower SOURCE (Some text)) = 0%Z
  /\ stderr (fst (main lower SOURCE (Some text))) = []
  /\ stdout (fst (main lower SOURCE (Some text)))
     = [lit "Wrote fastlane metadata files: " ++ join (lit ", ") SORTED_METADATA_FILES]
  /\ map file_of (written (fst (main lower SOURCE (Some text))))
     = map (pair OUTPUT_DIR) METADATA_FILES
  /\ (forall v, get (quick_ref_of text) (lit "Name") = Some v ->
      In (OUTPUT_DIR, lit "name.txt", strip (asciiize (strip v)) ++ [NL])
         (written (fst (main lower SOURCE (Some text))))).
Proof.
  intros H Hbody Hrev.
  enter_first_loop text H Hbody.
  unfold review_info_of in Hrev. rewrite Hrev.
  cbn [review_block nonempty bind ret emit exit fst snd app exit_code].
  split; [reflexivity|].
  split; [reflexivity|].
  split; [reflexivity|].
  split; [reflexivity|].
  intros v Hv.
  destruct (require_inr _ _ _ Hname) as (_ & _ & v0 & Hv0 & ->).
  rewrite Hv in Hv0. injection Hv0 as <-. left. reflexivity.
Qed.

(** X17.  With the same document but review information that lacks a
    required contact field, the run ends with exit code 1 and names the
    first missing contact field, after it has written all eleven
    metadata files: the review information is checked after the first
    writing loop. *)
Theorem review_checked_after_metadata (text k : str) :
  structure_valid text = true ->
  forallb nonempty (body_texts text) = true ->
  nonempty (review_info_of text) = true ->
  first_missing (review_info_of text) REVIEW_FIELDS = Some k ->
  exit_code (main lower SOURCE (Some text)) = 1%Z
  /\ stderr (fst (main lower SOURCE (Some text)))
     = [lit "Missing Review Information field: " ++ k]
  /\ map file_of (written (fst (main lower SOURCE (Some text))))
     = map (pair OUTPUT_DIR) METADATA_FILES.
Proof.
  intros H Hbody Hne Hk.
  enter_first_loop text H Hbody.
  pose proof (review_first_missing (review_info_of text)) as Hr.
  rewrite Hk in Hr. unfold review_info_of in Hne, Hr.
  unfold review_block. rewrite Hne, Hr.
  cbn [bind ret emit exit fst snd app exit_code].
  repeat split; reflexivity.
Qed.

Lemma review_email_visible (review_info : dict str) (n e p : str) :
  review_fields review_info = inr (n, e, p) -> has_visible e = true.
Proof.
  unfold review_fields, try_bind. intros H.
  destruct (require review_info (lit "Contact Name")) as [|n'] eqn:E1; [discriminate|].
  destruct (require review_info (lit "Contact Email")) as [|e'] eqn:E2; [discriminate|].
  destruct (require review_info (lit "Contact Phone")) as [|p'] eqn:E3; [discriminate|].
  injection H as <- <- <-. exact (require_visible _ _ _ E2).
Qed.

Lemma review_values (review_info : dict str) (n e p name : str) :
  review_fields review_info = inr (n, e, p) ->
  get review_info (lit "Contact Name") = Some name ->
  n = strip name.
Proof.
  unfold review_fields, try_bind. intros H Hget.
  destruct (require review_info (lit "Contact Name")) as [|n'] eqn:E1; [discriminate|].
  destruct (require review_info (lit "Contact Email")) as [|e'] eqn:E2; [discriminate|].
  destruct (require review_info (lit "Contact Phone")) as [|p'] eqn:E3; [discriminate|].
  injection H as <- <- <-.
  destruct (require_inr _ _ _ E1) as (_ & _ & v0 & Hv0 & ->).
  rewrite Hget in Hv0. now injection Hv0 as <-.
Qed.

Lemma ascii_subst_visible (c : char) :
  isspace c = false -> Forall (fun d => isspace d = false) (ascii_subst c).
Proof.
  intros H. unfold ascii_subst.
  repeat match goal with
         | |- context [c =? ?k] =>
             destruct (c =? k) eqn:?E;
             [apply N.eqb_eq in E; subst c;
              first [discriminate H | repeat constructor]|clear E]
         end.
  constructor; [exact H|constructor].
Qed.

Lemma asciiize_word (w : str) :
  Forall (fun c => isspace c = false) w ->
  Forall (fun c => isspace c = false) (asciiize w).
Proof.
  rewrite asciiize_flat_map. induction 1 as [|c w Hc _ IH]; [constructor|].
  cbn [flat_map]. apply Forall_app. split; [now apply ascii_subst_visible|exact IH].
Qed.

Lemma stderr_app (a b : list event) : stderr (a ++ b) = stderr a ++ stderr b.
Proof. apply flat_map_app. Qed.

Lemma written_app (a b : list event) : written (a ++ b) = written a ++ written b.
Proof. apply flat_map_app. Qed.

(** X18.  When the contact name of the review information is a single
    word, the last name is empty: the run writes the eleven metadata
    files and the file of the first name, then ends with exit code 1
    and the message that names the file of the last name. *)
Theorem single_word_contact_name_rejected (text name w : str) :
  structure_valid text = true ->
  forallb nonempty (body_texts text) = true ->
  first_missing (review_info_of text) REVIEW_FIELDS = None ->
  get (review_info_of text) (lit "Contact Name") = Some name ->
  split_ws (strip_markdown (strip name)) = [w] ->
  exit_code (main lower SOURCE (Some text)) = 1%Z
  /\ stderr (fst (main lower SOURCE (Some text)))
     = [lit "Missing content for review information last_name.txt"]
  /\ map file_of (written (fst (main lower SOURCE (Some text))))
     = map (pair OUTPUT_DIR) METADATA_FILES ++ [(REVIEW_INFO_DIR, lit "first_name.txt")]
  /\ In (REVIEW_INFO_DIR, lit "first_name.txt", asciiize w ++ [NL])
        (written (fst (main lower SOURCE (Some text)))).
Proof.
  intros H Hbody Hk Hget Hw.
  enter_first_loop text H Hbody.
  pose proof (review_first_missing (review_info_of text)) as Hr.
  rewrite Hk in Hr. destruct Hr as [[[cn ce] cp] Hr].
  pose proof (review_values _ _ _ _ _ Hr Hget) as ->.
  assert (Hne : nonempty (review_info_of text) = true).
  { destruct (review_info_of text); [discriminate Hget|reflexivity]. }
  destruct (extract_email_visible ce (review_email_visible _ _ _ _ Hr)) as (em & Hem & _).
  unfold review_info_of in Hne, Hr.
  unfold review_block. rewrite Hne, Hr, Hem.
  unfold split_name. rewrite split_name_parts, Hw.
  pose proof (split_ws_words (strip_markdown (strip name))) as W.
  rewrite Hw in W. inversion W as [|? ? Hword _]; subst.
  assert (Hfirst : nonempty (asciiize w) = true).
  { apply asciiize_nonempty, nonempty_true, Hword. }
  assert (Hstrip : strip (asciiize w) = asciiize w).
  { apply strip_by_clean, asciiize_word, Hword. }
  cbn [bind ret emit exit fst snd app nonempty write_files exit_code].
  rewrite Hfirst.
  change (nonempty (asciiize [])) with false.
  cbn [bind ret emit exit fst snd app nonempty write_files exit_code].
  rewrite Hstrip.
  split; [reflexivity|].
  split; [reflexivity|].
  split; [reflexivity|].
  cbn [written flat_map app]. do 11 right. left. reflexivity.
Qed.

Lemma review_values_all (review_info : dict str) (n e p name phone : str) :
  review_fields review_info = inr (n, e, p) ->
  get review_info (lit "Contact Name") = Some name ->
  get review_info (lit "Contact Phone") = Some phone ->
  n = strip name /\ p = strip phone /\ has_visible e = true.
Proof.
  unfold review_fields, try_bind. intros H Hn Hp.
  destruct (require review_info (lit "Contact Name")) as [|n'] eqn:E1; [discriminate|].
  destruct (require review_info (lit "Contact Email")) as [|e'] eqn:E2; [discriminate|].
  destruct (require review_info (lit "Contact Phone")) as [|p'] eqn:E3; [discriminate|].
  injection H as <- <- <-.
  destruct (require_inr _ _ _ E1) as (_ & _ & v1 & Hv1 & ->).
  destruct (require_inr _ _ _ E2) as (_ & He & _).
  destruct (require_inr _ _ _ E3) as (_ & _ & v3 & Hv3 & ->).
  rewrite Hn in Hv1. rewrite Hp in Hv3.
  injection Hv1 as <-. injection Hv3 as <-. auto.
Qed.

Lemma extract_phone_visible (value : str) :
  has_visible value = true -> extract_phone value <> [].
Proof.
  intros H. unfold extract_phone.
  destruct value as [|c0 v0]; [discriminate H|]. cbn [nonempty].
  destruct (search phone_at (c0 :: v0)) as [g0|] eqn:E.
  - destruct (search_some _ _ _ E) as (pre & suf & _ & Hm).
    apply nonempty_true. rewrite nonempty_strip.
    unfold phone_at in Hm. destruct (span (N.eqb 92) suf) as [slashes r1] eqn:Es.
    destruct (2 <=? List.length slashes)%nat eqn:El; [|discriminate].
    destruct r1 as [|d r2]; [discriminate|].
    destruct (d =? 100); [|discriminate].
    destruct (span _ r2) as [body r3].
    destruct (6 <=? List.length body)%nat; [|discriminate].
    injection Hm as <-.
    pose proof (span_fst_all (N.eqb 92) suf) as Hall. rewrite Es in Hall. cbn [fst] in Hall.
    destruct slashes as [|s0 sl]; [discriminate El|].
    cbn [forallb] in Hall. apply andb_true_iff in Hall as [Hs0 _].
    apply N.eqb_eq in Hs0. subst s0. reflexivity.
  - apply nonempty_true. now rewrite nonempty_strip.
Qed.

Lemma join_word_nonempty (w : str) (ws : list str) :
  word w -> nonempty (join (lit " ") (w :: ws)) = true.
Proof.
  intros [Hne _]. destruct w as [|c w]; [contradiction|].
  destruct ws; reflexivity.
Qed.

(** X19.  A document that passes the checks on its structure, with
    non-empty body texts and review information whose three contact
    fields are present, whose contact name has two or more words and
    whose phone value keeps a visible character without its markdown
    emphasis, ends with exit code 0: after the eleven metadata files
    the run writes the four contact files, and the notes file when
    there are notes, and prints the sorted names of the review
    information files before those of the metadata files.  The first
    word of the name is the first name, the other words joined by
    single spaces are the last name. *)
Theorem review_files_written (text name phone f l : str) (ls : list str) :
  structure_valid text = true ->
  forallb nonempty (body_texts text) = true ->
  first_missing (review_info_of text) REVIEW_FIELDS = None ->
  get (review_info_of text) (lit "Contact Name") = Some name ->
  get (review_info_of text) (lit "Contact Phone") = Some phone ->
  split_ws (strip_markdown (strip name)) = f :: l :: ls ->
  has_visible (strip_markdown (strip phone)) = true ->
  exit_code (main lower SOURCE (Some text)) = 0%Z
  /\ stderr (fst (main lower SOURCE (Some text))) = []
  /\ stdout (fst (main lower SOURCE (Some text)))
     = [ lit "Wrote fastlane review information files: "
           ++ join (lit ", ") (SORTED_REVIEW_FILES (has_notes lower text));
         lit "Wrote fastlane metadata files: " ++ join (lit ", ") SORTED_METADATA_FILES ]
  /\ map file_of (written (fst (main lower SOURCE (Some text))))
     = map (pair OUTPUT_DIR) METADATA_FILES
       ++ map (pair REVIEW_INFO_DIR) (REVIEW_FILES (has_notes lower text))
  /\ In (REVIEW_INFO_DIR, lit "first_name.txt", asciiize f ++ [NL])
        (written (fst (main lower SOURCE (Some text))))
  /\ In (REVIEW_INFO_DIR, lit "last_name.txt",
         strip (asciiize (join (lit " ") (l :: ls))) ++ [NL])
        (written (fst (main lower SOURCE (Some text)))).
Proof.
  intros H Hbody Hk Hcn Hcp Hw Hvis.
  enter_first_loop text H Hbody.
  pose proof (review_first_missing (review_info_of text)) as Hr.
  rewrite Hk in Hr. destruct Hr as [[[cn ce] cp] Hr].
  destruct (review_values_all _ _ _ _ _ _ Hr Hcn Hcp) as (-> & -> & He).
  assert (Hne : nonempty (review_info_of text) = true).
  { destruct (review_info_of text); [discriminate Hcn|reflexivity]. }
  destruct (extract_email_visible ce (review_email_visible _ _ _ _ Hr)) as (em & Hem & Hem0).
  unfold review_info_of in Hne, Hr.
  unfold review_block. rewrite Hne, Hr, Hem.
  unfold split_name. rewrite split_name_parts, Hw.
  pose proof (split_ws_words (strip_markdown (strip name))) as W.
  rewrite Hw in W. inversion W as [|? ? Hf W']; subst.
  inversion W' as [|? ? Hl _]; subst.
  assert (Hfirst : nonempty (asciiize f) = true).
  { apply asciiize_nonempty, nonempty_true, Hf. }
  assert (Hstrip : strip (asciiize f) = asciiize f).
  { apply strip_by_clean, asciiize_word, Hf. }
  assert (Hlast : nonempty (asciiize (join (lit " ") (l :: ls))) = true).
  { apply asciiize_nonempty, join_word_nonempty, Hl. }
  assert (Hemail : nonempty (asciiize em) = true).
  { apply asciiize_nonempty, nonempty_true, Hem0. }
  assert (Hph : nonempty (asciiize (extract_phone (strip_markdown (strip phone)))) = true).
  { apply asciiize_nonempty, nonempty_true, extract_phone_visible, Hvis. }
  unfold has_notes, review_info_of, review_section_of.
  destruct (nonempty (review_notes lower _ _)) eqn:En.
  - cbn [bind ret emit exit fst snd app nonempty exit_code].
    rewrite write_files_all
      by (cbn [forallb snd]; rewrite Hfirst, Hlast, Hemail, Hph, (asciiize_nonempty _ En);
          reflexivity).
    cbn [bind ret emit exit fst snd app nonempty exit_code map].
    rewrite Hstrip.
    split; [reflexivity|]. split; [reflexivity|]. split; [reflexivity|].
    split; [reflexivity|].
    split; cbn [written flat_map app]; [do 11 right; left; reflexivity|].
    do 12 right; left; reflexivity.
  - cbn [bind ret emit exit fst snd app nonempty exit_code].
    rewrite write_files_all
      by (cbn [forallb snd]; rewrite Hfirst, Hlast, Hemail, Hph; reflexivity).
    cbn [bind ret emit exit fst snd app nonempty exit_code map].
    rewrite Hstrip.
    split; [reflexivity|]. split; [reflexivity|]. split; [reflexivity|].
    split; [reflexivity|].
    split; cbn [written flat_map app]; [do 11 right; left; reflexivity|].
    do 12 right; left; reflexivity.
Qed.

(** *** No run ends with an exception *)






End WithRuntime.

Lemma complete_document_written_witness :
  exit_code (main ascii_lower SOURCE_PATH (Some complete_document)) = 0%Z
  /\ stderr (fst (main ascii_lower SOURCE_PATH (Some complete_document))) = []
  /\ stdout (fst (main ascii_lower SOURCE_PATH (Some complete_document)))
     = [lit "Wrote fastlane metadata files: " ++ join (lit ", ") SORTED_METADATA_FILES]
  /\ map file_of (written (fst (main ascii_lower SOURCE_PATH (Some complete_document))))
     = map (pair OUTPUT_DIR) METADATA_FILES
  /\ (forall v, get (quick_ref_of complete_document) (lit "Name") = Some v ->
      In (OUTPUT_DIR, lit "name.txt", strip (asciiize (strip v)) ++ [NL])
         (written (fst (main ascii_lower SOURCE_PATH (Some complete_document))))).
Proof.
  apply (complete_document_written ascii_lower SOURCE_PATH complete_document);
    reflexivity.
Defined.

Lemma review_checked_after_metadata_witness :
  exit_code (main ascii_lower SOURCE_PATH (Some review_without_phone)) = 1%Z
  /\ stderr (fst (main ascii_lower SOURCE_PATH (Some review_without_phone)))
     = [lit "Missing Review Information field: " ++ lit "Contact Phone"]
  /\ map file_of (written (fst (main ascii_lower SOURCE_PATH (Some review_without_phone))))
     = map (pair OUTPUT_DIR) METADATA_FILES.
Proof.
  apply (review_checked_after_metadata ascii_lower SOURCE_PATH review_without_phone
           (lit "Contact Phone"));
    reflexivity.
Defined.

Lemma single_word_contact_name_rejected_witness :
  exit_code (main ascii_lower SOURCE_PATH (Some review_with_one_name)) = 1%Z
  /\ stderr (fst (main ascii_lower SOURCE_PATH (Some review_with_one_name)))
     = [lit "Missing content for review information last_name.txt"]
  /\ map file_of (written (fst (main ascii_lower SOURCE_PATH (Some review_with_one_name))))
     = map (pair OUTPUT_DIR) METADATA_FILES ++ [(REVIEW_INFO_DIR, lit "first_name.txt")]
  /\ In (REVIEW_INFO_DIR, lit "first_name.txt", asciiize (lit "Ann") ++ [NL])
        (written (fst (main ascii_lower SOURCE_PATH (Some review_with_one_name)))).
Proof.
  apply (single_word_contact_name_rejected ascii_lower SOURCE_PATH review_with_one_name
           (lit "Ann") (lit "Ann"));
    reflexivity.
Defined.

Lemma review_files_written_witness :
  exit_code (main ascii_lower SOURCE_PATH (Some review_complete)) = 0%Z
  /\ stderr (fst (main ascii_lower SOURCE_PATH (Some review_complete))) = []
  /\ stdout (fst (main ascii_lower SOURCE_PATH (Some review_complete)))
     = [ lit "Wrote fastlane review information files: "
           ++ join (lit ", ") (SORTED_REVIEW_FILES (has_notes ascii_lower review_complete));
         lit "Wrote fastlane metadata files: " ++ join (lit ", ") SORTED_METADATA_FILES ]
  /\ map file_of (written (fst (main ascii_lower SOURCE_PATH (Some review_complete))))
     = map (pair OUTPUT_DIR) METADATA_FILES
       ++ map (pair REVIEW_INFO_DIR) (REVIEW_FILES (has_notes ascii_lower review_complete))
  /\ In (REVIEW_INFO_DIR, lit "first_name.txt", asciiize (lit "Ann") ++ [NL])
        (written (fst (main ascii_lower SOURCE_PATH (Some review_complete))))
  /\ In (REVIEW_INFO_DIR, lit "last_name.txt",
         strip (asciiize (join (lit " ") [lit "van"; lit "Lee"])) ++ [NL])
        (written (fst (main ascii_lower SOURCE_PATH (Some review_complete)))).
Proof.
  apply (review_files_written ascii_lower SOURCE_PATH review_complete
           (lit "Ann van Lee") (lit "+1 555 010 0199") (lit "Ann") (lit "van") [lit "Lee"]);
    reflexivity.
Defined.

End MainRunFacts.

(** ** The coverage table *)

Module CoverageFacts.
Import Py Re Portfolio Specs MoreSpecs Samples MoreSamples PyFacts PortfolioFacts NormalizeFacts.

Lemma replace_stars_head (s : str) :
  startswith s [42] = false -> startswith (replace_go [42; 42] [] 0 s) [42] = false.
Proof.
  destruct s as [|c r]; [reflexivity|].
  cbn [startswith replace_go]. rewrite !andb_true_r. intros Hc. rewrite Hc.
  cbn [andb startswith]. now rewrite Hc.
Qed.

Lemma replace_go_here (src dst : str) (c : char) (r : str) :
  replace_go src dst 0 (c :: r)
  = if startswith (c :: r) src
    then dst ++ replace_go src dst (List.length src - 1) r
    else c :: replace_go src dst 0 r.
Proof. reflexivity. Qed.

Lemma replace_stars_free (s : str) :
  contains (replace (lit "**") [] s) (lit "**") = false.
Proof.
  change (lit "**") with [42; 42]. unfold replace.
  induction s as [| c | c d r IHr IHdr] using str_ind2.
  - reflexivity.
  - cbn [replace_go startswith]. rewrite andb_false_r.
    cbn [contains startswith]. now rewrite andb_false_r.
  - rewrite replace_go_here.
    destruct (startswith (c :: d :: r) [42; 42]) eqn:E.
    + exact IHr.
    + cbn [contains]. rewrite IHdr, orb_false_r.
      cbn [startswith] in E |- *. rewrite andb_true_r in E.
      destruct (c =? 42) eqn:Ec; [|reflexivity]. cbn [andb] in E |- *.
      pose proof (replace_stars_head (d :: r)) as Hh.
      cbn [startswith] in Hh. rewrite andb_true_r in Hh. specialize (Hh E).
      destruct (replace_go [42; 42] [] 0 (d :: r)) as [|x y]; [reflexivity|].
      rewrite andb_true_r in Hh. now rewrite Hh.
Qed.

Lemma table_row_ok (line : str) : forallb row_ok (table_row line) = true.
Proof.
  unfold table_row. cbv zeta.
  destruct (map strip (inner (split [PIPE] line))) as [|p0 [|p1 [|p2 ps]]];
    try reflexivity.
  destruct (nonempty p0); [|reflexivity].
  cbn [forallb]. rewrite andb_true_r. unfold row_ok. cbn [feature status details].
  rewrite replace_stars_free. cbn [negb]. rewrite andb_true_r.
  apply andb_true_iff. split.
  - apply Nat.leb_le. rewrite length_firstn. apply Nat.le_min_l.
  - destruct (contains p1 [CHECK_MARK]); [reflexivity|].
    destruct (contains p1 [YELLOW_CIRCLE]); reflexivity.
Qed.

Lemma coverage_go_rows (lines : list str) :
  forall in_table r,
  In r (coverage_go in_table lines) ->
  exists line,
    In line lines /\ is_table_line line = true /\ is_header line = false
    /\ contains line (lit "---") = false /\ In r (table_row line).
Proof.
  unfold is_table_line, is_header.
  induction lines as [|l lines IH]; intros in_table r Hr; [destruct Hr|].
  cbn [coverage_go] in Hr.
  assert (Hrest : forall b, In r (coverage_go b lines) ->
            exists line, In line (l :: lines) /\ startswith line [PIPE] = true
              /\ contains line HEADER_MARKER = false
              /\ contains line (lit "---") = false /\ In r (table_row line)).
  { intros b Hb. destruct (IH b r Hb) as (line & Hin & Hrest). exists line.
    split; [now right|exact Hrest]. }
  destruct (contains l HEADER_MARKER) eqn:Eh; [now apply (Hrest true)|].
  destruct in_table; [|now apply (Hrest false)].
  destruct (startswith l [PIPE]) eqn:Ep.
  - destruct (contains l (lit "---")) eqn:Ed; cbn [negb andb] in Hr.
    + now apply (Hrest true).
    + apply in_app_or in Hr as [Hr|Hr]; [|now apply (Hrest true)].
      exists l. repeat split; auto. now left.
  - cbn [negb andb] in Hr. destruct Hr.
Qed.

(** X20.  Every row of the coverage table has details of at most
    eighty characters, one of the statuses complete, partial and
    pending, and a feature text in which no double star is left; and it
    stems from a line of the content that starts with a bar, holds
    neither the header marker nor three hyphens in a row. *)
Theorem coverage_rows_well_formed (content : str) (r : row) :
  In r (extract_api_coverage content) ->
  row_ok r = true
  /\ exists line,
       In line (split [NL] content)
       /\ is_table_line line = true /\ is_header line = false
       /\ contains line (lit "---") = false
       /\ table_row line = [r].
Proof.
  intros Hr. unfold extract_api_coverage in Hr.
  destruct (coverage_go_rows _ _ _ Hr) as (line & Hin & Ht & Hh & Hd & Hrow).
  pose proof (table_row_ok line) as Hok.
  assert (Hone : table_row line = [r]).
  { revert Hrow. unfold table_row. cbv zeta.
    destruct (map strip (inner (split [PIPE] line))) as [|p0 [|p1 [|p2 ps]]];
      try (intros []).
    destruct (nonempty p0); [|intros []].
    intros [<-|[]]. reflexivity. }
  split.
  - rewrite Hone in Hok. cbn [forallb] in Hok. now rewrite andb_true_r in Hok.
  - exists line. auto.
Qed.

Lemma coverage_rows_well_formed_witness :
  row_ok (mk_row (lit "Streaming") (lit "pending") (lit "d")) = true
  /\ exists line,
       In line (split [NL] table_with_header)
       /\ is_table_line line = true /\ is_header line = false
       /\ contains line (lit "---") = false
       /\ table_row line = [mk_row (lit "Streaming") (lit "pending") (lit "d")].
Proof.
  apply (coverage_rows_well_formed table_with_header).
  vm_compute. left. reflexivity.
Defined.

(** X21.  A content in which no line holds the header marker gives no
    coverage row, whatever table rows it has. *)
Theorem no_header_no_rows (content : str) :
  forallb (fun l => negb (is_header l)) (split [NL] content) = true ->
  extract_api_coverage content = [].
Proof.
  intros H. unfold extract_api_coverage.
  rewrite <- (app_nil_r (split [NL] content)).
  now rewrite coverage_before_header.
Qed.

Lemma no_header_no_rows_witness : extract_api_coverage table_without_header = [].
Proof. apply (no_header_no_rows table_without_header). reflexivity. Defined.

End CoverageFacts.

(** ** The secret scanner *)

Module ScanFacts.
Import Py Re Run SecretScan Specs MoreSpecs Samples MoreSamples PyFacts.
Import SecretScanFacts BulletFacts.

(** *** [finditer] *)

Lemma finditer_go_sound (m : str -> option nat) (s : str) :
  forall pos k i t,
  In (i, t) (finditer_go m pos k s) ->
  exists j len,
    i = (pos + j)%nat /\ (j < List.length s)%nat
    /\ m (skipn j s) = Some len /\ t = firstn len (skipn j s).
Proof.
  induction s as [|c r IH]; intros pos k i t Hin; [destruct Hin|].
  assert (Hrest : forall k', In (i, t) (finditer_go m (S pos) k' r) ->
            exists j len, i = (pos + j)%nat /\ (j < List.length (c :: r))%nat
              /\ m (skipn j (c :: r)) = Some len /\ t = firstn len (skipn j (c :: r))).
  { intros k' H. destruct (IH _ _ _ _ H) as (j & len & -> & Hj & Hm & ->).
    exists (S j), len. cbn [skipn List.length]. repeat split; auto; lia. }
  cbn [finditer_go] in Hin. destruct k as [|k]; [|now apply (Hrest k)].
  destruct (m (c :: r)) as [len|] eqn:Em; [|now apply (Hrest 0%nat)].
  destruct Hin as [E|Hin]; [|now apply (Hrest (len - 1)%nat)].
  injection E as <- <-. exists 0%nat, len. cbn [skipn List.length].
  repeat split; auto; lia.
Qed.

Lemma finditer_go_complete (m : str -> option nat) (j : nat) :
  forall s pos len,
  (j < List.length s)%nat -> m (skipn j s) = Some len ->
  finditer_go m pos 0 s <> [].
Proof.
  induction j as [|j IH]; intros s pos len Hj Hm;
    (destruct s as [|c r]; [cbn in Hj; lia|]); cbn [finditer_go].
  - cbn [skipn] in Hm. rewrite Hm. discriminate.
  - destruct (m (c :: r)); [discriminate|].
    apply (IH r (S pos) len); [cbn in Hj; lia|exact Hm].
Qed.

Lemma apart_weaken (ms : list (nat * str)) (a b : nat) :
  (b <= a)%nat -> apart a ms = true -> apart b ms = true.
Proof.
  destruct ms as [|[i t] r]; [reflexivity|]. cbn [apart]. intros Hle H.
  apply andb_true_iff in H as [Hi H]. apply Nat.leb_le in Hi.
  rewrite H, andb_true_r. apply Nat.leb_le. lia.
Qed.

Lemma finditer_go_apart (m : str -> option nat) (s : str) :
  forall pos k, apart (pos + k) (finditer_go m pos k s) = true.
Proof.
  induction s as [|c r IH]; intros pos k; [reflexivity|].
  cbn [finditer_go]. destruct k as [|k].
  - destruct (m (c :: r)) as [len|].
    + cbn [apart]. apply andb_true_iff. split; [apply Nat.leb_le; lia|].
      apply (apart_weaken _ (S pos + (len - 1))); [|apply IH].
      pose proof (firstn_le_length len (c :: r)) as L1.
      rewrite length_firstn. lia.
    + apply (apart_weaken _ (S pos + 0)); [lia|apply IH].
  - replace (pos + S k)%nat with (S pos + k)%nat by lia. apply IH.
Qed.

(** *** Line numbers *)

Lemma count_firstn_le {A : Type} (f : A -> bool) (l : list A) :
  forall i j, (i <= j)%nat ->
  (List.length (filter f (firstn i l)) <= List.length (filter f (firstn j l)))%nat.
Proof.
  induction l as [|x l IH]; intros i j Hij.
  - rewrite !firstn_nil. apply Nat.le_refl.
  - destruct i as [|i]; [cbn; lia|]. destruct j as [|j]; [lia|].
    cbn [firstn filter]. specialize (IH i j ltac:(lia)).
    destruct (f x); cbn [List.length]; lia.
Qed.

Lemma line_number_mono (contents : str) (i j : nat) :
  (i <= j)%nat -> (line_number contents i <= line_number contents j)%nat.
Proof.
  intros H. unfold line_number. apply le_n_S. now apply count_firstn_le.
Qed.

Lemma line_number_bounds (contents : str) (i : nat) :
  (1 <= line_number contents i <= List.length (split [NL] contents))%nat.
Proof.
  split; [unfold line_number; lia|].
  rewrite split_char_length.
  rewrite <- (firstn_all contents) at 2.
  destruct (Nat.le_ge_cases i (List.length contents)) as [H|H].
  - apply (line_number_mono contents i (List.length contents) H).
  - unfold line_number. rewrite (firstn_all2 contents) by exact H.
    rewrite firstn_all. apply Nat.le_refl.
Qed.

Lemma sorted_from_weaken (l : list nat) (a b : nat) :
  (b <= a)%nat -> sorted_from a l = true -> sorted_from b l = true.
Proof.
  destruct l as [|x l]; [reflexivity|]. cbn [sorted_from]. intros Hle H.
  apply andb_true_iff in H as [Hx H]. apply Nat.leb_le in Hx.
  rewrite H, andb_true_r. apply Nat.leb_le. lia.
Qed.

Lemma apart_lines (contents l : str) (ms : list (nat * str)) :
  forall from,
  apart from ms = true ->
  sorted_from (line_number contents from)
    (map (fun f : nat * str * str => fst (fst f))
         (map (fun m : nat * str => (line_number contents (fst m), l, snd m)) ms)) = true.
Proof.
  induction ms as [|[i t] ms IH]; intros from H; [reflexivity|].
  cbn [apart] in H. apply andb_true_iff in H as [Hi H]. apply Nat.leb_le in Hi.
  cbn [map fst snd sorted_from]. apply andb_true_iff. split.
  - apply Nat.leb_le. now apply line_number_mono.
  - apply (sorted_from_weaken _ (line_number contents (Nat.max (S i) (i + List.length t)))).
    + apply line_number_mono. lia.
    + now apply IH.
Qed.

Lemma scan_file_by_label (contents : str) :
  scan_file (Some contents)
  = map (fun m => (line_number contents (fst m), lit "openai_key", snd m))
        (finditer openai_at contents)
    ++ map (fun m => (line_number contents (fst m), lit "generic_token", snd m))
           (finditer generic_at contents).
Proof.
  unfold scan_file, SUSPICIOUS_PATTERNS. cbn [flat_map fst snd]. now rewrite app_nil_r.
Qed.

(** X22.  The findings of a file come grouped by pattern, those of the
    key pattern before those of the token pattern, and within one
    pattern in the order of the text: their line numbers start at 1 or
    above and never decrease. *)
Theorem findings_in_text_order (contents : str) :
  scan_file (Some contents)
  = filter (labeled (lit "openai_key")) (scan_file (Some contents))
    ++ filter (labeled (lit "generic_token")) (scan_file (Some contents))
  /\ forall label,
       sorted_from 1 (lines_labeled label (scan_file (Some contents))) = true.
Proof.
  split.
  - rewrite scan_file_by_label, !filter_app, !filter_labeled_map.
    change (str_eqb (lit "openai_key") (lit "openai_key")) with true.
    change (str_eqb (lit "generic_token") (lit "openai_key")) with false.
    change (str_eqb (lit "openai_key") (lit "generic_token")) with false.
    change (str_eqb (lit "generic_token") (lit "generic_token")) with true.
    now rewrite app_nil_r.
  - intros label. unfold lines_labeled.
    rewrite scan_file_by_label, filter_app, !filter_labeled_map.
    change 1%nat with (line_number contents 0).
    destruct (str_eqb (lit "openai_key") label) eqn:E1;
      destruct (str_eqb (lit "generic_token") label) eqn:E2.
    + apply str_eqb_eq in E1, E2. subst label. discriminate E2.
    + rewrite app_nil_r. apply apart_lines. apply (finditer_go_apart _ _ 0 0).
    + cbn [app]. apply apart_lines. apply (finditer_go_apart _ _ 0 0).
    + reflexivity.
Qed.

(** *** What a finding stands for *)

Lemma startswith_prefix (p : str) :
  forall s, startswith s p = true -> s = p ++ skipn (List.length p) s.
Proof.
  induction p as [|x p IH]; intros s H; [reflexivity|].
  destruct s as [|c s]; [discriminate H|]. cbn [startswith] in H.
  apply andb_true_iff in H as [Hc H]. apply N.eqb_eq in Hc. subst c.
  cbn [List.length skipn app]. f_equal. now apply IH.
Qed.

Lemma firstn_app_exact {A : Type} (a b : list A) : firstn (List.length a) (a ++ b) = a.
Proof. induction a as [|x a IH]; [reflexivity|]. cbn [List.length app firstn]. now rewrite IH. Qed.

Lemma openai_at_snippet (s : str) (len : nat) :
  openai_at s = Some len ->
  exists run,
    firstn len s = lit "sk-" ++ run
    /\ forallb is_alnum run = true /\ (24 <= List.length run)%nat.
Proof.
  unfold openai_at. destruct (startswith s (lit "sk-")) eqn:Es; [|discriminate].
  pose proof (span_eq is_alnum (skipn 3 s)) as Heq.
  pose proof (span_fst_all is_alnum (skipn 3 s)) as Hall.
  destruct (span is_alnum (skipn 3 s)) as [run rest]. cbn [fst snd] in Heq, Hall.
  destruct (24 <=? List.length run)%nat eqn:El; [|discriminate].
  intros [= <-]. exists run. split; [|split; [exact Hall|now apply Nat.leb_le]].
  assert (Hs : s = (lit "sk-" ++ run) ++ rest).
  { rewrite <- app_assoc, Heq. exact (startswith_prefix _ _ Es). }
  rewrite Hs. exact (firstn_app_exact (lit "sk-" ++ run) rest).
Qed.

Lemma generic_at_length (s : str) (len : nat) :
  generic_at s = Some len -> (len <= List.length s)%nat.
Proof.
  unfold generic_at. cbv zeta. intros H.
  repeat match type of H with
         | match ?x with _ => _ end = Some _ => destruct x eqn:?; try discriminate H
         end.
  injection H as <-. lia.
Qed.

Lemma In_scan_file (contents : str) (n : nat) (label snippet : str) :
  In (n, label, snippet) (scan_file (Some contents)) ->
  exists m : str -> option nat,
    In (label, m) SUSPICIOUS_PATTERNS
    /\ exists i len,
         (i < List.length contents)%nat /\ n = line_number contents i
         /\ m (skipn i contents) = Some len
         /\ snippet = firstn len (skipn i contents).
Proof.
  unfold scan_file. intros H. apply in_flat_map in H as ([l m] & Hp & H).
  cbn [fst snd] in H. apply in_map_iff in H as ([i t] & E & H).
  cbn [fst snd] in E. injection E as <- <- <-.
  exists m. split; [exact Hp|].
  destruct (finditer_go_sound _ _ _ _ _ _ H) as (j & len & -> & Hj & Hm & ->).
  exists j, len. auto.
Qed.

(** X23.  Every finding of a file points at a place of its text: at
    some offset of the file the pattern of the finding's label matches,
    the matched text is what stands at that offset, and the line number
    is that of the line holding the offset, between 1 and the number of
    lines.  A finding of the key pattern is the letters sk, a hyphen
    and a run of twenty-four or more alphanumeric characters. *)
Theorem finding_points_at_match (contents : str) (n : nat) (label snippet : str) :
  In (n, label, snippet) (scan_file (Some contents)) ->
  exists i,
    (i < List.length contents)%nat
    /\ n = line_of contents i
    /\ (1 <= n <= List.length (split [NL] contents))%nat
    /\ startswith (skipn i contents) snippet = true
    /\ ((label = lit "openai_key" /\ key_at contents i = true
         /\ exists run, snippet = lit "sk-" ++ run
              /\ forallb is_alnum run = true /\ (24 <= List.length run)%nat)
        \/ (label = lit "generic_token"
            /\ generic_at (skipn i contents) = Some (List.length snippet))).
Proof.
  intros H. destruct (In_scan_file _ _ _ _ H) as (m & Hp & i & len & Hi & -> & Hm & ->).
  exists i. split; [exact Hi|]. split; [apply line_number_line_of|].
  split; [apply line_number_bounds|].
  split.
  { rewrite <- (firstn_skipn len (skipn i contents)) at 1. apply startswith_app. }
  destruct Hp as [E|[E|[]]]; injection E as <- <-.
  - left. split; [reflexivity|]. split.
    + rewrite openai_at_key in Hm. now destruct (key_at contents i).
    + exact (openai_at_snippet _ _ Hm).
  - right. split; [reflexivity|].
    rewrite length_firstn, Nat.min_l; [exact Hm|].
    now apply generic_at_length.
Qed.

Lemma finding_points_at_match_witness :
  exists i,
    (i < List.length config_with_two_secrets)%nat
    /\ 4%nat = line_of config_with_two_secrets i
    /\ (1 <= 4 <= List.length (split [NL] config_with_two_secrets))%nat
    /\ startswith (skipn i config_with_two_secrets)
         (lit "sk-ABCDEFGHIJKLMNOPQRSTUVWX34") = true
    /\ ((lit "openai_key" = lit "openai_key" /\ key_at config_with_two_secrets i = true
         /\ exists run, lit "sk-ABCDEFGHIJKLMNOPQRSTUVWX34" = lit "sk-" ++ run
              /\ forallb is_alnum run = true /\ (24 <= List.length run)%nat)
        \/ (lit "openai_key" = lit "generic_token"
            /\ generic_at (skipn i config_with_two_secrets)
               = Some (List.length (lit "sk-ABCDEFGHIJKLMNOPQRSTUVWX34")))).
Proof.
  apply (finding_points_at_match config_with_two_secrets 4
           (lit "openai_key") (lit "sk-ABCDEFGHIJKLMNOPQRSTUVWX34")).
  vm_compute. right. left. reflexivity.
Defined.

(** *** The verdict *)

Lemma findings_clean (candidates : list (str * option str)) :
  forallb clean candidates = negb (nonempty (findings_of candidates)).
Proof.
  unfold findings_of. induction candidates as [|file cs IH]; [reflexivity|].
  cbn [forallb flat_map]. rewrite IH. unfold clean.
  destruct (scan_file (snd file)); reflexivity.
Qed.

Lemma report_log (findings : list (str * (nat * str * str))) :
  fold_right report (ret tt) findings
  = (map (fun f => PrintOut (diagnostic (fst f) (fst (fst (snd f)))
                                        (snd (fst (snd f))) (snd (snd f))))
         findings,
     Continue tt).
Proof.
  induction findings as [|[relative [[line_no label] snippet]] fs IH]; [reflexivity|].
  cbn [fold_right report map fst snd]. rewrite IH. reflexivity.
Qed.

Lemma stdout_prints (msgs : list str) : stdout (map PrintOut msgs) = msgs.
Proof.
  unfold stdout. induction msgs as [|m ms IH]; [reflexivity|].
  cbn [map flat_map app]. now rewrite IH.
Qed.

(** X24.  The scanner ends with exit code 0 when no candidate file has
    a finding and with exit code 1 otherwise; it writes no file and
    prints nothing on the error stream; on the standard output it
    prints one line when there is no finding and otherwise a heading,
    one line for each finding in the order of the candidates, and a
    closing line. *)
Theorem scan_exit_code (candidates : list (str * option str)) :
  exit_code (main candidates) = (if forallb clean candidates then 0 else 1)%Z
  /\ written (fst (main candidates)) = []
  /\ stderr (fst (main candidates)) = []
  /\ stdout (fst (main candidates))
     = if forallb clean candidates
       then [ [9989] ++ lit " Secret scan passed: no suspicious tokens detected." ]
       else ([10060] ++ lit " Potential secrets detected:" ++ [NL])
            :: map (fun f => diagnostic (fst f) (fst (fst (snd f)))
                                        (snd (fst (snd f))) (snd (snd f)))
                   (findings_of candidates)
            ++ [ [NL] ++ lit "Resolve or confirm false positives before archiving the release build." ].
Proof.
  rewrite findings_clean. unfold main. cbv zeta.
  destruct (findings_of candidates) as [|f fs] eqn:E.
  - repeat split; reflexivity.
  - rewrite report_log. cbn [nonempty negb bind emit exit ret fst snd app exit_code].
    set (out := map _ (f :: fs)).
    assert (Hout : out = map PrintOut
              (map (fun f => diagnostic (fst f) (fst (fst (snd f)))
                                         (snd (fst (snd f))) (snd (snd f))) (f :: fs)))
      by (unfold out; now rewrite map_map).
    rewrite Hout. clear Hout out.
    set (msgs := map _ (f :: fs)).
    split; [reflexivity|].
    split.
    { unfold written. cbn [flat_map app]. rewrite flat_map_app. cbn [flat_map app].
      rewrite app_nil_r. clearbody msgs. induction msgs; [reflexivity|exact IHmsgs]. }
    split.
    { unfold stderr. cbn [flat_map app]. rewrite flat_map_app. cbn [flat_map app].
      rewrite app_nil_r. clearbody msgs. induction msgs; [reflexivity|exact IHmsgs]. }
    unfold stdout. cbn [flat_map app]. rewrite flat_map_app. cbn [flat_map app].
    f_equal. f_equal. apply stdout_prints.
Qed.

(** X25.  One key anywhere in one decodable candidate file is enough
    for exit code 1, however many other matches the files hold.  For
    that file a line is printed that is made of a hyphen, the label
    openai_key, the path of the file, the line number in decimal, an
    arrow and the matched text; the line number is that of an offset
    at which a key stands, and the matched text is what stands there:
    the letters sk, a hyphen and twenty-four or more alphanumeric
    characters. *)
Theorem any_key_fails_scan
  (candidates : list (str * option str)) (path contents : str) (i : nat) :
  In (path, Some contents) candidates ->
  key_at contents i = true ->
  exit_code (main candidates) = 1%Z
  /\ exists (j : nat) (run : str),
       key_at contents j = true
       /\ startswith (skipn j contents) (lit "sk-" ++ run) = true
       /\ forallb is_alnum run = true /\ (24 <= List.length run)%nat
       /\ In (PrintOut
               (lit "- openai_key: " ++ path ++ lit ":"
                ++ lit (NilZero.string_of_uint (Nat.to_uint (line_of contents j)))
                ++ [32; 8594; 32] ++ lit "sk-" ++ run))
             (fst (main candidates)).
Proof.
  intros Hin Hk.
  assert (Hi : (i < List.length contents)%nat).
  { destruct (Nat.lt_ge_cases i (List.length contents)) as [Hlt|Hge]; [exact Hlt|].
    rewrite (key_at_beyond _ _ Hge) in Hk. discriminate Hk. }
  assert (Hm : finditer openai_at contents <> []).
  { pose proof (openai_at_key contents i) as Ho. rewrite Hk in Ho.
    exact (finditer_go_complete _ _ _ _ _ Hi Ho). }
  destruct (finditer openai_at contents) as [|[j t] ms] eqn:Ef; [contradiction|].
  assert (Hjt : In (j, t) (finditer openai_at contents)) by (rewrite Ef; now left).
  destruct (finditer_go_sound _ _ _ _ _ _ Hjt) as (j' & len & Ej & Hj & Hlen & Et).
  cbn [Nat.add] in Ej. subst j'.
  destruct (openai_at_snippet _ _ Hlen) as (run & Erun & Hall & Hrun).
  rewrite Erun in Et. subst t.
  assert (Hf : In (path, (line_number contents j, lit "openai_key", lit "sk-" ++ run))
                  (findings_of candidates)).
  { unfold findings_of. apply in_flat_map. exists (path, Some contents).
    split; [exact Hin|]. cbn [fst snd]. apply in_map.
    rewrite scan_file_by_label, Ef. left. reflexivity. }
  destruct (main_with_findings candidates) as [Hexit Hprint].
  { intros E. rewrite E in Hf. exact Hf. }
  split; [exact Hexit|].
  exists j, run. split.
  { rewrite openai_at_key in Hlen. now destruct (key_at contents j). }
  split.
  { rewrite <- Erun. rewrite <- (firstn_skipn len (skipn j contents)) at 1.
    apply startswith_app. }
  split; [exact Hall|]. split; [exact Hrun|].
  rewrite <- line_number_line_of. exact (Hprint _ _ _ _ Hf).
Qed.

Lemma any_key_fails_scan_witness :
  exit_code (main [(lit "app/blob.json", None);
                   (lit "app/config.py", Some config_with_two_secrets)]) = 1%Z
  /\ exists (j : nat) (run : str),
       key_at config_with_two_secrets j = true
       /\ startswith (skipn j config_with_two_secrets) (lit "sk-" ++ run) = true
       /\ forallb is_alnum run = true /\ (24 <= List.length run)%nat
       /\ In (PrintOut
               (lit "- openai_key: app/config.py:"
                ++ lit (NilZero.string_of_uint
                          (Nat.to_uint (line_of config_with_two_secrets j)))
                ++ [32; 8594; 32] ++ lit "sk-" ++ run))
             (fst (main [(lit "app/blob.json", None);
                         (lit "app/config.py", Some config_with_two_secrets)])).
Proof.
  apply (any_key_fails_scan
           [(lit "app/blob.json", None);
            (lit "app/config.py", Some config_with_two_secrets)]
           (lit "app/config.py") config_with_two_secrets 15);
    [right; left; reflexivity|vm_compute; reflexivity].
Defined.

End ScanFacts.

(** ** The feature list *)

Module FeatureFacts.
Import Py Re Features Specs MoreSpecs Samples MoreSamples PyFacts.
Import BulletFacts ExtractFacts FirstWordFacts.

Lemma contains_app_r (pre s sub : str) :
  contains s sub = true -> contains (pre ++ s) sub = true.
Proof.
  intros H. induction pre as [|c pre IH]; [exact H|].
  cbn [app contains]. rewrite IH. apply orb_true_r.
Qed.

Lemma contains_skipn (n : nat) :
  forall s sub, contains (skipn n s) sub = true -> contains s sub = true.
Proof.
  induction n as [|n IH]; intros s sub H; [exact H|].
  destruct s as [|c s]; [exact H|]. cbn [skipn] in H.
  cbn [contains]. rewrite (IH _ _ H). apply orb_true_r.
Qed.

Lemma lazy_body_end (s body : str) :
  lazy_body s = Some body ->
  contains s (NL :: lit "---") || contains s (NL :: lit "## ") = true.
Proof.
  revert body. induction s as [|c s IH]; intros body H.
  - cbn [lazy_body] in H. destruct (section_end []) eqn:E; [|discriminate H].
    discriminate E.
  - cbn [lazy_body] in H. destruct (section_end (c :: s)) eqn:E.
    + unfold section_end in E. cbn [contains].
      apply orb_true_iff in E as [E|E]; rewrite E; cbn [orb];
        [reflexivity|apply orb_true_r].
    + destruct (lazy_body s) as [b|]; [|discriminate H].
      specialize (IH b eq_refl). cbn [contains].
      apply orb_true_iff in IH as [E1|E1]; rewrite E1;
        rewrite ?orb_true_r; reflexivity.
Qed.

Lemma feature_of_line_ok (line : str) : forallb feature_ok (feature_of_line line) = true.
Proof.
  unfold feature_of_line, feature_match.
  destruct (startswith line (lit "- **")); [|reflexivity].
  pose proof (span_fst_all (fun c => negb (c =? 42)) (skipn 4 line)) as Hall.
  destruct (span (fun c => negb (c =? 42)) (skipn 4 line)) as [nm r1].
  cbn [fst] in Hall.
  destruct (nonempty nm) eqn:En; [|reflexivity].
  destruct (startswith r1 (lit "**")); [|reflexivity].
  cbn [andb]. cbv zeta.
  set (r3 := match skipn 2 r1 with
             | c :: r => if c =? 58 then r else skipn 2 r1
             | [] => skipn 2 r1
             end).
  pose proof (span_snd_head isspace r3) as Hhead.
  destruct (snd (span isspace r3)) as [|x r4].
  - cbn [span fst nonempty forallb]. unfold feature_ok. cbn [name description].
    rewrite En. unfold free_of. now rewrite Hall.
  - cbn [span]. destruct (negb (x =? NL)) eqn:Ex.
    + destruct (span (fun c => negb (c =? NL)) r4) as [a b].
      cbn [fst nonempty forallb]. unfold feature_ok. cbn [name description].
      rewrite En, Hhead. unfold free_of. now rewrite Hall.
    + cbn [fst nonempty forallb]. unfold feature_ok. cbn [name description].
      rewrite En. unfold free_of. now rewrite Hall.
Qed.

(** X26.  Every entry of the feature list has a name of at least one
    character that holds no star, and a description that is empty or
    starts with a character that is not whitespace. *)
Theorem features_well_formed (content : str) :
  forallb feature_ok (extract_features_from_readme content) = true.
Proof.
  unfold extract_features_from_readme.
  destruct (search core_features_at content) as [body|]; [|reflexivity].
  induction (split [NL] body) as [|line ls IH]; [reflexivity|].
  cbn [flat_map]. now rewrite forallb_app, feature_of_line_ok, IH.
Qed.

(** *** A closed section *)

Lemma search_from {A : Type} (m : str -> option A) (pre suf : str) :
  (forall j, (j < List.length pre)%nat -> m (skipn j (pre ++ suf)) = None) ->
  search m (pre ++ suf) = search m suf.
Proof.
  induction pre as [|c pre IH]; intros H; [reflexivity|].
  cbn [app search].
  pose proof (H 0%nat ltac:(cbn; lia)) as H0. cbn [skipn app] in H0. rewrite H0.
  apply IH. intros j Hj. apply (H (S j)). cbn; lia.
Qed.

(** A prefix found at the start of [a ++ b] lies in [a], or [a] is a
    proper beginning of it and [b] goes on with the rest. *)
Lemma startswith_app_cases (t : str) :
  forall a b,
  startswith (a ++ b) t = true ->
  startswith a t = true
  \/ ((List.length a < List.length t)%nat
      /\ startswith b (skipn (List.length a) t) = true).
Proof.
  induction t as [|x t IH]; intros a b H; [now left|].
  destruct a as [|c a].
  - right. split; [cbn; lia|exact H].
  - cbn [app startswith] in H |- *. apply andb_true_iff in H as [Hc H].
    rewrite Hc. cbn [andb]. destruct (IH a b H) as [Ha|[Hl Hb]]; [now left|].
    right. split; [cbn; lia|exact Hb].
Qed.

Lemma contains_at (s sub : str) (j : nat) :
  contains s sub = false -> startswith (skipn j s) sub = false.
Proof.
  revert s. induction j as [|j IH]; intros s H; [now apply contains_head|].
  destruct s as [|c s]; [now apply contains_head|].
  cbn [skipn]. apply IH. exact (contains_tail _ _ _ H).
Qed.

Lemma no_end_across (a rest : str) :
  a <> [] ->
  section_end rest = true ->
  startswith a (NL :: lit "---") = false ->
  startswith a (NL :: lit "## ") = false ->
  section_end (a ++ rest) = false.
Proof.
  intros Ha Hrest H1 H2.
  assert (Hr : exists r, rest = NL :: r).
  { unfold section_end in Hrest. destruct rest as [|c r]; [discriminate Hrest|].
    exists r. f_equal. cbn [startswith] in Hrest.
    destruct (c =? NL) eqn:E; [now apply N.eqb_eq in E|discriminate Hrest]. }
  destruct Hr as [r ->].
  assert (Hshort : forall t,
            (t = NL :: lit "---" \/ t = NL :: lit "## ") ->
            startswith a t = false -> startswith (a ++ NL :: r) t = false).
  { intros t Ht Hs. destruct (startswith (a ++ NL :: r) t) eqn:E; [|reflexivity].
    destruct (startswith_app_cases _ _ _ E) as [Hin|[Hl Hb]]; [congruence|].
    destruct a as [|a0 [|a1 [|a2 [|a3 a']]]]; [contradiction| | | |];
      destruct Ht as [-> | ->]; cbn in Hl; try lia; discriminate Hb. }
  unfold section_end.
  rewrite (Hshort _ (or_introl eq_refl) H1), (Hshort _ (or_intror eq_refl) H2).
  reflexivity.
Qed.

Lemma lazy_body_app (body rest : str) :
  section_end rest = true ->
  contains body (NL :: lit "---") = false ->
  contains body (NL :: lit "## ") = false ->
  lazy_body (body ++ rest) = Some body.
Proof.
  intros Hrest. induction body as [|c body IH]; intros H1 H2.
  - cbn [app]. destruct rest; cbn [lazy_body]; now rewrite Hrest.
  - assert (E : section_end ((c :: body) ++ rest) = false).
    { apply no_end_across; [discriminate|exact Hrest| |]; now apply contains_head. }
    cbn [app lazy_body] in E |- *. rewrite E.
    rewrite IH by (eapply contains_tail; eauto). reflexivity.
Qed.

Lemma heading_not_across (a tail : str) :
  a <> [] ->
  startswith a CORE_FEATURES = false ->
  startswith (a ++ CORE_FEATURES ++ tail) CORE_FEATURES = false.
Proof.
  intros Ha Hs.
  destruct (startswith (a ++ CORE_FEATURES ++ tail) CORE_FEATURES) eqn:E; [|reflexivity].
  destruct (startswith_app_cases _ _ _ E) as [Hin|[Hl Hb]]; [congruence|].
  exfalso.
  assert (Hk : List.length a <> 0%nat) by (destruct a; [contradiction|discriminate]).
  revert Hk Hl Hb. generalize (List.length a) as k. clear. intros k Hk Hl.
  destruct k as [|k]; [contradiction|].
  do 17 (destruct k as [|k]; [cbv; discriminate|]).
  cbn in Hl. lia.
Qed.

Lemma skipn_app_le {A : Type} (j : nat) :
  forall a b : list A, (j <= List.length a)%nat -> skipn j (a ++ b) = skipn j a ++ b.
Proof.
  induction j as [|j IH]; intros a b H; [reflexivity|].
  destruct a as [|x a]; [cbn in H; lia|]. cbn [app skipn]. apply IH. cbn in H; lia.
Qed.

Lemma heading_not_before (pre tail : str) (j : nat) :
  contains pre CORE_FEATURES = false ->
  (j < List.length pre)%nat ->
  core_features_at (skipn j (pre ++ CORE_FEATURES ++ tail)) = None.
Proof.
  intros Hpre Hj. unfold core_features_at.
  rewrite skipn_app_le by lia.
  rewrite heading_not_across; [reflexivity| |now apply contains_at].
  intros E. apply (f_equal (@List.length _)) in E.
  rewrite length_skipn in E. cbn in E. lia.
Qed.

Lemma heading_here (tail : str) :
  core_features_at (CORE_FEATURES ++ tail) = lazy_body tail.
Proof.
  unfold core_features_at. rewrite startswith_app.
  now rewrite skipn_app_exact.
Qed.

(** X27.  When nothing after the first Core Features heading of a
    README is a line feed followed by three hyphens or by a level-2
    heading marker, the feature list is empty: a section that runs to
    the end of the file is not read. *)
Theorem open_section_gives_no_feature (pre tail : str) :
  contains pre CORE_FEATURES = false ->
  contains tail (NL :: lit "---") = false ->
  contains tail (NL :: lit "## ") = false ->
  extract_features_from_readme (pre ++ CORE_FEATURES ++ tail) = [].
Proof.
  intros Hpre H1 H2. unfold extract_features_from_readme.
  rewrite search_from by (intros j Hj; now apply heading_not_before).
  destruct (search core_features_at (CORE_FEATURES ++ tail)) as [body|] eqn:E;
    [|reflexivity].
  destruct (search_some _ _ _ E) as (p & suf & Hsplit & Hm).
  unfold core_features_at in Hm.
  destruct (startswith suf CORE_FEATURES); [|discriminate Hm].
  apply lazy_body_end in Hm.
  assert (Hsuf : skipn (List.length CORE_FEATURES) suf = skipn (List.length p) tail).
  { rewrite <- (skipn_app_exact p suf) at 1. rewrite <- Hsplit, skipn_skipn.
    rewrite Nat.add_comm, <- skipn_skipn. now rewrite skipn_app_exact. }
  rewrite Hsuf in Hm.
  apply orb_true_iff in Hm as [Hm|Hm]; apply contains_skipn in Hm; congruence.
Qed.

Lemma open_section_gives_no_feature_witness :
  extract_features_from_readme
    (lines [lit "# App"; lit ""] ++ CORE_FEATURES ++ readme_features) = [].
Proof.
  apply (open_section_gives_no_feature (lines [lit "# App"; lit ""]) readme_features);
    reflexivity.
Defined.

(** X28.  When the text after the first Core Features heading holds a
    line feed followed by three hyphens or by a level-2 heading marker,
    the section ends at the first such place, and the feature list has
    the entries of the lines of the section, in their order: a line
    that is no feature bullet gives none, and what follows the section
    gives none. *)
Theorem closed_section_features (pre body rest : str) :
  contains pre CORE_FEATURES = false ->
  contains body (NL :: lit "---") = false ->
  contains body (NL :: lit "## ") = false ->
  section_end rest = true ->
  extract_features_from_readme (pre ++ CORE_FEATURES ++ body ++ rest)
  = flat_map feature_of_line (split [NL] body).
Proof.
  intros Hpre H1 H2 Hrest. unfold extract_features_from_readme.
  rewrite search_from by (intros j Hj; now apply heading_not_before).
  rewrite (search_here core_features_at _ body); [reflexivity|].
  rewrite heading_here. now apply lazy_body_app.
Qed.

Lemma closed_section_features_witness :
  extract_features_from_readme
    (lines [lit "# App"; lit ""] ++ CORE_FEATURES ++ readme_features
     ++ lines [lit ""; lit "## Later"; lit "- **Skipped**: not read"])
  = [ mk_feature (lit "Chat") (lit "talk to models");
      mk_feature (lit "Tools") [] ].
Proof.
  apply (closed_section_features (lines [lit "# App"; lit ""]) readme_features
           (lines [lit ""; lit "## Later"; lit "- **Skipped**: not read"]));
    reflexivity.
Defined.

End FeatureFacts.

(** ** [strip_markdown] *)

Module MarkdownFacts.
Import Py Re Metadata Specs MoreSpecs PyFacts NormalizeFacts BulletFacts.
Import CoverageFacts FeatureFacts.

Lemma sub_go_skip (m : str -> option (nat * str)) (k : nat) :
  forall s, sub_go m k s = sub_go m 0 (skipn k s).
Proof.
  induction k as [|k IH]; intros s; [reflexivity|].
  destruct s as [|c r]; [reflexivity|]. cbn [sub_go skipn]. apply IH.
Qed.

Lemma sub_go_here (m : str -> option (nat * str)) (c : char) (r : str) :
  sub_go m 0 (c :: r)
  = match m (c :: r) with
    | Some (len, repl) => repl ++ sub_go m (len - 1) r
    | None => c :: sub_go m 0 r
    end.
Proof. reflexivity. Qed.

Lemma stars_app (a b : str) : stars (a ++ b) = (stars a + stars b)%nat.
Proof. unfold stars. now rewrite filter_app, length_app. Qed.

Lemma stars_free (s : str) :
  forallb (fun d => negb (d =? STAR)) s = true -> stars s = 0%nat.
Proof.
  unfold stars. induction s as [|c s IH]; [reflexivity|].
  cbn [forallb filter]. intros H. apply andb_true_iff in H as [Hc H].
  apply negb_true_iff in Hc. change 42 with STAR. rewrite N.eqb_sym, Hc. now apply IH.
Qed.

Lemma contains_skipn_false (n : nat) (s sub : str) :
  contains s sub = false -> contains (skipn n s) sub = false.
Proof.
  intros H. destruct (contains (skipn n s) sub) eqn:E; [|reflexivity].
  apply contains_skipn in E. congruence.
Qed.

Lemma italic_at_cons (c : char) (r : str) :
  italic_at (c :: r)
  = if c =? STAR then
      let '(body, rest) := span (fun d => negb (d =? STAR)) r in
      match body, rest with
      | _ :: _, _ :: _ => Some (S (S (List.length body)), body)
      | _, _ => None
      end
    else None.
Proof. reflexivity. Qed.

Lemma italic_stars (n : nat) :
  forall s,
  (List.length s <= n)%nat ->
  contains s [STAR; STAR] = false ->
  (stars (sub_go italic_at 0 s) <= 1)%nat.
Proof.
  induction n as [|n IH]; intros s Hn Hs.
  { destruct s; [cbn; lia|cbn in Hn; lia]. }
  destruct s as [|c r]; [cbn; lia|].
  assert (Hr : contains r [STAR; STAR] = false) by (eapply contains_tail; eauto).
  assert (Hplain : (stars (sub_go italic_at 0 r) <= 1)%nat)
    by (apply IH; [cbn in Hn; lia|exact Hr]).
  rewrite sub_go_here, italic_at_cons.
  destruct (c =? STAR) eqn:Ec.
  2:{ cbv beta iota.
      change (c :: sub_go italic_at 0 r) with ([c] ++ sub_go italic_at 0 r).
      rewrite stars_app, (stars_free [c]); [exact Hplain|].
      cbn [forallb]. now rewrite Ec. }
  apply N.eqb_eq in Ec. subst c.
  pose proof (span_eq (fun d => negb (d =? STAR)) r) as Heq.
  pose proof (span_fst_all (fun d => negb (d =? STAR)) r) as Hall.
  pose proof (span_snd_head (fun d => negb (d =? STAR)) r) as Hhead.
  destruct (span (fun d => negb (d =? STAR)) r) as [body rest].
  cbn [fst snd] in Heq, Hall, Hhead.
  cbv beta iota zeta.
  destruct body as [|b0 body].
  - cbn [app] in Heq. subst rest. destruct r as [|x r']; [reflexivity|].
    apply negb_false_iff, N.eqb_eq in Hhead. subst x.
    apply contains_head in Hs. discriminate Hs.
  - destruct rest as [|x rest]; cbv beta iota.
    + rewrite app_nil_r in Heq. subst r.
      change (sub_go italic_at 0 (b0 :: body)) with (sub italic_at (b0 :: body)).
      rewrite italic_none by exact Hall.
      change (STAR :: b0 :: body) with ([STAR] ++ (b0 :: body)).
      rewrite stars_app, (stars_free (b0 :: body)) by exact Hall. reflexivity.
    + rewrite sub_go_skip, stars_app, (stars_free (b0 :: body)) by exact Hall.
      cbn [Nat.add]. apply IH.
      * rewrite length_skipn. cbn in Hn |- *. lia.
      * now apply contains_skipn_false.
Qed.

(** X29.  What [strip_markdown] gives holds at most one star: the
    double stars are removed first, and of the single stars that are
    left each one with a later one is taken away as a pair of emphasis
    marks. *)
Theorem strip_markdown_leaves_one_star (line : str) :
  (stars (strip_markdown line) <= 1)%nat.
Proof.
  unfold strip_markdown. cbv zeta.
  apply (italic_stars _ _ (Nat.le_refl _)).
  exact (replace_stars_free _).
Qed.

End MarkdownFacts.
